(** * MQSim result summariser ([parse_result.py]): a shallow embedding

    The Python module turns one simulator result document (XML) per
    experiment into a flat record of metrics.  This file embeds the module
    function by function and proves properties of the embedding.

    Modelling conventions
    - a Python [str] is a [string] of 8-bit characters;
    - a Python [int] is a [Z]; a Python [float] is an IEEE-754 binary64
      value, represented by [spec_float] with precision 53 and maximal
      exponent 1024 (the arithmetic is the one of [SpecFloat]);
    - a Python exception is a value of [exn]; a function that can raise
      returns a [result];
    - a [Dict[str, Any]] that is built as an output record is a
      [gmap string value]; the attributes of an XML element are kept as an
      association list in document order, which is the order in which the
      source iterates over them. *)

From Stdlib Require Import ZArith Ascii String List Lia SpecFloat.
From stdpp Require Import base option list gmap strings sorting.

#[local] Set Warnings "-clear-no-such-hyp".

Local Open Scope Z_scope.

(** ** Python values, exceptions and builtins *)

Module Py.

Inductive exn : Set :=
| ValueError
| OverflowError
| ZeroDivisionError
| KeyError.

Inductive result (A : Type) : Type :=
| Ok (a : A)
| Raise (e : exn).
Global Arguments Ok {A} a.
Global Arguments Raise {A} e.

Global Instance result_ret : MRet result := fun A a => Ok a.
Global Instance result_bind : MBind result := fun A B f m =>
  match m with
  | Ok a => f a
  | Raise e => Raise e
  end.
Global Instance result_fmap : FMap result := fun A B f m =>
  match m with
  | Ok a => Ok (f a)
  | Raise e => Raise e
  end.

(** [Any] as far as the summariser produces it. *)
Inductive value : Type :=
| VNone
| VInt (n : Z)
| VFloat (f : spec_float)
| VStr (s : string).

Definition of_opt_int (o : option Z) : value :=
  match o with Some n => VInt n | None => VNone end.
Definition of_opt_float (o : option spec_float) : value :=
  match o with Some f => VFloat f | None => VNone end.

(** *** Characters *)

Definition code (c : ascii) : Z := Z.of_N (N_of_ascii c).

Definition is_digit (c : ascii) : bool := (48 <=? code c) && (code c <=? 57).
Definition digit_val (c : ascii) : Z := code c - 48.

(** [str.isspace] on the code points below 256. *)
Definition is_space (c : ascii) : bool :=
  let n := code c in
  ((9 <=? n) && (n <=? 13)) || ((28 <=? n) && (n <=? 32))
  || (n =? 133) || (n =? 160).

(** [str.lower] on the code points below 256: the letters A to Z, and the
    capital letters of Latin-1 (192 to 222 but for the multiplication sign). *)
Definition lower_char (c : ascii) : ascii :=
  let n := code c in
  if ((65 <=? n) && (n <=? 90))
     || ((192 <=? n) && (n <=? 222) && negb (n =? 215))
  then ascii_of_N (Z.to_N (n + 32)) else c.

(** *** Strings *)

Fixpoint str_lower (s : string) : string :=
  match s with
  | EmptyString => EmptyString
  | String c s' => String (lower_char c) (str_lower s')
  end.

Definition str_len (s : string) : nat := String.length s.

(** [s[n:]] and [s[:n]] for [n >= 0]. *)
Fixpoint str_drop (n : nat) (s : string) : string :=
  match n, s with
  | O, _ => s
  | S n', String _ s' => str_drop n' s'
  | S _, EmptyString => EmptyString
  end.

Fixpoint str_take (n : nat) (s : string) : string :=
  match n, s with
  | O, _ => EmptyString
  | S n', String c s' => String c (str_take n' s')
  | S _, EmptyString => EmptyString
  end.

(** [s.startswith(p)] *)
Definition str_startswith (p s : string) : bool := String.prefix p s.

(** [s.endswith(p)] *)
Definition str_endswith (p s : string) : bool :=
  (str_len p <=? str_len s)%nat
  && String.eqb (str_drop (str_len s - str_len p) s) p.

(** [p in s] *)
Fixpoint str_contains (p s : string) : bool :=
  String.prefix p s
  || match s with
     | EmptyString => false
     | String _ s' => str_contains p s'
     end.

(** [s.split(sep)] for a one-character separator: never empty, and empty
    pieces are kept. *)
Fixpoint str_split (sep : ascii) (s : string) : list string :=
  match s with
  | EmptyString => [EmptyString]
  | String c s' =>
      if Ascii.eqb c sep then EmptyString :: str_split sep s'
      else match str_split sep s' with
           | p :: ps => String c p :: ps
           | [] => [String c EmptyString]
           end
  end.

(** [s.split(sep, 1)[0]]: the text before the first separator. *)
Fixpoint str_before (sep : ascii) (s : string) : string :=
  match s with
  | EmptyString => EmptyString
  | String c s' =>
      if Ascii.eqb c sep then EmptyString else String c (str_before sep s')
  end.

Fixpoint str_lstrip (s : string) : string :=
  match s with
  | EmptyString => EmptyString
  | String c s' => if is_space c then str_lstrip s' else s
  end.

(** Drops trailing white space. *)
Fixpoint str_rstrip (s : string) : string :=
  match s with
  | EmptyString => EmptyString
  | String c s' =>
      match str_rstrip s' with
      | EmptyString => if is_space c then EmptyString else String c EmptyString
      | r => String c r
      end
  end.

(** [s.strip()] *)
Definition str_strip (s : string) : string := str_rstrip (str_lstrip s).

(** The white space that [int] and [float] allow around a number: of the code
    points below 256, those of [str.isspace] but for the four separators 28
    to 31. *)
Definition is_num_space (c : ascii) : bool :=
  let n := code c in
  ((9 <=? n) && (n <=? 13)) || (n =? 32) || (n =? 133) || (n =? 160).

Fixpoint num_lstrip (s : string) : string :=
  match s with
  | EmptyString => EmptyString
  | String c s' => if is_num_space c then num_lstrip s' else s
  end.

Fixpoint num_rstrip (s : string) : string :=
  match s with
  | EmptyString => EmptyString
  | String c s' =>
      match num_rstrip s' with
      | EmptyString => if is_num_space c then EmptyString else String c EmptyString
      | r => String c r
      end
  end.

Definition num_strip (s : string) : string := num_rstrip (num_lstrip s).

(** The longest prefix of decimal digits. *)
Fixpoint take_digits (s : string) : string :=
  match s with
  | EmptyString => EmptyString
  | String c s' => if is_digit c then String c (take_digits s') else EmptyString
  end.

(** [os.path.basename] of [posixpath]: the text after the last slash. *)
Fixpoint basename (p : string) : string :=
  match p with
  | EmptyString => EmptyString
  | String c p' =>
      if str_contains "/" p then basename p' else p
  end.

(** *** Numbers *)

Definition prec : Z := 53.
Definition emax : Z := 1024.

Definition fzero : spec_float := S754_zero false.
Definition fadd : spec_float -> spec_float -> spec_float := SFadd prec emax.
Definition fmul : spec_float -> spec_float -> spec_float := SFmul prec emax.
Definition fdiv : spec_float -> spec_float -> spec_float := SFdiv prec emax.

(** Truth value of a float: everything but the two zeros is true. *)
Definition float_truthy (f : spec_float) : bool :=
  match f with S754_zero _ => false | _ => true end.

(** [f > 0] for a float [f] and the integer zero. *)
Definition float_gt0 (f : spec_float) : bool := SFltb fzero f.

(** The double nearest to the integer [n], ties to even. *)
Definition to_float (n : Z) : spec_float :=
  binary_normalize prec emax n 0 false.

(** [float(n)] for an integer [n]: the nearest double; [OverflowError]
    when that is not finite. *)
Definition float_of_int (n : Z) : result spec_float :=
  match to_float n with
  | S754_infinity _ => Raise OverflowError
  | f => Ok f
  end.

(** [int(f)] for a float [f]: truncation towards zero. *)
Definition int_of_float (f : spec_float) : result Z :=
  match f with
  | S754_zero _ => Ok 0
  | S754_infinity _ => Raise OverflowError
  | S754_nan => Raise ValueError
  | S754_finite s m e =>
      let a := Z.shiftl (Zpos m) e in Ok (if s then - a else a)
  end.

(** [a / b] on floats. *)
Definition truediv (a b : spec_float) : result spec_float :=
  match b with
  | S754_zero _ => Raise ZeroDivisionError
  | _ => Ok (fdiv a b)
  end.

(** [a + n] and [a * n] for a float [a] and an integer [n]: the integer is
    converted first. *)
Definition fadd_int (a : spec_float) (n : Z) : result spec_float :=
  b ← float_of_int n; Ok (fadd a b).
Definition fmul_int (a : spec_float) (n : Z) : result spec_float :=
  b ← float_of_int n; Ok (fmul a b).

Definition split_sign (s : string) : bool * string :=
  match s with
  | String "-" s' => (true, s')
  | String "+" s' => (false, s')
  | _ => (false, s)
  end.

(** A run of digits in which single underscores may stand between two
    digits, as [int] reads it. *)
Inductive run_state : Set := AtStart | AfterDigit | AfterUnderscore.

Fixpoint digit_run (st : run_state) (acc : Z) (s : string) : option Z :=
  match s with
  | EmptyString => match st with AfterDigit => Some acc | _ => None end
  | String c s' =>
      if is_digit c then digit_run AfterDigit (10 * acc + digit_val c) s'
      else if Ascii.eqb c "_" then
        match st with
        | AfterDigit => digit_run AfterUnderscore acc s'
        | _ => None
        end
      else None
  end.

(** [int(s)] in base ten; [None] stands for [ValueError].  This is the
    conversion without limit on the number of digits (CPython 3.11 and later
    refuse by default a text of more than 4300 digits, which no file name
    reaches). *)
Definition int_of_str (s : string) : option Z :=
  let (neg, body) := split_sign (num_strip s) in
  n ← digit_run AtStart 0 body; Some (if neg then - n else n).

(** The value of the decimal [d * 10^e] as a double, correctly rounded. *)
Definition float_of_decimal (neg : bool) (d : Z) (e : Z) : spec_float :=
  match d with
  | Zpos p =>
      if 0 <=? e then to_float (Zpos p * 10 ^ e)
      else fdiv (S754_finite false p 0) (S754_finite false (Z.to_pos (10 ^ (- e))) 0)
  | _ => fzero
  end.

Definition apply_sign (neg : bool) (f : spec_float) : spec_float :=
  if neg then SFopp f else f.

(** In a float literal every underscore stands between two digits. *)
Fixpoint underscores_ok (prev_digit : bool) (s : string) : bool :=
  match s with
  | EmptyString => true
  | String c s' =>
      if Ascii.eqb c "_" then
        prev_digit
        && match s' with String d _ => is_digit d | EmptyString => false end
        && underscores_ok false s'
      else underscores_ok (is_digit c) s'
  end.

Fixpoint remove_underscores (s : string) : string :=
  match s with
  | EmptyString => EmptyString
  | String c s' =>
      if Ascii.eqb c "_" then remove_underscores s'
      else String c (remove_underscores s')
  end.

(** Reads a run of digits: the value read onto [acc], the number of digits
    added to [n], and the rest of the text. *)
Fixpoint read_digits (acc n : Z) (s : string) : Z * Z * string :=
  match s with
  | EmptyString => (acc, n, s)
  | String c s' =>
      if is_digit c then read_digits (10 * acc + digit_val c) (n + 1) s'
      else (acc, n, s)
  end.

Definition read_exponent (s : string) : option Z :=
  match s with
  | EmptyString => Some 0
  | String c s' =>
      if Ascii.eqb (lower_char c) "e" then
        let (eneg, ebody) := split_sign s' in
        let '(ev, ne, rest) := read_digits 0 0 ebody in
        if (ne =? 0) || negb (String.eqb rest "") then None
        else Some (if eneg then - ev else ev)
      else None
  end.

(** [float(s)]; [None] stands for [ValueError]. *)
Definition float_of_str (s : string) : option spec_float :=
  let t := num_strip s in
  if negb (underscores_ok false t) then None else
  let (neg, body) := split_sign (remove_underscores t) in
  let low := str_lower body in
  if String.eqb low "inf" || String.eqb low "infinity"
  then Some (S754_infinity neg)
  else if String.eqb low "nan" then Some S754_nan
  else
    let '(ip, ni, r1) := read_digits 0 0 body in
    let '(m, nf, r2) :=
      match r1 with
      | String "." r => read_digits ip 0 r
      | _ => (ip, 0, r1)
      end in
    if ni + nf =? 0 then None
    else ex ← read_exponent r2;
         Some (apply_sign neg (float_of_decimal false m (ex - nf))).

End Py.

(** ** [xml.etree.ElementTree] elements *)

Module ET.
Import Py.
Local Set Warnings "-register-all".

(** An element: its tag, its attributes in document order, its text and
    its children in document order. *)
Inductive Element : Type :=
| Elem (tag : string) (attrib : list (string * string))
       (text : option string) (children : list Element).

Definition tag (e : Element) : string :=
  match e with Elem t _ _ _ => t end.
Definition attrib (e : Element) : list (string * string) :=
  match e with Elem _ a _ _ => a end.
Definition text (e : Element) : option string :=
  match e with Elem _ _ t _ => t end.
Definition children (e : Element) : list Element :=
  match e with Elem _ _ _ c => c end.

(** [attrib.get(key)] *)
Fixpoint get (a : list (string * string)) (key : string) : option string :=
  match a with
  | [] => None
  | (k, v) :: a' => if String.eqb k key then Some v else get a' key
  end.

(** The children of [e] that carry the tag [t]. *)
Definition children_tagged (t : string) (e : Element) : list Element :=
  filter (fun c => tag c = t) (children e).

(** [e.findall(path)] for a path of tags separated by slashes, the only
    kind of path the summariser uses: every step selects, from the elements
    reached so far, the children with the tag of the step. *)
Definition findall (e : Element) (path : string) : list Element :=
  fold_left (fun elems t => elems ≫= children_tagged t)
            (str_split "/" path) [e].

(** [e.find(path)]: the first element of [findall], or [None]. *)
Definition find (e : Element) (path : string) : option Element :=
  head (findall e path).

End ET.

(** ** The summariser *)

Import Py ET.

(** A float literal of the source text. *)
Definition float_lit (s : string) : spec_float :=
  default fzero (float_of_str s).

(** [POWER_MODEL], the weight of each chip state. *)
Definition POWER_MODEL : gmap string spec_float :=
  {[ "exec" := float_lit "1.0";
     "dataxfer" := float_lit "0.8";
     "overlap" := float_lit "1.1";
     "idle" := float_lit "0.3" ]}.

(** *** Helpers *)

(** [safe_int]: [int(text)], then [int(float(text))] when the first raises
    [ValueError], then [None] when the second raises [ValueError].  Another
    exception of the second attempt is not caught. *)
Definition safe_int (text : option string) : result (option Z) :=
  match text with
  | None => Ok None
  | Some text =>
      let text := str_strip text in
      if String.eqb text "" then Ok None
      else match int_of_str text with
           | Some n => Ok (Some n)
           | None =>
               match float_of_str text with
               | None => Ok None
               | Some f =>
                   match int_of_float f with
                   | Ok n => Ok (Some n)
                   | Raise ValueError => Ok None
                   | Raise e => Raise e
                   end
               end
           end
  end.

(** [safe_float]: [float(text)], or [None] when it raises [ValueError]; it
    raises nothing else. *)
Definition safe_float (text : option string) : option spec_float :=
  match text with
  | None => None
  | Some text =>
      let text := str_strip text in
      if String.eqb text "" then None else float_of_str text
  end.

Definition get_child_text (parent : Element) (tag : string) : option string :=
  match find parent tag with
  | Some elem => text elem
  | None => None
  end.

(** [x or 0] for an optional integer, [x or 0.0] for an optional float. *)
Definition or_zero (x : option Z) : Z := default 0 x.
Definition or_fzero (x : option spec_float) : spec_float :=
  match x with
  | Some f => if float_truthy f then f else fzero
  | None => fzero
  end.

(** [d.update(e)]: the entries of [e] win. *)
Definition update (d e : gmap string value) : gmap string value := e ∪ d.

(** *** Experiment name parser *)

(** [re.match(lit + r"(\d+)", s)]: the text of group 1 when [s] starts with
    [lit] followed by at least one digit. *)
Definition re_match_digits (lit s : string) : option string :=
  if str_startswith lit s then
    let g := take_digits (str_drop (str_len lit) s) in
    if String.eqb g "" then None else Some g
  else None.

(** The recurring pair of statements
    [m = re.match(lit + r"(\d+)", tok)] and
    [if m: info[key] = safe_int(m.group(1))]. *)
Definition assign_matched_int (key lit tok : string)
    (info : gmap string value) : result (gmap string value) :=
  match re_match_digits lit tok with
  | Some g => n ← safe_int (Some g); Ok (<[key := of_opt_int n]> info)
  | None => Ok info
  end.

(** [parts[i]] where a test on [len(parts)] has put [i] in range. *)
Definition item (parts : list string) (i : nat) : string := parts !!! i.

(** The first statements of [parse_experiment_name]: the base name of the
    file, without a final [.xml] in any letter case. *)
Definition base_of (filename : string) : string :=
  let base := basename filename in
  if str_endswith ".xml" (str_lower base)
  then str_take (str_len base - 4) base else base.

(** The dictionary [info] as [parse_experiment_name] first binds it. *)
Definition blank_info (base : string) : gmap string value :=
  {[ "exp_name" := VStr base;
     "category" := VNone;
     "cache_size" := VNone;
     "channels" := VNone;
     "chips_per_channel" := VNone;
     "io_queue_depth" := VNone;
     "block_size" := VNone;
     "access_pattern" := VNone;
     "tpcc_variant" := VNone ]}.

Definition parse_experiment_name (filename : string)
    : result (gmap string value) :=
  let base := base_of filename in
  let parts := str_split "_" base in
  let info := blank_info base in
  if (length parts <? 2)%nat || negb (String.eqb (item parts 0) "wl")
  then Ok info
  else
    let kind := item parts 1 in
    if str_startswith "cache" kind then
      let info := <["category" := VStr "cache"]> info in
      let info := <["cache_size" := VStr (str_drop (str_len "cache") kind)]> info in
      if (4 <=? length parts)%nat then
        let info := <["block_size" := VStr (item parts 2)]> info in
        Ok (<["access_pattern" := VStr (item parts 3)]> info)
      else Ok info
    else if str_startswith "ch" kind then
      let info := <["category" := VStr "ch_chip"]> info in
      info ← assign_matched_int "channels" "ch" kind info;
      info ← (if (3 <=? length parts)%nat
                 && str_startswith "chip" (item parts 2)
              then assign_matched_int "chips_per_channel" "chip"
                     (item parts 2) info
              else Ok info);
      if (5 <=? length parts)%nat then
        let info := <["block_size" := VStr (item parts 3)]> info in
        Ok (<["access_pattern" := VStr (item parts 4)]> info)
      else Ok info
    else if str_startswith "ioqd" kind then
      let info := <["category" := VStr "ioqd"]> info in
      info ← assign_matched_int "io_queue_depth" "ioqd" kind info;
      if (4 <=? length parts)%nat then
        let info := <["block_size" := VStr (item parts 2)]> info in
        Ok (<["access_pattern" := VStr (item parts 3)]> info)
      else Ok info
    else if String.eqb kind "tpcc" then
      let info := <["category" := VStr "tpcc"]> info in
      let info := <["access_pattern" := VStr "tpcc"]> info in
      if (3 <=? length parts)%nat then
        let sub := item parts 2 in
        if str_startswith "cache" sub then
          let info := <["tpcc_variant" := VStr "cache"]> info in
          Ok (<["cache_size" := VStr (str_drop (str_len "cache") sub)]> info)
        else if str_startswith "ch" sub then
          let info := <["tpcc_variant" := VStr "ch_chip"]> info in
          info ← assign_matched_int "channels" "ch" sub info;
          if (4 <=? length parts)%nat
             && str_startswith "chip" (item parts 3)
          then assign_matched_int "chips_per_channel" "chip"
                 (item parts 3) info
          else Ok info
        else if str_startswith "ioqd" sub then
          let info := <["tpcc_variant" := VStr "ioqd"]> info in
          assign_matched_int "io_queue_depth" "ioqd" sub info
        else Ok info
      else Ok info
    else Ok info.

(** *** Extractors, one per section of the document *)

(** A [for] loop whose body can raise: the first exception ends it. *)
Fixpoint for_each {A S : Type} (body : S -> A -> result S) (l : list A)
    (s : S) : result S :=
  match l with
  | [] => Ok s
  | x :: l' => s' ← body s x; for_each body l' s'
  end.

(** [if x is not None: out[key] = x / d] *)
Definition assign_scaled (key : string) (x : option spec_float)
    (d : spec_float) (out : gmap string value) : result (gmap string value) :=
  match x with
  | Some f => q ← truediv f d; Ok (<[key := VFloat q]> out)
  | None => Ok out
  end.

Definition parse_host_metrics (root : Element) : result (gmap string value) :=
  let out : gmap string value := ∅ in
  match find root "Host/Host.IO_Flow" with
  | None => Ok out
  | Some host =>
      v ← safe_int (get_child_text host "Request_Count");
      let out := <["host_Request_Count" := of_opt_int v]> out in
      v ← safe_int (get_child_text host "Read_Request_Count");
      let out := <["host_Read_Request_Count" := of_opt_int v]> out in
      v ← safe_int (get_child_text host "Write_Request_Count");
      let out := <["host_Write_Request_Count" := of_opt_int v]> out in
      let out := <["host_IOPS" :=
        of_opt_float (safe_float (get_child_text host "IOPS"))]> out in
      let out := <["host_Read_IOPS" :=
        of_opt_float (safe_float (get_child_text host "Read_IOPS"))]> out in
      let out := <["host_Write_IOPS" :=
        of_opt_float (safe_float (get_child_text host "Write_IOPS"))]> out in
      let bw_total := safe_float (get_child_text host "Bandwidth") in
      let bw_read := safe_float (get_child_text host "Read_Bandwidth") in
      let bw_write := safe_float (get_child_text host "Write_Bandwidth") in
      let out := <["host_BW_Bytes_per_s" := of_opt_float bw_total]> out in
      let out := <["host_Read_BW_Bytes_per_s" := of_opt_float bw_read]> out in
      let out := <["host_Write_BW_Bytes_per_s" := of_opt_float bw_write]> out in
      let mib := fmul (float_lit "1024.0") (float_lit "1024.0") in
      out ← assign_scaled "host_BW_MiB_per_s" bw_total mib out;
      out ← assign_scaled "host_Read_BW_MiB_per_s" bw_read mib out;
      out ← assign_scaled "host_Write_BW_MiB_per_s" bw_write mib out;
      let dev_resp := safe_float (get_child_text host "Device_Response_Time") in
      let e2e_delay :=
        safe_float (get_child_text host "End_to_End_Request_Delay") in
      let out := <["host_Device_Response_Time" := of_opt_float dev_resp]> out in
      let out :=
        <["host_End_to_End_Request_Delay" := of_opt_float e2e_delay]> out in
      assign_scaled "host_E2E_Latency_ms_assuming_us" e2e_delay
        (float_lit "1000.0") out
  end.

(** The six running totals of the flash command counts. *)
Record ftl_totals : Set := mk_ftl_totals {
  total_read : Z;
  total_prog : Z;
  total_erase : Z;
  mapping_read : Z;
  mapping_prog : Z;
  mapping_erase : Z
}.

(** [if cond: total += cnt] *)
Definition add_if (cond : bool) (total cnt : Z) : Z :=
  if cond then total + cnt else total.

(** The body of the loop over [ftl.attrib.items()]. *)
Definition ftl_count (t : ftl_totals) (item : string * string)
    : result ftl_totals :=
  let (name, val) := item in
  cnt ← safe_int (Some val);
  match cnt with
  | None => Ok t
  | Some cnt =>
      let ordinary := negb (str_contains "For_Mapping" name) in
      Ok {| total_read :=
              add_if (str_contains "Read_CMD" name && ordinary)
                     (total_read t) cnt;
            total_prog :=
              add_if (str_contains "Program_CMD" name && ordinary)
                     (total_prog t) cnt;
            total_erase :=
              add_if (str_contains "Erase_CMD" name && ordinary)
                     (total_erase t) cnt;
            mapping_read :=
              add_if (str_contains "Read_CMD_For_Mapping" name)
                     (mapping_read t) cnt;
            mapping_prog :=
              add_if (str_contains "Program_CMD_For_Mapping" name)
                     (mapping_prog t) cnt;
            mapping_erase :=
              add_if (str_contains "Erase_CMD_For_Mapping" name)
                     (mapping_erase t) cnt |}
  end.

(** The local function [ratio] of [parse_ftl_metrics]. *)
Definition ratio (num den : option Z) : result (option spec_float) :=
  match num, den with
  | Some n, Some d =>
      if d =? 0 then Ok None
      else a ← float_of_int n; b ← float_of_int d;
           q ← truediv a b; Ok (Some q)
  | _, _ => Ok None
  end.

Definition parse_ftl_metrics (root : Element) : result (gmap string value) :=
  let out : gmap string value := ∅ in
  match find root "SSDDevice/SSDDevice.FTL" with
  | None => Ok out
  | Some ftl =>
      t ← for_each ftl_count (attrib ftl) (mk_ftl_totals 0 0 0 0 0 0);
      let out := <["ftl_Total_Flash_Read_CMD" := VInt (total_read t)]> out in
      let out := <["ftl_Total_Flash_Program_CMD" := VInt (total_prog t)]> out in
      let out := <["ftl_Total_Flash_Erase_CMD" := VInt (total_erase t)]> out in
      let out := <["ftl_Mapping_Read_CMD" := VInt (mapping_read t)]> out in
      let out := <["ftl_Mapping_Program_CMD" := VInt (mapping_prog t)]> out in
      let out := <["ftl_Mapping_Erase_CMD" := VInt (mapping_erase t)]> out in
      total_queries ← safe_int (get (attrib ftl) "Total_CMT_Queries");
      hits ← safe_int (get (attrib ftl) "CMT_Hits");
      total_read_queries ←
        safe_int (get (attrib ftl) "Total_CMT_Read_Queries");
      read_hits ← safe_int (get (attrib ftl) "CMT_Read_Hits");
      total_write_queries ←
        safe_int (get (attrib ftl) "Total_CMT_Write_Queries");
      write_hits ← safe_int (get (attrib ftl) "CMT_Write_Hits");
      let out := <["ftl_Total_CMT_Queries" := of_opt_int total_queries]> out in
      let out := <["ftl_CMT_Hits" := of_opt_int hits]> out in
      let out :=
        <["ftl_Total_CMT_Read_Queries" := of_opt_int total_read_queries]> out in
      let out := <["ftl_CMT_Read_Hits" := of_opt_int read_hits]> out in
      let out :=
        <["ftl_Total_CMT_Write_Queries" := of_opt_int total_write_queries]> out in
      let out := <["ftl_CMT_Write_Hits" := of_opt_int write_hits]> out in
      r ← ratio hits total_queries;
      let out := <["ftl_CMT_Hit_Rate" := of_opt_float r]> out in
      r ← ratio read_hits total_read_queries;
      let out := <["ftl_CMT_Read_Hit_Rate" := of_opt_float r]> out in
      r ← ratio write_hits total_write_queries;
      let out := <["ftl_CMT_Write_Hit_Rate" := of_opt_float r]> out in
      v ← safe_int (get (attrib ftl) "Total_GC_Executions");
      let out := <["ftl_Total_GC_Executions" := of_opt_int v]> out in
      Ok (<["ftl_Average_Page_Movement_For_GC" :=
             of_opt_float
               (safe_float (get (attrib ftl) "Average_Page_Movement_For_GC"))]>
            out)
  end.

Definition prefixes : list string := ["User"; "GC"; "Mapping"].

(** The accumulators kept for one class of queues, [stats[prefix]]. *)
Record tsu_stats : Set := mk_tsu_stats {
  enq : spec_float;
  deq : spec_float;
  wait_time_sum : spec_float;
  queue_len_sum : spec_float;
  queue_entries : spec_float
}.

Definition tsu_stats_init : gmap string tsu_stats :=
  fold_left
    (fun stats prefix =>
       <[prefix := mk_tsu_stats fzero fzero fzero fzero fzero]> stats)
    prefixes ∅.

(** The class a queue name is filed under. *)
Definition tsu_prefix (name : string) : string :=
  if str_contains "_" name then str_before "_" name else name.

(** The body of the loop over the queues of the TSU element. *)
Definition tsu_accumulate (stats : gmap string tsu_stats) (q : Element)
    : result (gmap string tsu_stats) :=
  let name := default "" (get (attrib q) "Name") in
  let prefix := tsu_prefix name in
  if negb (bool_decide (prefix ∈ prefixes)) then Ok stats
  else
    q_enq ← safe_int (get (attrib q) "No_Of_Transactions_Enqueued");
    let q_enq := or_zero q_enq in
    q_deq ← safe_int (get (attrib q) "No_Of_Transactions_Dequeued");
    let q_deq := or_zero q_deq in
    let avg_wait :=
      or_fzero (safe_float (get (attrib q) "Avg_Transaction_Waiting_Time")) in
    let avg_q_len :=
      or_fzero (safe_float (get (attrib q) "Avg_Queue_Length")) in
    match stats !! prefix with
    | None => Raise KeyError
    | Some s =>
        e ← fadd_int (enq s) q_enq;
        d ← fadd_int (deq s) q_deq;
        w ← fmul_int avg_wait q_enq;
        Ok (<[prefix :=
               {| enq := e;
                  deq := d;
                  wait_time_sum := fadd (wait_time_sum s) w;
                  queue_len_sum := fadd (queue_len_sum s) avg_q_len;
                  queue_entries :=
                    fadd (queue_entries s) (float_lit "1.0") |}]> stats)
    end.

(** [x if x > 0 else None] *)
Definition positive_or_none (x : spec_float) : value :=
  if float_gt0 x then VFloat x else VNone.

(** [if d > 0: out[key] = x / d] and [else: out[key] = None] *)
Definition assign_average (key : string) (x d : spec_float)
    (out : gmap string value) : result (gmap string value) :=
  if float_gt0 d then q ← truediv x d; Ok (<[key := VFloat q]> out)
  else Ok (<[key := VNone]> out).

(** The body of the loop that turns the accumulators into averages. *)
Definition tsu_report (stats : gmap string tsu_stats)
    (out : gmap string value) (prefix : string) : result (gmap string value) :=
  match stats !! prefix with
  | None => Raise KeyError
  | Some s =>
      let enq_or := or_fzero (Some (enq s)) in
      let entries := or_fzero (Some (queue_entries s)) in
      let out := <["tsu_" +:+ prefix +:+ "_Transactions_Enqueued" :=
                     positive_or_none (enq s)]> out in
      let out := <["tsu_" +:+ prefix +:+ "_Transactions_Dequeued" :=
                     positive_or_none (deq s)]> out in
      out ← assign_average ("tsu_" +:+ prefix +:+ "_Avg_Waiting_Time")
              (wait_time_sum s) enq_or out;
      assign_average ("tsu_" +:+ prefix +:+ "_Avg_Queue_Length")
        (queue_len_sum s) entries out
  end.

Definition parse_tsu_metrics (root : Element) : result (gmap string value) :=
  let out : gmap string value := ∅ in
  match find root "SSDDevice/SSDDevice.TSU" with
  | None => Ok out
  | Some tsu =>
      stats ← for_each tsu_accumulate (children tsu) tsu_stats_init;
      for_each (tsu_report stats) prefixes out
  end.

(** [safe_float(ch.attrib.get(key, "0")) or 0.0] *)
Definition fraction (ch : Element) (key : string) : spec_float :=
  or_fzero (safe_float (Some (default "0" (get (attrib ch) key)))).

(** [sum] over floats, as a plain running sum from the integer zero (the
    interpreters from 3.12 on compensate the rounding of the running sum;
    only the four [chip_Avg_Fraction_] fields go through [sum]). *)
Definition py_sum (l : list spec_float) : spec_float :=
  fold_left fadd l fzero.

(** [POWER_MODEL[state]] for one of the four states of the table. *)
Definition weight (state : string) : spec_float :=
  default fzero (POWER_MODEL !! state).

(** The power index of one chip. *)
Definition power_index (ch : Element) : spec_float :=
  let f_exec := fraction ch "Fraction_of_Time_in_Execution" in
  let f_data := fraction ch "Fraction_of_Time_in_DataXfer" in
  let f_overlap := fraction ch "Fraction_of_Time_in_DataXfer_and_Execution" in
  let f_idle := fraction ch "Fraction_of_Time_Idle" in
  fadd (fadd (fadd (fmul f_exec (weight "exec"))
                   (fmul f_data (weight "dataxfer")))
             (fmul f_overlap (weight "overlap")))
       (fmul f_idle (weight "idle")).

(** The loop [total_power_index += power_index] over the chips. *)
Definition total_power_index (chips : list Element) : spec_float :=
  fold_left (fun total ch => fadd total (power_index ch)) chips fzero.

Definition parse_chip_metrics_and_energy (root : Element)
    (host_reqs : option Z) : result (gmap string value) :=
  let out : gmap string value := ∅ in
  let chips := findall root "SSDDevice/SSDDevice.FlashChips" in
  match chips with
  | [] => Ok out
  | _ :: _ =>
      n ← float_of_int (Z.of_nat (length chips));
      let sum_of key := py_sum (map (fun ch => fraction ch key) chips) in
      let sum_exec := sum_of "Fraction_of_Time_in_Execution" in
      let sum_data := sum_of "Fraction_of_Time_in_DataXfer" in
      let sum_overlap := sum_of "Fraction_of_Time_in_DataXfer_and_Execution" in
      let sum_idle := sum_of "Fraction_of_Time_Idle" in
      q ← truediv sum_exec n;
      let out := <["chip_Avg_Fraction_Exec" := VFloat q]> out in
      q ← truediv sum_data n;
      let out := <["chip_Avg_Fraction_DataXfer" := VFloat q]> out in
      q ← truediv sum_overlap n;
      let out := <["chip_Avg_Fraction_Overlap" := VFloat q]> out in
      q ← truediv sum_idle n;
      let out := <["chip_Avg_Fraction_Idle" := VFloat q]> out in
      let total := total_power_index chips in
      let out := <["energy_Total_Chip_Power_Index" := VFloat total]> out in
      match host_reqs with
      | Some h =>
          if negb (h =? 0) && (0 <? h) then
            d ← float_of_int h;
            q ← truediv total d;
            Ok (<["energy_Energy_per_IO_Index" := VFloat q]> out)
          else Ok (<["energy_Energy_per_IO_Index" := VNone]> out)
      | None => Ok (<["energy_Energy_per_IO_Index" := VNone]> out)
      end
  end.

(** *** Main aggregation *)

(** What [ET.parse(path).getroot()] does for a path: it returns the root of
    the document, or raises an exception [e]; [message] is [str(e)]. *)
Variant parse_outcome : Type :=
| Parsed (root : Element)
| ParseFailed (message : string).

(** [host.get("host_Request_Count", None)], which [parse_host_metrics] sets
    to an integer or to [None]. *)
Definition host_request_count (host : gmap string value) : option Z :=
  match host !! "host_Request_Count" with
  | Some (VInt n) => Some n
  | _ => None
  end.

Definition summarize_file (ET_parse : string -> parse_outcome) (path : string)
    : result (gmap string value) :=
  let row : gmap string value := ∅ in
  ident ← parse_experiment_name path;
  let row := update row ident in
  match ET_parse path with
  | ParseFailed message => Ok (<["parse_error" := VStr message]> row)
  | Parsed root =>
      host ← parse_host_metrics root;
      let row := update row host in
      let host_req_cnt := host_request_count host in
      ftl ← parse_ftl_metrics root;
      let row := update row ftl in
      tsu ← parse_tsu_metrics root;
      let row := update row tsu in
      chip ← parse_chip_metrics_and_energy root host_req_cnt;
      Ok (update row chip)
  end.

(** [rows = [summarize_file(p) for p in xml_files]] of [main]. *)
Definition summarize_all (ET_parse : string -> parse_outcome)
    (xml_files : list string) : result (list (gmap string value)) :=
  mapM (summarize_file ET_parse) xml_files.

(** ** The batch driver *)

(** The order of [str]: code point by code point, a proper prefix first. *)
Definition str_le (s t : string) : Prop := String.leb s t = true.

#[local] Instance str_le_dec : RelDecision str_le.
Proof. intros s t. unfold str_le. apply _. Defined.

(** [sorted(l)] for a list of [str], which is also what [l.sort()] leaves
    in [l]. *)
Definition sorted (l : list string) : list string := merge_sort str_le l.

(** [os.path.join(a, b)] of [posixpath]. *)
Definition path_join (a b : string) : string :=
  if str_startswith "/" b then b
  else if String.eqb a "" || str_endswith "/" a then a +:+ b
  else a +:+ "/" +:+ b.

(** The test of [main] on a name of the directory:
    [f.lower().endswith(".xml") and f.startswith("wl_")]. *)
Definition is_result_file (f : string) : bool :=
  str_endswith ".xml" (str_lower f) && str_startswith "wl_" f.

(** [xml_files] of [main] once sorted, from the names that
    [os.listdir(input_dir)] returns. *)
Definition xml_files (input_dir : string) (listing : list string)
    : list string :=
  sorted (map (path_join input_dir)
              (filter (fun f => is_result_file f = true) listing)).

(** [all_keys] of [main]: the union of the keys of the rows. *)
Definition all_keys (rows : list (gmap string value)) : gset string :=
  fold_left (fun keys r => keys ∪ dom r) rows ∅.

(** [csv.DictWriter._dict_to_list] with the default [extrasaction="raise"]
    and [restval=""]: [ValueError] when the row has a key that is no field
    name, and otherwise the cells of the row, one per field name. *)
Definition dict_to_list (fieldnames : list string)
    (rowdict : gmap string value) : result (list value) :=
  if bool_decide (dom rowdict ⊆ list_to_set fieldnames)
  then Ok (map (fun key => default (VStr "") (rowdict !! key)) fieldnames)
  else Raise ValueError.

(** How a run of [main] ends: with [SystemExit] when no file is found, with
    an exception that nothing catches, or with the table handed to the CSV
    writer, the header and the cells of each row.  The text of the exit
    message, the rendering of the cells as text and the opening of the
    output file are not modelled. *)
Variant main_outcome : Type :=
| SystemExit
| Uncaught (e : exn)
| Wrote (header : list string) (lines : list (list value)).

(** [main], for a directory [input_dir] in which [os.listdir] finds the
    names [listing]. *)
Definition main (ET_parse : string -> parse_outcome) (input_dir : string)
    (listing : list string) : main_outcome :=
  let xml_files := xml_files input_dir listing in
  if bool_decide (xml_files = []) then SystemExit
  else
    match summarize_all ET_parse xml_files with
    | Raise e => Uncaught e
    | Ok rows =>
        let header := sorted (elements (all_keys rows)) in
        match mapM (dict_to_list header) rows with
        | Raise e => Uncaught e
        | Ok lines => Wrote header lines
        end
    end.

(** ** Vocabulary of the statements *)

(** A text made of decimal digits only, and the number it denotes. *)
Fixpoint all_digits (s : string) : bool :=
  match s with
  | EmptyString => true
  | String c s' => is_digit c && all_digits s'
  end.

Fixpoint decimal (acc : Z) (s : string) : Z :=
  match s with
  | EmptyString => acc
  | String c s' => decimal (10 * acc + digit_val c) s'
  end.

(** The text does not go on with a digit. *)
Definition no_leading_digit (s : string) : bool :=
  match s with
  | EmptyString => true
  | String c _ => negb (is_digit c)
  end.

(** The tokens of a file name. *)
Definition tokens (filename : string) : list string :=
  str_split "_" (base_of filename).

(** The nine keys of the identity part of a record. *)
Definition identity_keys : gset string :=
  {[ "exp_name"; "category"; "cache_size"; "channels"; "chips_per_channel";
     "io_queue_depth"; "block_size"; "access_pattern"; "tpcc_variant" ]}.

(** A key of one of the five groups of metrics. *)
Definition metric_key (k : string) : bool :=
  str_startswith "host_" k || str_startswith "ftl_" k
  || str_startswith "tsu_" k || str_startswith "chip_" k
  || str_startswith "energy_" k.

(** The file name is outside the grammar: there is no second token, or the
    first token is not [wl], or the second token starts with none of
    [cache], [ch], [ioqd] and is not [tpcc]. *)
Definition unrecognised (parts : list string) : Prop :=
  (length parts < 2)%nat
  \/ parts !! 0%nat <> Some "wl"
  \/ exists kind, parts !! 1%nat = Some kind
       /\ str_startswith "cache" kind = false
       /\ str_startswith "ch" kind = false
       /\ str_startswith "ioqd" kind = false
       /\ kind <> "tpcc".

(** The field [k] of the record is there and holds [None]. *)
Definition is_null (info : gmap string value) (k : string) : Prop :=
  info !! k = Some VNone.

(** [r] is a normal return, with a value that satisfies [post]. *)
Definition ensures {A : Type} (r : result A) (post : A -> Prop) : Prop :=
  match r with
  | Ok a => post a
  | Raise _ => False
  end.

(** The field [k] of the record holds something else than [None]. *)
Definition is_set (info : gmap string value) (k : string) : bool :=
  match info !! k with
  | Some VNone | None => false
  | Some _ => true
  end.

(** The three axis groups of an identity record. *)
Definition cache_group (info : gmap string value) : bool :=
  is_set info "cache_size".
Definition channel_group (info : gmap string value) : bool :=
  is_set info "channels" || is_set info "chips_per_channel".
Definition queue_group (info : gmap string value) : bool :=
  is_set info "io_queue_depth".

Definition groups_populated (info : gmap string value) : nat :=
  Nat.b2n (cache_group info) + Nat.b2n (channel_group info)
  + Nat.b2n (queue_group info).

(** What selects the axis group: the category, or the tpcc variant when the
    category is [tpcc]. *)
Definition axis_selector (info : gmap string value) : option value :=
  match info !! "category" with
  | Some (VStr "tpcc") => info !! "tpcc_variant"
  | c => c
  end.

(** *** Vocabulary of the extractors *)

(** The only ways the extractors raise: a numeral that [safe_int] turns
    into an infinite float, or an integer too large for a double. *)
Definition too_large (n : Z) : Prop := float_of_int n = Raise OverflowError.

Definition out_of_range_text (val : string) : Prop :=
  safe_int (Some val) = Raise OverflowError
  \/ exists n, safe_int (Some val) = Ok (Some n) /\ too_large n.

Definition out_of_range (attrs : list (string * string)) : Prop :=
  exists name val, (name, val) ∈ attrs /\ out_of_range_text val.

(** The count an attribute value stands for in the loop over the attributes
    of the FTL element: what [safe_int] reads, zero when it reads nothing. *)
Definition count_of (val : string) : Z :=
  match safe_int (Some val) with
  | Ok (Some n) => n
  | _ => 0
  end.

(** What one attribute adds to a running total that selects names by [sel],
    and the sum over all attributes. *)
Definition contribution (sel : string -> bool) (item : string * string) : Z :=
  if sel (fst item) then count_of (snd item) else 0.

Definition attr_sum (sel : string -> bool) (attrs : list (string * string))
    : Z :=
  foldr (fun item acc => contribution sel item + acc) 0 attrs.

(** The names a total of ordinary commands selects, and the names a total of
    mapping commands selects, for [key] one of the three [commands]. *)
Definition ordinary_cmd (key name : string) : bool :=
  str_contains key name && negb (str_contains "For_Mapping" name).
Definition mapping_cmd (key name : string) : bool :=
  str_contains (key +:+ "_For_Mapping") name.

Definition commands : list string := ["Read_CMD"; "Program_CMD"; "Erase_CMD"].

(** Hits divided by queries, when both are there and queries is not zero. *)
Definition hit_rate (hits queries : option Z) : value :=
  match hits, queries with
  | Some h, Some q =>
      if q =? 0 then VNone else VFloat (fdiv (to_float h) (to_float q))
  | _, _ => VNone
  end.

(** The three scopes of the mapping cache: the attribute of the hits, the
    attribute of the queries, the key of the hit rate. *)
Definition cmt_scopes : list (string * string * string) :=
  [ ("CMT_Hits", "Total_CMT_Queries", "ftl_CMT_Hit_Rate");
    ("CMT_Read_Hits", "Total_CMT_Read_Queries", "ftl_CMT_Read_Hit_Rate");
    ("CMT_Write_Hits", "Total_CMT_Write_Queries", "ftl_CMT_Write_Hit_Rate") ].

(** The class of a queue, and its attributes as the loop reads them. *)
Definition queue_class (q : Element) : string :=
  tsu_prefix (default "" (get (attrib q) "Name")).

Definition int_attr (q : Element) (key : string) : Z :=
  match safe_int (get (attrib q) key) with
  | Ok v => or_zero v
  | Raise _ => 0
  end.

Definition float_attr (q : Element) (key : string) : spec_float :=
  or_fzero (safe_float (get (attrib q) key)).

(** What a queue adds to the accumulators of its class. *)
Definition add_queue (s : tsu_stats) (q : Element) : tsu_stats :=
  let n := to_float (int_attr q "No_Of_Transactions_Enqueued") in
  {| enq := fadd (enq s) n;
     deq := fadd (deq s) (to_float (int_attr q "No_Of_Transactions_Dequeued"));
     wait_time_sum :=
       fadd (wait_time_sum s)
            (fmul (float_attr q "Avg_Transaction_Waiting_Time") n);
     queue_len_sum := fadd (queue_len_sum s) (float_attr q "Avg_Queue_Length");
     queue_entries := fadd (queue_entries s) (float_lit "1.0") |}.

(** The queues of a class, in document order. *)
Definition class_queues (c : string) (qs : list Element) : list Element :=
  filter (fun q => queue_class q = c) qs.

(** The sum of the enqueued counts of a class, and the sum of its average
    waiting times, each multiplied by the enqueued count of its queue. *)
Definition enqueued_sum (c : string) (qs : list Element) : spec_float :=
  fold_left
    (fun acc q => fadd acc (to_float (int_attr q "No_Of_Transactions_Enqueued")))
    (class_queues c qs) fzero.

Definition waiting_sum (c : string) (qs : list Element) : spec_float :=
  fold_left
    (fun acc q =>
       fadd acc (fmul (float_attr q "Avg_Transaction_Waiting_Time")
                      (to_float (int_attr q "No_Of_Transactions_Enqueued"))))
    (class_queues c qs) fzero.

(** The enqueue-weighted average waiting time of a class. *)
Definition weighted_waiting_time (c : string) (qs : list Element) : value :=
  if float_gt0 (enqueued_sum c qs)
  then VFloat (fdiv (waiting_sum c qs) (enqueued_sum c qs))
  else VNone.

(** All three classes have their accumulators. *)
Definition all_classes (stats : gmap string tsu_stats) : Prop :=
  forall c, c ∈ prefixes -> is_Some (stats !! c).

(** The power index of a chip with the weights written out, and its sum
    over the chips in document order. *)
Definition weighted_power (ch : Element) : spec_float :=
  fadd (fadd (fadd (fmul (fraction ch "Fraction_of_Time_in_Execution")
                         (float_lit "1.0"))
                   (fmul (fraction ch "Fraction_of_Time_in_DataXfer")
                         (float_lit "0.8")))
             (fmul (fraction ch "Fraction_of_Time_in_DataXfer_and_Execution")
                   (float_lit "1.1")))
       (fmul (fraction ch "Fraction_of_Time_Idle") (float_lit "0.3")).

Definition power_sum (chips : list Element) : spec_float :=
  fold_left (fun total ch => fadd total (weighted_power ch)) chips fzero.

(** The total power index divided by the request count, when the count is
    there and positive. *)
Definition energy_per_io (total : spec_float) (host_reqs : option Z) : value :=
  match host_reqs with
  | Some h => if 0 <? h then VFloat (fdiv total (to_float h)) else VNone
  | None => VNone
  end.

(** *** Documents used as examples *)

Definition queue (name enqueued dequeued wait len : string) : Element :=
  Elem "Queue"
       [("Name", name);
        ("No_Of_Transactions_Enqueued", enqueued);
        ("No_Of_Transactions_Dequeued", dequeued);
        ("Avg_Transaction_Waiting_Time", wait);
        ("Avg_Queue_Length", len)]
       None [].

(** A result document with the given FTL attributes, queues and chips. *)
Definition document (ftl : list (string * string)) (queues : list Element)
    (chips : list (list (string * string))) : Element :=
  Elem "Results" [] None
       [Elem "Host" [] None
             [Elem "Host.IO_Flow" [] None
                   [Elem "Request_Count" [] (Some "100") []]];
        Elem "SSDDevice" [] None
             (Elem "SSDDevice.FTL" ftl None []
              :: Elem "SSDDevice.TSU" [] None queues
              :: map (fun a => Elem "SSDDevice.FlashChips" a None []) chips)].

(** *** Vocabulary of the further properties *)

(** A text of white space only. *)
Fixpoint all_space (s : string) : bool :=
  match s with
  | EmptyString => true
  | String c s' => is_space c && all_space s'
  end.

(** The integer a token carries after its prefix: the number its leading
    digits denote, or [None] when it goes on without a digit. *)
Definition leading_int (rest : string) : value :=
  if String.eqb (take_digits rest) "" then VNone
  else VInt (decimal 0 (take_digits rest)).

(** A field that holds a count: [None], or an integer that is not
    negative. *)
Definition count_field (v : option value) : Prop :=
  v = Some VNone \/ exists n, 0 <= n /\ v = Some (VInt n).

(** [out] with [key] set to [v] when there is a [v]: the effect of
    [if x is not None: out[key] = ...]. *)
Definition assign_opt (key : string) (v : option value)
    (out : gmap string value) : gmap string value :=
  match v with
  | Some v => <[key := v]> out
  | None => out
  end.

(** The fields of the host section read as counts, and those read as
    floats: the key of the record and the tag of the child element. *)
Definition host_counts : list (string * string) :=
  [ ("host_Request_Count", "Request_Count");
    ("host_Read_Request_Count", "Read_Request_Count");
    ("host_Write_Request_Count", "Write_Request_Count") ].

Definition host_floats : list (string * string) :=
  [ ("host_IOPS", "IOPS");
    ("host_Read_IOPS", "Read_IOPS");
    ("host_Write_IOPS", "Write_IOPS");
    ("host_BW_Bytes_per_s", "Bandwidth");
    ("host_Read_BW_Bytes_per_s", "Read_Bandwidth");
    ("host_Write_BW_Bytes_per_s", "Write_Bandwidth");
    ("host_Device_Response_Time", "Device_Response_Time");
    ("host_End_to_End_Request_Delay", "End_to_End_Request_Delay") ].

(** The derived fields of the host section: the key, the tag of the child
    element the value comes from, and the divisor. *)
Definition host_scaled : list (string * string * string) :=
  [ ("host_BW_MiB_per_s", "Bandwidth", "1048576.0");
    ("host_Read_BW_MiB_per_s", "Read_Bandwidth", "1048576.0");
    ("host_Write_BW_MiB_per_s", "Write_Bandwidth", "1048576.0");
    ("host_E2E_Latency_ms_assuming_us", "End_to_End_Request_Delay",
     "1000.0") ].

Definition host_keys : gset string :=
  list_to_set (host_counts.*1 ++ host_floats.*1 ++ host_scaled.*1.*1).

(** The fields of the FTL section read as a count from one attribute: the
    key of the record and the name of the attribute. *)
Definition ftl_counts : list (string * string) :=
  [ ("ftl_Total_CMT_Queries", "Total_CMT_Queries");
    ("ftl_CMT_Hits", "CMT_Hits");
    ("ftl_Total_CMT_Read_Queries", "Total_CMT_Read_Queries");
    ("ftl_CMT_Read_Hits", "CMT_Read_Hits");
    ("ftl_Total_CMT_Write_Queries", "Total_CMT_Write_Queries");
    ("ftl_CMT_Write_Hits", "CMT_Write_Hits");
    ("ftl_Total_GC_Executions", "Total_GC_Executions") ].

Definition ftl_keys : gset string :=
  list_to_set
    ([ "ftl_Total_Flash_Read_CMD"; "ftl_Total_Flash_Program_CMD";
       "ftl_Total_Flash_Erase_CMD"; "ftl_Mapping_Read_CMD";
       "ftl_Mapping_Program_CMD"; "ftl_Mapping_Erase_CMD" ]
     ++ ftl_counts.*1
     ++ [ "ftl_CMT_Hit_Rate"; "ftl_CMT_Read_Hit_Rate"; "ftl_CMT_Write_Hit_Rate";
          "ftl_Average_Page_Movement_For_GC" ]).

(** The sum of the dequeued counts of a class, the sum of the average
    lengths of its queues, and the number of its queues, as the loop over
    the queues accumulates them. *)
Definition dequeued_sum (c : string) (qs : list Element) : spec_float :=
  fold_left
    (fun acc q => fadd acc (to_float (int_attr q "No_Of_Transactions_Dequeued")))
    (class_queues c qs) fzero.

Definition queue_length_sum (c : string) (qs : list Element) : spec_float :=
  fold_left (fun acc q => fadd acc (float_attr q "Avg_Queue_Length"))
            (class_queues c qs) fzero.

Definition queue_count (c : string) (qs : list Element) : spec_float :=
  fold_left (fun acc _ => fadd acc (float_lit "1.0")) (class_queues c qs) fzero.

(** The plain average of the queue lengths of a class that has a queue. *)
Definition average_queue_length (c : string) (qs : list Element) : value :=
  match class_queues c qs with
  | [] => VNone
  | _ :: _ => VFloat (fdiv (queue_length_sum c qs) (queue_count c qs))
  end.

(** The four keys of a class in the TSU part of a record, and the twelve
    keys of that part. *)
Definition class_keys (c : string) : list string :=
  [ "tsu_" +:+ c +:+ "_Transactions_Enqueued";
    "tsu_" +:+ c +:+ "_Transactions_Dequeued";
    "tsu_" +:+ c +:+ "_Avg_Waiting_Time";
    "tsu_" +:+ c +:+ "_Avg_Queue_Length" ].

Definition tsu_keys : gset string := list_to_set (prefixes ≫= class_keys).

(** The queues of the three classes. *)
Definition known_queues (qs : list Element) : list Element :=
  filter (fun q => queue_class q ∈ prefixes) qs.

Definition chip_floats : list string :=
  [ "chip_Avg_Fraction_Exec"; "chip_Avg_Fraction_DataXfer";
    "chip_Avg_Fraction_Overlap"; "chip_Avg_Fraction_Idle";
    "energy_Total_Chip_Power_Index" ].

Definition chip_keys : gset string :=
  list_to_set (chip_floats ++ ["energy_Energy_per_IO_Index"]).

(** A float above zero: a positive finite number of the format, or plus
    infinity. *)
Definition is_positive (f : spec_float) : bool :=
  match f with
  | S754_finite false _ e => -1074 <=? e
  | S754_infinity false => true
  | _ => false
  end.

(** A document with a host section of the given children, and nothing
    else. *)
Definition host_document (fields : list (string * string)) : Element :=
  Elem "Results" [] None
       [Elem "Host" [] None
             [Elem "Host.IO_Flow" [] None
                   (map (fun f => Elem (fst f) [] (Some (snd f)) []) fields)]].

(** ** Lemmas on the builtins *)


Lemma bind_Ok {A B} (m : result A) (f : A -> result B) (b : B) :
  m ≫= f = Ok b -> exists a, m = Ok a /\ f a = Ok b.
Proof. destruct m as [a|e]; simpl; [eauto | discriminate]. Qed.

Lemma ensures_Ok {A} (r : result A) (post : A -> Prop) :
  ensures r post <-> exists a, r = Ok a /\ post a.
Proof.
  destruct r as [a|e]; simpl; split.
  - eauto.
  - by intros (a' & [= <-] & H).
  - done.
  - by intros (a' & ? & _).
Qed.

Lemma ensures_bind {A B} (a : A) (f : A -> result B) (post : B -> Prop) :
  ensures (f a) post -> ensures (Ok a ≫= f) post.
Proof. done. Qed.

Lemma bind_Ok_l {A B} (a : A) (f : A -> result B) : Ok a ≫= f = f a.
Proof. reflexivity. Qed.

Lemma digit_not_space c : is_digit c = true -> is_space c = false.
Proof. destruct c as [[] [] [] [] [] [] [] []]; vm_compute; congruence. Qed.

Lemma digit_not_sign c s :
  is_digit c = true -> split_sign (String c s) = (false, String c s).
Proof. destruct c as [[] [] [] [] [] [] [] []]; vm_compute; congruence. Qed.

Lemma str_rstrip_digits s : all_digits s = true -> str_rstrip s = s.
Proof.
  induction s as [|c s IH]; simpl; [done|].
  intros [Hc Hs]%andb_prop. rewrite (IH Hs).
  destruct s; [by rewrite (digit_not_space c Hc) | done].
Qed.

Lemma str_strip_digits s : all_digits s = true -> str_strip s = s.
Proof.
  intros H. unfold str_strip.
  destruct s as [|c s]; [done|]. simpl in *.
  apply andb_prop in H as [Hc Hs].
  rewrite (digit_not_space c Hc).
  apply str_rstrip_digits. simpl. by rewrite Hc, Hs.
Qed.

Lemma digit_run_digits s :
  all_digits s = true -> s <> EmptyString ->
  forall st acc, digit_run st acc s = Some (decimal acc s).
Proof.
  induction s as [|c s IH]; [done|]. simpl.
  intros [Hc Hs]%andb_prop _ st acc. rewrite Hc.
  destruct s as [|c' s']; [done|]. by apply IH.
Qed.

Lemma digit_not_num_space c : is_digit c = true -> is_num_space c = false.
Proof. destruct c as [[] [] [] [] [] [] [] []]; vm_compute; congruence. Qed.

Lemma num_rstrip_digits s : all_digits s = true -> num_rstrip s = s.
Proof.
  induction s as [|c s IH]; simpl; [done|].
  intros [Hc Hs]%andb_prop. rewrite (IH Hs).
  destruct s; [by rewrite (digit_not_num_space c Hc) | done].
Qed.

Lemma num_strip_digits s : all_digits s = true -> num_strip s = s.
Proof.
  intros H. unfold num_strip.
  destruct s as [|c s]; [done|]. simpl in *.
  apply andb_prop in H as [Hc Hs].
  rewrite (digit_not_num_space c Hc).
  apply num_rstrip_digits. simpl. by rewrite Hc, Hs.
Qed.

Lemma int_of_str_digits s :
  all_digits s = true -> s <> EmptyString ->
  int_of_str s = Some (decimal 0 s).
Proof.
  intros H Hne. unfold int_of_str. rewrite (num_strip_digits s H).
  destruct s as [|c s]; [done|].
  pose proof H as [Hc _]%andb_prop.
  rewrite (digit_not_sign c s Hc).
  by rewrite (digit_run_digits _ H Hne).
Qed.

(** On a run of digits [safe_int] returns the number, and does not raise. *)
Lemma safe_int_digits s :
  all_digits s = true -> s <> EmptyString ->
  safe_int (Some s) = Ok (Some (decimal 0 s)).
Proof.
  intros H Hne. unfold safe_int. rewrite (str_strip_digits s H).
  destruct (String.eqb_spec s ""); [done|].
  by rewrite (int_of_str_digits s H Hne).
Qed.

Lemma take_digits_all_digits s : all_digits (take_digits s) = true.
Proof.
  induction s as [|c s IH]; simpl; [done|].
  destruct (is_digit c) eqn:Hc; simpl; [by rewrite Hc|done].
Qed.

Lemma take_digits_app ds rest :
  all_digits ds = true -> no_leading_digit rest = true ->
  take_digits (ds +:+ rest) = ds.
Proof.
  intros Hds Hrest. induction ds as [|c ds IH].
  - destruct rest as [|c r]; [done|]. simpl in *.
    by destruct (is_digit c).
  - change (String c ds +:+ rest) with (String c (ds +:+ rest)). simpl in *.
    apply andb_prop in Hds as [Hc Hds]. rewrite Hc. f_equal. by apply IH.
Qed.

Lemma append_cons c s t : String c s +:+ t = String c (s +:+ t).
Proof. reflexivity. Qed.

Lemma str_startswith_app p t : str_startswith p (p +:+ t) = true.
Proof.
  unfold str_startswith. induction p as [|c p IH].
  - by destruct t.
  - rewrite append_cons. simpl. destruct (ascii_dec c c); [apply IH | done].
Qed.

Lemma str_drop_app p t : str_drop (str_len p) (p +:+ t) = t.
Proof. induction p as [|c p IH]; [done|]. rewrite append_cons. apply IH. Qed.

(** *** Conversion of integers to doubles *)

Lemma digits2_pos_lower p : 2 ^ (Zpos (digits2_pos p) - 1) <= Zpos p.
Proof.
  induction p as [p IH|p IH|]; simpl digits2_pos; [| |done].
  - rewrite Pos2Z.inj_succ.
    replace (Z.succ (Zpos (digits2_pos p)) - 1)
      with (Z.succ (Zpos (digits2_pos p) - 1)) by lia.
    rewrite Z.pow_succ_r by lia. lia.
  - rewrite Pos2Z.inj_succ.
    replace (Z.succ (Zpos (digits2_pos p)) - 1)
      with (Z.succ (Zpos (digits2_pos p) - 1)) by lia.
    rewrite Z.pow_succ_r by lia. lia.
Qed.

Lemma shr_m_shr_1 mrs : 0 <= shr_m mrs -> shr_m (shr_1 mrs) = shr_m mrs / 2.
Proof.
  destruct mrs as [m r s]. simpl. intros Hm. rewrite <- Z.div2_div.
  destruct m as [|p|p]; [done| |lia]. by destruct p.
Qed.

Lemma shr_m_iter p : forall mrs,
  0 <= shr_m mrs ->
  shr_m (SpecFloat.iter_pos shr_1 p mrs) = shr_m mrs / 2 ^ Zpos p.
Proof.
  induction p as [p IH|p IH|]; intros mrs Hm; simpl SpecFloat.iter_pos.
  - assert (H1 : 0 <= shr_m (shr_1 mrs)).
    { rewrite shr_m_shr_1 by done. apply Z.div_pos; lia. }
    assert (H2 : 0 <= shr_m (SpecFloat.iter_pos shr_1 p (shr_1 mrs))).
    { rewrite IH by done. apply Z.div_pos; lia. }
    rewrite (IH _ H2), (IH _ H1), shr_m_shr_1 by done.
    rewrite !Z.div_div by lia. f_equal.
    replace (Zpos p~1) with (Zpos p + Zpos p + 1) by lia.
    rewrite !Z.pow_add_r by lia. change (2 ^ 1) with 2. lia.
  - assert (H1 : 0 <= shr_m (SpecFloat.iter_pos shr_1 p mrs)).
    { rewrite IH by done. apply Z.div_pos; lia. }
    rewrite (IH _ H1), (IH _ Hm).
    rewrite Z.div_div by lia. f_equal.
    replace (Zpos p~0) with (Zpos p + Zpos p) by lia.
    by rewrite Z.pow_add_r by lia.
  - by rewrite shr_m_shr_1.
Qed.

Lemma fexp_bounds e : -1074 <= fexp prec emax e /\ (-1074 < e -> fexp prec emax e < e).
Proof. unfold fexp, SpecFloat.emin, prec, emax. lia. Qed.

(** Shifting a positive mantissa to its place leaves it positive, as long as
    the number is not below the subnormal range. *)
Lemma shr_fexp_positive m e l :
  0 < m -> -1074 < Zdigits2 m + e ->
  0 < shr_m (fst (shr_fexp prec emax m e l))
  /\ -1074 <= snd (shr_fexp prec emax m e l).
Proof.
  intros Hm Hd. unfold shr_fexp.
  destruct (fexp_bounds (Zdigits2 m + e)) as [Hlo Hhi]. specialize (Hhi Hd).
  assert (Hrec : shr_m (shr_record_of_loc m l) = m).
  { by destruct l as [|[]]. }
  unfold shr.
  destruct (fexp prec emax (Zdigits2 m + e) - e) as [|p|p] eqn:Hn; simpl.
  - rewrite Hrec. lia.
  - rewrite shr_m_iter by (rewrite Hrec; lia). rewrite Hrec. split; [|lia].
    destruct m as [|q|q]; [lia| |lia]. simpl in *.
    pose proof (digits2_pos_lower q) as Hq.
    apply Z.div_str_pos. split; [lia|].
    etrans; [|exact Hq]. apply Z.pow_le_mono_r; lia.
  - rewrite Hrec. lia.
Qed.

Lemma binary_round_aux_nonzero s m e l :
  0 < m -> -1074 < Zdigits2 m + e ->
  float_truthy (binary_round_aux prec emax s m e l) = true.
Proof.
  intros Hm Hd. unfold binary_round_aux.
  destruct (shr_fexp_positive m e l Hm Hd) as [H1 H1'].
  destruct (shr_fexp prec emax m e l) as [mrs' e']. simpl in H1, H1'.
  set (m2 := round_nearest_even (shr_m mrs') (loc_of_shr_record mrs')).
  assert (Hm2 : 0 < m2).
  { unfold m2, round_nearest_even.
    destruct (loc_of_shr_record mrs') as [|[]]; try lia.
    destruct (Z.even (shr_m mrs')); lia. }
  assert (Hd2 : -1074 < Zdigits2 m2 + e').
  { destruct m2 as [|q|q]; [lia| |lia]. simpl. lia. }
  destruct (shr_fexp_positive m2 e' loc_Exact Hm2 Hd2) as [H2 _].
  destruct (shr_fexp prec emax m2 e' loc_Exact) as [mrs'' e'']. simpl in H2.
  destruct (shr_m mrs'') as [|q|q]; [lia| |lia].
  by destruct (e'' <=? emax - prec).
Qed.

(** The double nearest to a non-zero integer is not a zero. *)
Lemma to_float_nonzero n : n <> 0 -> float_truthy (to_float n) = true.
Proof.
  intros Hn. unfold to_float, binary_normalize.
  assert (H : forall s p, float_truthy (binary_round prec emax s p 0) = true).
  { intros s p. unfold binary_round.
    destruct (shl_align p 0 (fexp prec emax (Zpos (digits2_pos p) + 0)))
      as [mz ez] eqn:Hal.
    apply binary_round_aux_nonzero; [lia|].
    unfold shl_align in Hal.
    destruct (fexp_bounds (Zpos (digits2_pos p) + 0)) as [Hlo _].
    destruct (fexp prec emax (Zpos (digits2_pos p) + 0) - 0) as [|d|d] eqn:Hd;
      injection Hal as <- <-; simpl; lia. }
  destruct n as [|p|p]; [done|apply H..].
Qed.

Lemma float_of_int_Ok n f : float_of_int n = Ok f -> f = to_float n.
Proof. unfold float_of_int. by destruct (to_float n); intros [= <-]. Qed.

Lemma truediv_truthy a b : float_truthy b = true -> truediv a b = Ok (fdiv a b).
Proof. by destruct b. Qed.

(** ** The experiment name parser *)


Lemma assign_matched_int_Ok key lit tok info :
  exists v : option Z,
    assign_matched_int key lit tok info
    = Ok (match v with Some n => <[key := VInt n]> info | None => info end).
Proof.
  unfold assign_matched_int, re_match_digits.
  destruct (str_startswith lit tok); [|by exists None].
  destruct (String.eqb_spec (take_digits (str_drop (str_len lit) tok)) "")
    as [|Hne]; [by exists None|].
  rewrite (safe_int_digits _ (take_digits_all_digits _) Hne). simpl.
  by eexists (Some _).
Qed.

(** C1. A file name outside the grammar yields, without raising, a
    record whose category is unset (the source spells the unknown
    category [None]) and whose cache size, channels, chips per channel,
    queue depth, block size, access pattern and tpcc variant are all
    [None]. *)
Theorem unrecognised_name_all_null (filename : string) :
  unrecognised (tokens filename) ->
  exists info,
    parse_experiment_name filename = Ok info
    /\ is_null info "category"
    /\ is_null info "cache_size"
    /\ is_null info "channels"
    /\ is_null info "chips_per_channel"
    /\ is_null info "io_queue_depth"
    /\ is_null info "block_size"
    /\ is_null info "access_pattern"
    /\ is_null info "tpcc_variant".
Proof.
  unfold tokens, parse_experiment_name, unrecognised, is_null.
  generalize (base_of filename) as base. intros base.
  destruct (str_split "_" base) as [|p0 [|kind rest]] eqn:Hparts; simpl.
  - intros _. eexists; split; [reflexivity|]. repeat split; reflexivity.
  - intros _. eexists; split; [reflexivity|]. repeat split; reflexivity.
  - intros [Hlen | [Hwl | (k & Hk & Hcache & Hch & Hioqd & Htpcc)]].
    + lia.
    + unfold item. simpl. destruct (String.eqb_spec p0 "wl") as [->|_];
        [done|]. simpl.
      eexists; split; [reflexivity|]. repeat split; reflexivity.
    + injection Hk as ->. unfold item. simpl.
      destruct (negb (p0 =? "wl")%string);
        [eexists; split; [reflexivity|]; repeat split; reflexivity|].
      rewrite Hcache, Hch, Hioqd.
      destruct (String.eqb_spec k "tpcc"); [done|].
      eexists; split; [reflexivity|]. repeat split; reflexivity.
Qed.

Lemma unrecognised_name_all_null_witness :
  unrecognised (tokens "random_file.xml")
  /\ exists info,
      parse_experiment_name "random_file.xml" = Ok info
      /\ is_null info "category"
      /\ is_null info "cache_size"
      /\ is_null info "channels"
      /\ is_null info "chips_per_channel"
      /\ is_null info "io_queue_depth"
      /\ is_null info "block_size"
      /\ is_null info "access_pattern"
      /\ is_null info "tpcc_variant".
Proof.
  assert (H : unrecognised (tokens "random_file.xml")).
  { right. left. vm_compute. congruence. }
  split; [exact H | exact (unrecognised_name_all_null "random_file.xml" H)].
Defined.

(** One step along the control flow of the parser. *)
Ltac parser_step :=
  lazymatch goal with
  | |- ensures (if ?b then _ else _) _ => destruct b eqn:?
  | |- ensures (assign_matched_int ?k ?l ?t ?i ≫= _) _ =>
      let v := fresh "v" in
      destruct (assign_matched_int_Ok k l t i) as [[v|] ->];
      apply ensures_bind; cbv beta
  | |- ensures (assign_matched_int ?k ?l ?t ?i) _ =>
      let v := fresh "v" in
      destruct (assign_matched_int_Ok k l t i) as [[v|] ->]
  | |- ensures ((if ?b then _ else _) ≫= _) _ => destruct b eqn:?
  | |- ensures (Ok _ ≫= _) _ => apply ensures_bind; cbv beta
  end.

Lemma blank_info_dom base : dom (blank_info base) = identity_keys.
Proof.
  unfold blank_info, identity_keys.
  rewrite !dom_insert_L, dom_singleton_L. set_solver.
Qed.

(** The parser returns, and the record has the nine identity keys. *)
Lemma parse_experiment_name_dom (filename : string) :
  ensures (parse_experiment_name filename)
          (fun info => dom info = identity_keys).
Proof.
  unfold parse_experiment_name.
  generalize (base_of filename) as base. intros base.
  generalize (str_split "_" base) as parts. intros parts.
  generalize (blank_info_dom base).
  generalize (blank_info base) as info0. intros info0 H0.
  cbv zeta. repeat parser_step.
  all: unfold ensures; rewrite ?dom_insert_L, H0; set_solver.
Qed.

Lemma assign_matched_int_eq key lit tok info :
  assign_matched_int key lit tok info
  = Ok (match re_match_digits lit tok with
        | Some g => <[key := VInt (decimal 0 g)]> info
        | None => info
        end).
Proof.
  unfold assign_matched_int.
  destruct (re_match_digits lit tok) as [g|] eqn:Hg; [|done].
  unfold re_match_digits in Hg.
  destruct (str_startswith lit tok); [|done].
  destruct (String.eqb_spec (take_digits (str_drop (str_len lit) tok)) "")
    as [|Hne]; [done|].
  injection Hg as <-.
  by rewrite (safe_int_digits _ (take_digits_all_digits _) Hne).
Qed.

Lemma re_match_digits_app lit ds rest :
  all_digits ds = true -> ds <> EmptyString ->
  no_leading_digit rest = true ->
  re_match_digits lit (lit +:+ ds +:+ rest) = Some ds.
Proof.
  intros Hds Hne Hrest. unfold re_match_digits.
  rewrite str_startswith_app, str_drop_app, (take_digits_app ds rest Hds Hrest).
  by destruct (String.eqb_spec ds "").
Qed.

Lemma blank_info_null base k :
  k ∈ identity_keys -> k <> "exp_name" -> is_null (blank_info base) k.
Proof.
  unfold identity_keys, is_null. intros Hk Hne.
  repeat (apply elem_of_union in Hk as [Hk|Hk]);
    apply elem_of_singleton in Hk as ->; done.
Qed.

Ltac blank_info_facts base :=
  pose proof (blank_info_null base "category" ltac:(set_solver) ltac:(done));
  pose proof (blank_info_null base "tpcc_variant" ltac:(set_solver) ltac:(done));
  pose proof (blank_info_null base "cache_size" ltac:(set_solver) ltac:(done));
  pose proof (blank_info_null base "channels" ltac:(set_solver) ltac:(done));
  pose proof (blank_info_null base "chips_per_channel"
                ltac:(set_solver) ltac:(done));
  pose proof (blank_info_null base "io_queue_depth"
                ltac:(set_solver) ltac:(done));
  pose proof (blank_info_null base "block_size" ltac:(set_solver) ltac:(done));
  pose proof (blank_info_null base "access_pattern"
                ltac:(set_solver) ltac:(done)).

#[local] Arguments str_startswith : simpl never.
#[local] Arguments assign_matched_int : simpl never.

(** Reads the fields of a record that is a chain of assignments. *)
Ltac lookups :=
  unfold axis_selector, groups_populated, cache_group, channel_group,
    queue_group, is_set, is_null in *;
  repeat first
    [ rewrite lookup_insert_eq
    | rewrite lookup_insert_ne by done ];
  repeat match goal with H : _ !! _ = Some VNone |- _ => rewrite H end.

(** C7, as the code has it.  When the token at position 1 is [ch<N>] the
    category is [ch_chip] and [channels] is [N]; when the token at position 2
    is [chip<M>], [chips_per_channel] is [M]; [block_size] and
    [access_pattern] are the tokens at positions 3 and 4 when the name has a
    token at position 4, and [None] otherwise, whether or not the token at
    position 2 is a chip token. *)
Theorem channel_name_fields (filename ds rest : string) :
  tokens filename !! 0%nat = Some "wl" ->
  tokens filename !! 1%nat = Some ("ch" +:+ ds +:+ rest) ->
  all_digits ds = true -> ds <> EmptyString -> no_leading_digit rest = true ->
  exists info,
    parse_experiment_name filename = Ok info
    /\ info !! "category" = Some (VStr "ch_chip")
    /\ info !! "channels" = Some (VInt (decimal 0 ds))
    /\ (forall ds2 rest2,
          tokens filename !! 2%nat = Some ("chip" +:+ ds2 +:+ rest2) ->
          all_digits ds2 = true -> ds2 <> EmptyString ->
          no_leading_digit rest2 = true ->
          info !! "chips_per_channel" = Some (VInt (decimal 0 ds2)))
    /\ match tokens filename !! 3%nat, tokens filename !! 4%nat with
       | Some b, Some a =>
           info !! "block_size" = Some (VStr b)
           /\ info !! "access_pattern" = Some (VStr a)
       | _, _ => is_null info "block_size" /\ is_null info "access_pattern"
       end.
Proof.
  unfold tokens, parse_experiment_name.
  generalize (base_of filename) as base. intros base.
  blank_info_facts base.
  generalize dependent (blank_info base). intros info0 **.
  destruct (str_split "_" base) as [|p0 [|kind l2]]; [done..|].
  simplify_eq/=. unfold item. simpl.
  rewrite (str_startswith_app "ch" (ds +:+ rest)).
  change (str_startswith "cache" ("ch" +:+ ds +:+ rest)) with false.
  cbv iota. rewrite !assign_matched_int_eq.
  rewrite (re_match_digits_app "ch" ds rest) by done. simpl.
  apply ensures_Ok.
  destruct l2 as [|t2 [|t3 [|t4 l5]]]; simpl.
  { unfold ensures. lookups. by repeat split. }
  all: destruct (str_startswith "chip" t2) eqn:Hchip.
  all: rewrite ?assign_matched_int_eq.
  all: try destruct (re_match_digits "chip" t2) as [g|] eqn:Hre.
  all: unfold ensures; simpl; lookups.
  all: repeat split; try done.
  all: intros ds2 rest2 [= ->] Hd2 Hn2 Hr2.
  all: try (rewrite (re_match_digits_app "chip" ds2 rest2) in Hre by done).
  all: try (rewrite (str_startswith_app "chip" (ds2 +:+ rest2)) in Hchip).
  all: by simplify_eq.
Qed.

Lemma channel_name_fields_witness :
  exists info,
    parse_experiment_name "wl_ch4_chip2_4kb_randread_scenario_1.xml" = Ok info
    /\ info !! "category" = Some (VStr "ch_chip")
    /\ info !! "channels" = Some (VInt 4)
    /\ (forall ds2 rest2,
          tokens "wl_ch4_chip2_4kb_randread_scenario_1.xml" !! 2%nat
          = Some ("chip" +:+ ds2 +:+ rest2) ->
          all_digits ds2 = true -> ds2 <> EmptyString ->
          no_leading_digit rest2 = true ->
          info !! "chips_per_channel" = Some (VInt (decimal 0 ds2)))
    /\ info !! "block_size" = Some (VStr "4kb")
    /\ info !! "access_pattern" = Some (VStr "randread").
Proof.
  exact (channel_name_fields "wl_ch4_chip2_4kb_randread_scenario_1.xml"
           "4" "" eq_refl eq_refl eq_refl ltac:(discriminate) eq_refl).
Defined.

(** C7, counterexample.  In [wl_ch4_4kb_randread.xml] the token at position 1
    is [ch4], no chip token follows, and the two tokens after [ch4] exist;
    [block_size] and [access_pattern] are nevertheless [None]. *)
Lemma channel_name_without_chip_token :
  tokens "wl_ch4_4kb_randread.xml" = ["wl"; "ch4"; "4kb"; "randread"]
  /\ exists info,
      parse_experiment_name "wl_ch4_4kb_randread.xml" = Ok info
      /\ info !! "channels" = Some (VInt 4)
      /\ is_null info "block_size"
      /\ is_null info "access_pattern".
Proof.
  split; [reflexivity|].
  eexists. split; [reflexivity|]. repeat split; vm_compute; reflexivity.
Qed.

(** C8, as the code has it.  For every file name the parser returns a
    record in which every axis field outside the group selected by the
    category (by the tpcc variant when the category is [tpcc]) is [None], so
    that at most one of the three axis groups is populated; when the
    selected group is the cache group it is populated.  (The channel and the
    queue group stay empty when no integer follows the prefix, and no group
    is selected when the category is unset or the tpcc variant is.) *)
Theorem axis_groups (filename : string) :
  exists info,
    parse_experiment_name filename = Ok info
    /\ (axis_selector info <> Some (VStr "cache") ->
        is_null info "cache_size")
    /\ (axis_selector info <> Some (VStr "ch_chip") ->
        is_null info "channels" /\ is_null info "chips_per_channel")
    /\ (axis_selector info <> Some (VStr "ioqd") ->
        is_null info "io_queue_depth")
    /\ (groups_populated info <= 1)%nat
    /\ (axis_selector info = Some (VStr "cache") -> cache_group info = true).
Proof.
  apply ensures_Ok. unfold parse_experiment_name.
  generalize (base_of filename) as base. intros base.
  generalize (str_split "_" base) as parts. intros parts.
  blank_info_facts base.
  generalize dependent (blank_info base). intros info0 **.
  cbv zeta. repeat parser_step.
  all: unfold ensures; lookups; simpl.
  all: repeat split; try done; try lia.
Qed.

(** C8, counterexample.  [wl_tpcc_scenario_1.xml] has the recognised
    category [tpcc], and none of the three axis groups is populated. *)
Lemma tpcc_name_without_variant :
  exists info,
    parse_experiment_name "wl_tpcc_scenario_1.xml" = Ok info
    /\ info !! "category" = Some (VStr "tpcc")
    /\ groups_populated info = 0%nat.
Proof.
  eexists. split; [reflexivity|]. split; vm_compute; reflexivity.
Qed.

(** ** The record assembler *)

Lemma update_empty (d : gmap string value) : update ∅ d = d.
Proof. unfold update. apply (right_id_L ∅ (∪)). Qed.

Lemma dom_update (d e : gmap string value) : dom (update d e) = dom e ∪ dom d.
Proof. unfold update. apply dom_union_L. Qed.

Lemma parse_experiment_name_exp_name (filename : string) :
  ensures (parse_experiment_name filename)
          (fun info => info !! "exp_name" = Some (VStr (base_of filename))).
Proof.
  unfold parse_experiment_name.
  generalize (base_of filename) as base. intros base.
  generalize (str_split "_" base) as parts. intros parts.
  assert (H0 : blank_info base !! "exp_name" = Some (VStr base)) by done.
  revert H0. generalize (blank_info base) as info0. intros info0 H0.
  cbv zeta. repeat parser_step.
  all: unfold ensures; by rewrite ?lookup_insert_ne by done.
Qed.

Lemma mapM_app_cons {A B} (f : A -> result B) l1 x l2 y :
  f x = Ok y ->
  mapM f (l1 ++ x :: l2)
  = rows1 ← mapM f l1; rows2 ← mapM f l2; Ok (rows1 ++ y :: rows2).
Proof.
  intros Hx. induction l1 as [|a l1 IH]; simpl.
  - rewrite Hx. simpl. by destruct (mapM f l2).
  - destruct (f a) as [b|e]; simpl; [|done]. rewrite IH.
    destruct (mapM f l1) as [r1|e]; simpl; [|done].
    by destruct (mapM f l2).
Qed.

Lemma identity_key_not_metric k :
  k ∈ identity_keys ∪ {["parse_error"]} -> metric_key k = false.
Proof.
  unfold identity_keys. intros Hk.
  repeat (apply elem_of_union in Hk as [Hk|Hk]);
    apply elem_of_singleton in Hk as ->; reflexivity.
Qed.

Section RecordAssembler.

(** What parsing does for each path: the file system and the XML parser. *)
Variable ET_parse : string -> parse_outcome.

(** C3.  When the document of a file does not parse, [summarize_file]
    returns, without raising, a record whose [parse_error] is the message of
    the failure, whose keys are the nine identity keys and [parse_error], and
    which has no key of a metric group; in a batch of any size the record
    takes its place among the rows and the batch goes on. *)
Theorem unparseable_document_record (path message : string) :
  ET_parse path = ParseFailed message ->
  exists row,
    summarize_file ET_parse path = Ok row
    /\ row !! "parse_error" = Some (VStr message)
    /\ dom row = identity_keys ∪ {["parse_error"]}
    /\ (forall k, k ∈ dom row -> metric_key k = false)
    /\ (forall before after,
          summarize_all ET_parse (before ++ path :: after)
          = rows1 ← summarize_all ET_parse before;
            rows2 ← summarize_all ET_parse after;
            Ok (rows1 ++ row :: rows2)).
Proof.
  intros Hfail.
  destruct (proj1 (ensures_Ok _ _) (parse_experiment_name_dom path))
    as (info & Hinfo & Hdom).
  assert (Hrow : summarize_file ET_parse path
                 = Ok (<["parse_error" := VStr message]> info)).
  { unfold summarize_file. rewrite Hinfo. simpl. rewrite Hfail.
    by rewrite update_empty. }
  exists (<["parse_error" := VStr message]> info).
  assert (Hd : dom (<["parse_error" := VStr message]> info)
               = identity_keys ∪ {["parse_error"]}).
  { rewrite dom_insert_L, Hdom. set_solver. }
  split; [done|]. split; [apply lookup_insert_eq|]. split; [done|]. split.
  - intros k Hk. apply identity_key_not_metric. by rewrite <- Hd.
  - intros before after. unfold summarize_all. by apply mapM_app_cons.
Qed.

(** C9.  For every file name the parser returns a mapping whose keys are
    exactly the nine identity keys, unset fields being carried as [None],
    and every record [summarize_file] returns, for a document that parses or
    not, has the nine keys. *)
Theorem identity_keys_in_every_record (filename : string) :
  (exists info,
      parse_experiment_name filename = Ok info
      /\ dom info = identity_keys
      /\ info !! "exp_name" = Some (VStr (base_of filename)))
  /\ (forall row,
        summarize_file ET_parse filename = Ok row -> identity_keys ⊆ dom row).
Proof.
  pose proof (parse_experiment_name_dom filename) as Hdom.
  pose proof (parse_experiment_name_exp_name filename) as Hname.
  destruct (parse_experiment_name filename) as [info|e] eqn:Hinfo; [|done].
  simpl in Hdom, Hname. split; [by exists info|].
  intros row. unfold summarize_file. rewrite Hinfo. simpl.
  rewrite update_empty. destruct (ET_parse filename) as [root|message].
  - intros (host & _ & H)%bind_Ok. apply bind_Ok in H as (ftl & _ & H).
    apply bind_Ok in H as (tsu & _ & H). apply bind_Ok in H as (chip & _ & H).
    injection H as <-. rewrite !dom_update, Hdom. set_solver.
  - intros [= <-]. rewrite dom_insert_L, Hdom. set_solver.
Qed.

End RecordAssembler.

Lemma unparseable_document_record_witness :
  exists row,
    summarize_file (fun _ => ParseFailed "syntax error: line 1, column 0")
      "results/wl_ioqd32_4kb_randwrite_scenario_1.xml" = Ok row
    /\ row !! "parse_error" = Some (VStr "syntax error: line 1, column 0")
    /\ dom row = identity_keys ∪ {["parse_error"]}
    /\ (forall k, k ∈ dom row -> metric_key k = false)
    /\ (forall before after,
          summarize_all (fun _ => ParseFailed "syntax error: line 1, column 0")
            (before ++ "results/wl_ioqd32_4kb_randwrite_scenario_1.xml" :: after)
          = rows1 ← summarize_all
                      (fun _ => ParseFailed "syntax error: line 1, column 0")
                      before;
            rows2 ← summarize_all
                      (fun _ => ParseFailed "syntax error: line 1, column 0")
                      after;
            Ok (rows1 ++ row :: rows2)).
Proof.
  exact (unparseable_document_record
           (fun _ => ParseFailed "syntax error: line 1, column 0")
           "results/wl_ioqd32_4kb_randwrite_scenario_1.xml"
           "syntax error: line 1, column 0" eq_refl).
Defined.

(** ** The extractors *)

#[local] Arguments safe_int : simpl never.

Lemma safe_int_raises text e : safe_int text = Raise e -> e = OverflowError.
Proof.
  unfold safe_int. destruct text as [text|]; [|done].
  destruct (str_strip text =? "")%string; [done|].
  destruct (int_of_str _); [done|].
  destruct (float_of_str _) as [f|]; [|done].
  destruct f as [| | |[] ? ?]; simpl; congruence.
Qed.

Lemma get_elem_of attrs key v : get attrs key = Some v -> (key, v) ∈ attrs.
Proof.
  induction attrs as [|[k w] attrs IH]; simpl; [done|].
  destruct (String.eqb_spec k key) as [->|_].
  - intros [= ->]. left.
  - intros H. right. by apply IH.
Qed.

(** Reading an attribute with [safe_int]: the value read stands in the
    element, and a failure is a value out of range. *)
Lemma safe_int_get attrs key :
  match safe_int (get attrs key) with
  | Ok (Some n) =>
      exists v, (key, v) ∈ attrs /\ safe_int (Some v) = Ok (Some n)
  | Ok None => True
  | Raise e => e = OverflowError /\ out_of_range attrs
  end.
Proof.
  destruct (get attrs key) as [v|] eqn:Hget; [|done].
  apply get_elem_of in Hget.
  destruct (safe_int (Some v)) as [[n|]|e] eqn:Hv; [eauto|done|].
  pose proof (safe_int_raises _ _ Hv) as ->. split; [done|].
  exists key, v. split; [done|]. by left.
Qed.

Lemma too_large_attr attrs key n :
  safe_int (get attrs key) = Ok (Some n) -> too_large n -> out_of_range attrs.
Proof.
  intros Hn Hlarge. pose proof (safe_int_get attrs key) as H.
  rewrite Hn in H. destruct H as (v & Hin & Hv).
  exists key, v. split; [done|]. right. eauto.
Qed.

Lemma float_of_int_cases n :
  float_of_int n = Ok (to_float n) \/ too_large n.
Proof.
  unfold too_large, float_of_int. destruct (to_float n); auto.
Qed.

Lemma ratio_spec num den :
  match ratio num den with
  | Ok r => of_opt_float r = hit_rate num den
  | Raise e =>
      e = OverflowError
      /\ ((exists n, num = Some n /\ too_large n)
          \/ (exists d, den = Some d /\ too_large d))
  end.
Proof.
  unfold ratio, hit_rate. destruct num as [n|], den as [d|]; try done.
  destruct (Z.eqb_spec d 0) as [|Hd]; [done|].
  destruct (float_of_int_cases n) as [Hn|Hn]; rewrite Hn;
    [rewrite bind_Ok_l | simpl; eauto].
  destruct (float_of_int_cases d) as [Hb|Hb]; rewrite Hb;
    [rewrite bind_Ok_l | simpl; eauto].
  by rewrite (truediv_truthy _ _ (to_float_nonzero d Hd)).
Qed.

(** *** Flash translation layer *)

Lemma attr_sum_cons sel item attrs :
  attr_sum sel (item :: attrs) = contribution sel item + attr_sum sel attrs.
Proof. reflexivity. Qed.

Lemma ftl_count_step t item :
  match ftl_count t item with
  | Ok t1 =>
      total_read t1 = total_read t + contribution (ordinary_cmd "Read_CMD") item
      /\ total_prog t1
         = total_prog t + contribution (ordinary_cmd "Program_CMD") item
      /\ total_erase t1
         = total_erase t + contribution (ordinary_cmd "Erase_CMD") item
      /\ mapping_read t1
         = mapping_read t + contribution (mapping_cmd "Read_CMD") item
      /\ mapping_prog t1
         = mapping_prog t + contribution (mapping_cmd "Program_CMD") item
      /\ mapping_erase t1
         = mapping_erase t + contribution (mapping_cmd "Erase_CMD") item
  | Raise e => e = OverflowError /\ out_of_range_text (snd item)
  end.
Proof.
  destruct item as [name val]. unfold ftl_count, contribution, count_of.
  cbn [fst snd].
  change (mapping_cmd "Read_CMD" name)
    with (str_contains "Read_CMD_For_Mapping" name).
  change (mapping_cmd "Program_CMD" name)
    with (str_contains "Program_CMD_For_Mapping" name).
  change (mapping_cmd "Erase_CMD" name)
    with (str_contains "Erase_CMD_For_Mapping" name).
  unfold ordinary_cmd, add_if.
  destruct (safe_int (Some val)) as [[cnt|]|e] eqn:Hval; simpl.
  - repeat split;
      repeat match goal with
        | |- context [if ?b then _ else _] => destruct b
        end; lia.
  - repeat split;
      repeat match goal with
        | |- context [if ?b then _ else _] => destruct b
        end; lia.
  - pose proof (safe_int_raises _ _ Hval) as ->. split; [done|]. by left.
Qed.

(** The loop over the attributes leaves in each running total the sum of
    the counts of the attributes it selects. *)
Lemma for_each_ftl_count attrs : forall t,
  match for_each ftl_count attrs t with
  | Ok t' =>
      total_read t' = total_read t + attr_sum (ordinary_cmd "Read_CMD") attrs
      /\ total_prog t'
         = total_prog t + attr_sum (ordinary_cmd "Program_CMD") attrs
      /\ total_erase t'
         = total_erase t + attr_sum (ordinary_cmd "Erase_CMD") attrs
      /\ mapping_read t'
         = mapping_read t + attr_sum (mapping_cmd "Read_CMD") attrs
      /\ mapping_prog t'
         = mapping_prog t + attr_sum (mapping_cmd "Program_CMD") attrs
      /\ mapping_erase t'
         = mapping_erase t + attr_sum (mapping_cmd "Erase_CMD") attrs
  | Raise e => e = OverflowError /\ out_of_range attrs
  end.
Proof.
  induction attrs as [|item attrs IH]; intros t.
  - simpl. unfold attr_sum. simpl. lia.
  - simpl for_each. pose proof (ftl_count_step t item) as Hstep.
    destruct (ftl_count t item) as [t1|e].
    + rewrite bind_Ok_l. specialize (IH t1).
      destruct (for_each ftl_count attrs t1) as [t'|e].
      * rewrite !attr_sum_cons. lia.
      * destruct IH as [-> (name & val & Hin & Hval)]. split; [done|].
        exists name, val. split; [by right | done].
    + destruct Hstep as [-> Hval]. split; [done|].
      exists (fst item), (snd item). split; [|done].
      destruct item. left.
Qed.

Lemma attr_sum_none sel attrs :
  (forall name val, (name, val) ∈ attrs -> sel name = false) ->
  attr_sum sel attrs = 0.
Proof.
  induction attrs as [|[name val] attrs IH]; intros H; [done|].
  rewrite attr_sum_cons. unfold contribution. cbn [fst snd].
  rewrite (H name val) by left. rewrite IH; [done|].
  intros n v Hin. apply (H n v). by right.
Qed.

Lemma prefix_app p q s :
  String.prefix (p +:+ q) s = true -> String.prefix p s = true.
Proof.
  revert s. induction p as [|c p IH]; intros s.
  - by destruct s.
  - rewrite append_cons. destruct s as [|c' s]; simpl; [done|].
    destruct (ascii_dec c c'); [apply IH | done].
Qed.

Lemma str_contains_nil p : str_contains p "" = String.prefix p "".
Proof. unfold str_contains. apply orb_false_r. Qed.

Lemma str_contains_cons p c s :
  str_contains p (String c s)
  = String.prefix p (String c s) || str_contains p s.
Proof. reflexivity. Qed.

Lemma str_contains_app p q s :
  str_contains (p +:+ q) s = true -> str_contains p s = true.
Proof.
  induction s as [|c s IH].
  - rewrite !str_contains_nil. apply prefix_app.
  - rewrite !str_contains_cons.
    intros [H|H]%orb_prop; apply orb_true_iff.
    + left. by apply prefix_app in H.
    + right. by apply IH.
Qed.

(** One statement of [parse_ftl_metrics] that reads an attribute. *)
Ltac read_attr attrs :=
  lazymatch goal with
  | |- context [safe_int (get attrs ?k) ≫= _] =>
      let H := fresh "Hread" in
      pose proof (safe_int_get attrs k) as H;
      destruct (safe_int (get attrs k)) as [?|?] eqn:?;
      [rewrite bind_Ok_l; clear H | exact H]
  end.

Ltac divide attrs :=
  lazymatch goal with
  | |- context [ratio ?n ?d ≫= _] =>
      let H := fresh "Hratio" in
      pose proof (ratio_spec n d) as H;
      destruct (ratio n d) as [?|?] eqn:?;
      [rewrite bind_Ok_l
      | destruct H as [-> [(? & -> & ?)|(? & -> & ?)]];
        (split; [done | eauto using too_large_attr])]
  end.

(** The extractor of the FTL element, statement by statement. *)
Lemma parse_ftl_metrics_spec (root ftl : Element) :
  find root "SSDDevice/SSDDevice.FTL" = Some ftl ->
  match parse_ftl_metrics root with
  | Ok out =>
      (forall key, key ∈ commands ->
         out !! ("ftl_Total_Flash_" +:+ key)
         = Some (VInt (attr_sum (ordinary_cmd key) (attrib ftl)))
         /\ out !! ("ftl_Mapping_" +:+ key)
            = Some (VInt (attr_sum (mapping_cmd key) (attrib ftl))))
      /\ (forall hits_attr queries_attr rate_key,
            (hits_attr, queries_attr, rate_key) ∈ cmt_scopes ->
            exists hits queries,
              safe_int (get (attrib ftl) hits_attr) = Ok hits
              /\ safe_int (get (attrib ftl) queries_attr) = Ok queries
              /\ out !! rate_key = Some (hit_rate hits queries))
  | Raise e => e = OverflowError /\ out_of_range (attrib ftl)
  end.
Proof.
  intros Hftl. unfold parse_ftl_metrics. rewrite Hftl.
  pose proof (for_each_ftl_count (attrib ftl) (mk_ftl_totals 0 0 0 0 0 0))
    as Hloop.
  destruct (for_each ftl_count _ _) as [t|e]; [rewrite bind_Ok_l | done].
  cbn [total_read total_prog total_erase mapping_read mapping_prog
       mapping_erase] in Hloop.
  destruct Hloop as (Hr & Hp & He & Hmr & Hmp & Hme).
  do 6 read_attr (attrib ftl). do 3 divide (attrib ftl).
  read_attr (attrib ftl). split.
  - intros key Hkey. unfold commands in Hkey.
    repeat (apply elem_of_cons in Hkey as [->|Hkey]);
      [| | |by apply elem_of_nil in Hkey].
    all: cbv [String.append].
    all: split; rewrite !lookup_insert_ne by done; rewrite lookup_insert_eq;
      do 2 f_equal; lia.
  - intros hits_attr queries_attr rate_key Hscope.
    unfold cmt_scopes in Hscope.
    repeat (apply elem_of_cons in Hscope as [[= -> -> ->]|Hscope]);
      [| | |by apply elem_of_nil in Hscope].
    all: do 2 eexists; split; [eassumption|]; split; [eassumption|].
    all: rewrite !lookup_insert_ne by done; rewrite lookup_insert_eq;
      congruence.
Qed.

(** C4.  When the FTL element is there, the extractor either returns a
    mapping in which, for each of the three scopes, the hit rate is the
    quotient of the hits by the queries when both counts are read from the
    element and the queries are not zero, and [None] otherwise; or it raises
    [OverflowError] on an attribute value out of the range of doubles.  It
    never raises [ZeroDivisionError]. *)
Theorem cmt_hit_rates (root ftl : Element) :
  find root "SSDDevice/SSDDevice.FTL" = Some ftl ->
  match parse_ftl_metrics root with
  | Ok out =>
      forall hits_attr queries_attr rate_key,
        (hits_attr, queries_attr, rate_key) ∈ cmt_scopes ->
        exists hits queries,
          safe_int (get (attrib ftl) hits_attr) = Ok hits
          /\ safe_int (get (attrib ftl) queries_attr) = Ok queries
          /\ out !! rate_key = Some (hit_rate hits queries)
  | Raise e => e = OverflowError /\ out_of_range (attrib ftl)
  end.
Proof.
  intros Hftl. pose proof (parse_ftl_metrics_spec root ftl Hftl) as H.
  destruct (parse_ftl_metrics root) as [out|e]; [|done]. by destruct H.
Qed.

Lemma cmt_hit_rates_witness :
  hit_rate (Some 0) (Some 0) = VNone
  /\ match parse_ftl_metrics
           (document [("CMT_Hits", "0"); ("Total_CMT_Queries", "0")] [] [])
     with
     | Ok out =>
         forall hits_attr queries_attr rate_key,
           (hits_attr, queries_attr, rate_key) ∈ cmt_scopes ->
           exists hits queries,
             safe_int (get [("CMT_Hits", "0"); ("Total_CMT_Queries", "0")]
                           hits_attr) = Ok hits
             /\ safe_int (get [("CMT_Hits", "0"); ("Total_CMT_Queries", "0")]
                              queries_attr) = Ok queries
             /\ out !! rate_key = Some (hit_rate hits queries)
     | Raise e =>
         e = OverflowError
         /\ out_of_range [("CMT_Hits", "0"); ("Total_CMT_Queries", "0")]
     end.
Proof.
  split; [reflexivity|].
  exact (cmt_hit_rates
           (document [("CMT_Hits", "0"); ("Total_CMT_Queries", "0")] [] [])
           (Elem "SSDDevice.FTL" [("CMT_Hits", "0"); ("Total_CMT_Queries", "0")]
                 None [])
           eq_refl).
Defined.

(** With no hits out of no queries the hit rate is [None], and with three
    hits out of four queries it is 0.75. *)
Example cmt_hit_rate_examples :
  (exists out,
      parse_ftl_metrics
        (document [("CMT_Hits", "0"); ("Total_CMT_Queries", "0")] [] [])
      = Ok out
      /\ out !! "ftl_CMT_Hit_Rate" = Some VNone)
  /\ (exists out,
        parse_ftl_metrics
          (document [("CMT_Read_Hits", "3"); ("Total_CMT_Read_Queries", "4")]
                    [] [])
        = Ok out
        /\ out !! "ftl_CMT_Read_Hit_Rate" = Some (VFloat (float_lit "0.75"))).
Proof.
  split; eexists; (split; [reflexivity | vm_compute; reflexivity]).
Qed.

(** C2, what the code does.  When the FTL element is there and none of its
    attributes has a name that contains [Read_CMD] (or [Program_CMD], or
    [Erase_CMD]), the total of the ordinary commands and the total of the
    mapping commands of that kind are the integer zero, not [None]. *)
Theorem ftl_totals_zero_without_attribute (root ftl : Element)
    (out : gmap string value) (key : string) :
  find root "SSDDevice/SSDDevice.FTL" = Some ftl ->
  parse_ftl_metrics root = Ok out ->
  key ∈ commands ->
  (forall name val, (name, val) ∈ attrib ftl -> str_contains key name = false) ->
  out !! ("ftl_Total_Flash_" +:+ key) = Some (VInt 0)
  /\ out !! ("ftl_Mapping_" +:+ key) = Some (VInt 0).
Proof.
  intros Hftl Hout Hkey Hnone.
  pose proof (parse_ftl_metrics_spec root ftl Hftl) as H.
  rewrite Hout in H. destruct H as [H _]. destruct (H key Hkey) as [-> ->].
  rewrite !attr_sum_none; [done| |].
  - intros name val Hin. unfold mapping_cmd.
    destruct (str_contains (key +:+ "_For_Mapping") name) eqn:Hc; [|done].
    apply str_contains_app in Hc. by rewrite (Hnone name val Hin) in Hc.
  - intros name val Hin. unfold ordinary_cmd. by rewrite (Hnone name val Hin).
Qed.

Lemma ftl_totals_zero_without_attribute_witness :
  exists out,
    parse_ftl_metrics (document [("Total_GC_Executions", "12")] [] []) = Ok out
    /\ out !! "ftl_Total_Flash_Read_CMD" = Some (VInt 0)
    /\ out !! "ftl_Mapping_Read_CMD" = Some (VInt 0).
Proof.
  eexists. split; [reflexivity|].
  apply (ftl_totals_zero_without_attribute
           (document [("Total_GC_Executions", "12")] [] [])
           (Elem "SSDDevice.FTL" [("Total_GC_Executions", "12")] None [])
           _ "Read_CMD" eq_refl eq_refl).
  - unfold commands. left.
  - intros name val [[= -> ->]|H]%elem_of_cons; [reflexivity|].
    by apply elem_of_nil in H.
Defined.

(** *** Transaction scheduling unit *)

Lemma prefix_underscore c s :
  String.prefix "_" (String c s) = Ascii.eqb c "_".
Proof. destruct c as [[] [] [] [] [] [] [] []], s; reflexivity. Qed.

Lemma str_contains_underscore_cons c s :
  str_contains "_" (String c s) = Ascii.eqb c "_" || str_contains "_" s.
Proof. by rewrite str_contains_cons, prefix_underscore. Qed.

Lemma tsu_prefix_whole name :
  str_contains "_" name = false -> tsu_prefix name = name.
Proof. unfold tsu_prefix. by intros ->. Qed.

Lemma tsu_prefix_split p rest :
  str_contains "_" p = false -> tsu_prefix (p +:+ "_" +:+ rest) = p.
Proof.
  intros Hp. unfold tsu_prefix.
  assert (H : str_contains "_" (p +:+ "_" +:+ rest) = true
              /\ str_before "_" (p +:+ "_" +:+ rest) = p).
  { induction p as [|c p IH].
    - split; [|done]. change ("" +:+ "_" +:+ rest) with (String "_" rest).
      by rewrite str_contains_underscore_cons.
    - rewrite append_cons. rewrite str_contains_underscore_cons in Hp |- *.
      apply orb_false_elim in Hp as [Hc Hp]. destruct (IH Hp) as [IH1 IH2].
      split; [by rewrite IH1, orb_true_r|]. simpl. by rewrite Hc, IH2. }
  destruct H as [-> ->]. done.
Qed.

Lemma prefixes_no_underscore c : c ∈ prefixes -> str_contains "_" c = false.
Proof.
  unfold prefixes. intros Hc.
  repeat (apply elem_of_cons in Hc as [->|Hc]); [done..|].
  by apply elem_of_nil in Hc.
Qed.

(** Reading a count of a queue and adding it to an accumulator. *)
Lemma int_attr_read q key :
  match safe_int (get (attrib q) key) with
  | Ok v =>
      or_zero v = int_attr q key
      /\ (too_large (or_zero v) -> out_of_range (attrib q))
  | Raise e => e = OverflowError /\ out_of_range (attrib q)
  end.
Proof.
  unfold int_attr. pose proof (safe_int_get (attrib q) key) as H.
  destruct (safe_int (get (attrib q) key)) as [[n|]|e] eqn:Hr; [| |done].
  - split; [done|]. simpl. eauto using too_large_attr.
  - split; [done|]. by intros [=].
Qed.

Lemma fadd_int_spec a n :
  match fadd_int a n with
  | Ok b => b = fadd a (to_float n)
  | Raise e => e = OverflowError /\ too_large n
  end.
Proof.
  unfold fadd_int. by destruct (float_of_int_cases n) as [-> | H]; [|rewrite H].
Qed.

Lemma fmul_int_spec a n :
  match fmul_int a n with
  | Ok b => b = fmul a (to_float n)
  | Raise e => e = OverflowError /\ too_large n
  end.
Proof.
  unfold fmul_int. by destruct (float_of_int_cases n) as [-> | H]; [|rewrite H].
Qed.

(** A queue of one of the three classes is added to the accumulators of
    its class. *)
Lemma tsu_accumulate_class stats q s :
  queue_class q ∈ prefixes ->
  stats !! queue_class q = Some s ->
  match tsu_accumulate stats q with
  | Ok stats' => stats' = <[queue_class q := add_queue s q]> stats
  | Raise e => e = OverflowError /\ out_of_range (attrib q)
  end.
Proof.
  intros Hc Hs. unfold tsu_accumulate. fold (queue_class q).
  rewrite (bool_decide_eq_true_2 _ Hc). simpl negb. cbv iota.
  unfold add_queue. fold (float_attr q "Avg_Transaction_Waiting_Time").
  fold (float_attr q "Avg_Queue_Length").
  pose proof (int_attr_read q "No_Of_Transactions_Enqueued") as H1.
  destruct (safe_int (get (attrib q) "No_Of_Transactions_Enqueued"))
    as [e1|?]; [rewrite bind_Ok_l | done]. destruct H1 as [H1 H1'].
  pose proof (int_attr_read q "No_Of_Transactions_Dequeued") as H2.
  destruct (safe_int (get (attrib q) "No_Of_Transactions_Dequeued"))
    as [d1|?]; [rewrite bind_Ok_l | done]. destruct H2 as [H2 H2'].
  rewrite Hs.
  pose proof (fadd_int_spec (enq s) (or_zero e1)) as H3.
  destruct (fadd_int (enq s) (or_zero e1)) as [a|?];
    [rewrite bind_Ok_l | naive_solver].
  pose proof (fadd_int_spec (deq s) (or_zero d1)) as H4.
  destruct (fadd_int (deq s) (or_zero d1)) as [b|?];
    [rewrite bind_Ok_l | naive_solver].
  pose proof (fmul_int_spec (float_attr q "Avg_Transaction_Waiting_Time")
                (or_zero e1)) as H5.
  destruct (fmul_int _ (or_zero e1)) as [w|?];
    [rewrite bind_Ok_l | naive_solver].
  subst. by rewrite H1, H2.
Qed.

Lemma tsu_accumulate_other stats q :
  queue_class q ∉ prefixes -> tsu_accumulate stats q = Ok stats.
Proof.
  intros Hc. unfold tsu_accumulate. fold (queue_class q).
  by rewrite (bool_decide_eq_false_2 _ Hc).
Qed.

Lemma all_classes_insert stats c s :
  all_classes stats -> all_classes (<[c := s]> stats).
Proof.
  intros H c' Hc'. destruct (decide (c = c')) as [->|Hne].
  - rewrite lookup_insert_eq. eauto.
  - rewrite lookup_insert_ne by done. by apply H.
Qed.

(** The loop over the queues leaves, for each class, the accumulators of
    the queues of the class taken in document order. *)
Lemma for_each_tsu_accumulate qs : forall stats,
  all_classes stats ->
  match for_each tsu_accumulate qs stats with
  | Ok stats' =>
      forall c s, c ∈ prefixes -> stats !! c = Some s ->
        stats' !! c = Some (fold_left add_queue (class_queues c qs) s)
  | Raise e => e = OverflowError /\ exists q, q ∈ qs /\ out_of_range (attrib q)
  end.
Proof.
  induction qs as [|q qs IH]; intros stats Hall; simpl for_each.
  - by intros c s _ ->.
  - unfold class_queues.
    destruct (decide (queue_class q ∈ prefixes)) as [Hc|Hc].
    + destruct (Hall _ Hc) as [s0 Hs0].
      pose proof (tsu_accumulate_class stats q s0 Hc Hs0) as Hq.
      destruct (tsu_accumulate stats q) as [stats1|e].
      * subst stats1. rewrite bind_Ok_l.
        specialize (IH _ (all_classes_insert stats (queue_class q)
                            (add_queue s0 q) Hall)).
        destruct (for_each tsu_accumulate qs _) as [stats'|e].
        -- intros c s Hcp Hs. rewrite filter_cons.
           destruct (decide (queue_class q = c)) as [<-|Hne].
           ++ simpl. apply IH; [done|]. rewrite lookup_insert_eq. congruence.
           ++ apply IH; [done|]. by rewrite lookup_insert_ne.
        -- destruct IH as [-> (q' & Hin & Hq')]. split; [done|].
           exists q'. split; [by right | done].
      * destruct Hq as [-> Hq]. split; [done|]. exists q. split; [left | done].
    + rewrite (tsu_accumulate_other stats q Hc), bind_Ok_l.
      specialize (IH _ Hall).
      destruct (for_each tsu_accumulate qs stats) as [stats'|e].
      * intros c s Hcp Hs. rewrite filter_cons.
        destruct (decide (queue_class q = c)) as [<-|Hne]; [done|by apply IH].
      * destruct IH as [-> (q' & Hin & Hq')]. split; [done|].
        exists q'. split; [by right | done].
Qed.

Lemma enq_fold qs s :
  enq (fold_left add_queue qs s)
  = fold_left
      (fun acc q =>
         fadd acc (to_float (int_attr q "No_Of_Transactions_Enqueued")))
      qs (enq s).
Proof.
  revert s. induction qs as [|q qs IH]; intros s; simpl; [done|].
  by rewrite IH.
Qed.

Lemma wait_time_sum_fold qs s :
  wait_time_sum (fold_left add_queue qs s)
  = fold_left
      (fun acc q =>
         fadd acc (fmul (float_attr q "Avg_Transaction_Waiting_Time")
                        (to_float (int_attr q "No_Of_Transactions_Enqueued"))))
      qs (wait_time_sum s).
Proof.
  revert s. induction qs as [|q qs IH]; intros s; simpl; [done|].
  by rewrite IH.
Qed.

Lemma assign_average_eq key x d out :
  assign_average key x (or_fzero (Some d)) out
  = Ok (<[key := if float_gt0 d then VFloat (fdiv x d) else VNone]> out).
Proof. unfold assign_average. by destruct d as [[]|[]| |[] m e]. Qed.

Lemma tsu_report_eq stats out c s :
  stats !! c = Some s ->
  tsu_report stats out c
  = Ok (<["tsu_" +:+ c +:+ "_Avg_Queue_Length" :=
            if float_gt0 (queue_entries s)
            then VFloat (fdiv (queue_len_sum s) (queue_entries s)) else VNone]>
         (<["tsu_" +:+ c +:+ "_Avg_Waiting_Time" :=
              if float_gt0 (enq s)
              then VFloat (fdiv (wait_time_sum s) (enq s)) else VNone]>
            (<["tsu_" +:+ c +:+ "_Transactions_Dequeued" :=
                 positive_or_none (deq s)]>
               (<["tsu_" +:+ c +:+ "_Transactions_Enqueued" :=
                    positive_or_none (enq s)]> out)))).
Proof.
  intros Hs. unfold tsu_report. rewrite Hs.
  rewrite assign_average_eq, bind_Ok_l. by rewrite assign_average_eq.
Qed.

Lemma tsu_stats_init_lookup c :
  c ∈ prefixes ->
  tsu_stats_init !! c = Some (mk_tsu_stats fzero fzero fzero fzero fzero).
Proof.
  unfold prefixes. intros Hc.
  repeat (apply elem_of_cons in Hc as [->|Hc]); [done..|].
  by apply elem_of_nil in Hc.
Qed.

(** The extractor of the TSU element: the average waiting time and the
    enqueued count of each class. *)
Lemma parse_tsu_metrics_spec (root tsu : Element) :
  find root "SSDDevice/SSDDevice.TSU" = Some tsu ->
  match parse_tsu_metrics root with
  | Ok out =>
      forall c, c ∈ prefixes ->
        out !! ("tsu_" +:+ c +:+ "_Avg_Waiting_Time")
        = Some (weighted_waiting_time c (children tsu))
        /\ out !! ("tsu_" +:+ c +:+ "_Transactions_Enqueued")
           = Some (positive_or_none (enqueued_sum c (children tsu)))
  | Raise e =>
      e = OverflowError
      /\ exists q, q ∈ children tsu /\ out_of_range (attrib q)
  end.
Proof.
  intros Htsu. unfold parse_tsu_metrics. rewrite Htsu.
  assert (Hall : all_classes tsu_stats_init).
  { intros c Hc. rewrite (tsu_stats_init_lookup c Hc). eauto. }
  pose proof (for_each_tsu_accumulate (children tsu) _ Hall) as Hloop.
  destruct (for_each tsu_accumulate (children tsu) tsu_stats_init)
    as [stats|e]; [rewrite bind_Ok_l | done].
  assert (Hstats : forall c, c ∈ prefixes ->
            stats !! c
            = Some (fold_left add_queue (class_queues c (children tsu))
                      (mk_tsu_stats fzero fzero fzero fzero fzero))).
  { intros c Hc. apply Hloop; [done|]. by apply tsu_stats_init_lookup. }
  unfold prefixes at 1. simpl for_each.
  rewrite (tsu_report_eq _ _ "User" _ (Hstats "User" ltac:(set_solver))).
  rewrite bind_Ok_l.
  rewrite (tsu_report_eq _ _ "GC" _ (Hstats "GC" ltac:(set_solver))).
  rewrite bind_Ok_l.
  rewrite (tsu_report_eq _ _ "Mapping" _ (Hstats "Mapping" ltac:(set_solver))).
  rewrite bind_Ok_l.
  intros c Hc. unfold weighted_waiting_time, enqueued_sum, waiting_sum.
  unfold prefixes in Hc.
  repeat (apply elem_of_cons in Hc as [->|Hc]);
    [| | |by apply elem_of_nil in Hc].
  all: cbv [String.append].
  all: split; rewrite ?lookup_insert_ne by done; rewrite lookup_insert_eq.
  all: by rewrite enq_fold, ?wait_time_sum_fold.
Qed.

(** C5.  When the TSU element is there, the extractor either returns a
    mapping in which, for each of the three classes, the average waiting
    time is the sum, over the queues of the class, of the average waiting
    time of the queue multiplied by its enqueued count, divided by the sum
    of the enqueued counts, when that sum is positive, and [None] otherwise;
    or it raises [OverflowError] on a queue with an attribute value out of
    the range of doubles. *)
Theorem tsu_weighted_waiting_time (root tsu : Element) :
  find root "SSDDevice/SSDDevice.TSU" = Some tsu ->
  match parse_tsu_metrics root with
  | Ok out =>
      forall c, c ∈ prefixes ->
        out !! ("tsu_" +:+ c +:+ "_Avg_Waiting_Time")
        = Some (weighted_waiting_time c (children tsu))
  | Raise e =>
      e = OverflowError
      /\ exists q, q ∈ children tsu /\ out_of_range (attrib q)
  end.
Proof.
  intros Htsu. pose proof (parse_tsu_metrics_spec root tsu Htsu) as H.
  destruct (parse_tsu_metrics root) as [out|e]; [|done].
  intros c Hc. by destruct (H c Hc).
Qed.

Lemma tsu_weighted_waiting_time_witness :
  weighted_waiting_time "User"
    [queue "User_A" "10" "10" "5.0" "0.5"; queue "User_B" "30" "30" "1.0" "0.5"]
  = VFloat (float_lit "2.0")
  /\ match parse_tsu_metrics
           (document []
              [queue "User_A" "10" "10" "5.0" "0.5";
               queue "User_B" "30" "30" "1.0" "0.5"] [])
     with
     | Ok out =>
         forall c, c ∈ prefixes ->
           out !! ("tsu_" +:+ c +:+ "_Avg_Waiting_Time")
           = Some (weighted_waiting_time c
                     [queue "User_A" "10" "10" "5.0" "0.5";
                      queue "User_B" "30" "30" "1.0" "0.5"])
     | Raise e =>
         e = OverflowError
         /\ exists q,
             q ∈ [queue "User_A" "10" "10" "5.0" "0.5";
                  queue "User_B" "30" "30" "1.0" "0.5"]
             /\ out_of_range (attrib q)
     end.
Proof.
  split; [vm_compute; reflexivity|].
  exact (tsu_weighted_waiting_time
           (document []
              [queue "User_A" "10" "10" "5.0" "0.5";
               queue "User_B" "30" "30" "1.0" "0.5"] [])
           (Elem "SSDDevice.TSU" [] None
              [queue "User_A" "10" "10" "5.0" "0.5";
               queue "User_B" "30" "30" "1.0" "0.5"])
           eq_refl).
Defined.

(** Two user queues with 10 and 30 transactions enqueued and average waits
    5.0 and 1.0: the extractor returns 2.0, and not the mean 3.0 of the two
    averages. *)
Example weighted_average_example :
  exists out,
    parse_tsu_metrics
      (document []
         [queue "User_A" "10" "10" "5.0" "0.5";
          queue "User_B" "30" "30" "1.0" "0.5"] [])
    = Ok out
    /\ out !! "tsu_User_Avg_Waiting_Time" = Some (VFloat (float_lit "2.0"))
    /\ out !! "tsu_User_Avg_Waiting_Time" <> Some (VFloat (float_lit "3.0"))
    /\ out !! "tsu_GC_Avg_Waiting_Time" = Some VNone.
Proof.
  eexists. split; [reflexivity|].
  repeat split; vm_compute; (reflexivity || discriminate).
Qed.

(** C10.  A queue name without underscore is its own class, and a queue
    name with an underscore has the text before the first underscore as its
    class; a queue named exactly [User], [GC] or [Mapping] is added to the
    accumulators of that class (unless one of its counts is out of the
    range of doubles, on which the loop raises). *)
Theorem tsu_queue_classification (name : string) :
  (str_contains "_" name = false -> tsu_prefix name = name)
  /\ (forall p rest,
        name = p +:+ "_" +:+ rest -> str_contains "_" p = false ->
        tsu_prefix name = p)
  /\ (forall q stats s,
        get (attrib q) "Name" = Some name -> name ∈ prefixes ->
        stats !! name = Some s ->
        match tsu_accumulate stats q with
        | Ok stats' => stats' = <[name := add_queue s q]> stats
        | Raise e => e = OverflowError /\ out_of_range (attrib q)
        end).
Proof.
  split; [apply tsu_prefix_whole|]. split.
  - intros p rest -> Hp. by apply tsu_prefix_split.
  - intros q stats s Hname Hc Hs.
    assert (Hclass : queue_class q = name).
    { unfold queue_class. rewrite Hname. simpl.
      apply tsu_prefix_whole, prefixes_no_underscore, Hc. }
    rewrite <- Hclass in *. by apply tsu_accumulate_class.
Qed.

(** A queue named [User] and a queue named [User_Ch0] are both counted in
    the class [User]; a queue named [Users] is in no class. *)
Example queue_class_example :
  exists out,
    parse_tsu_metrics
      (document []
         [queue "User" "5" "4" "2.0" "1.0";
          queue "User_Ch0" "7" "7" "2.0" "1.0";
          queue "Users" "100" "100" "2.0" "1.0"] [])
    = Ok out
    /\ out !! "tsu_User_Transactions_Enqueued"
       = Some (VFloat (float_lit "12.0"))
    /\ out !! "tsu_User_Avg_Queue_Length" = Some (VFloat (float_lit "1.0")).
Proof.
  eexists. split; [reflexivity|]. split; vm_compute; reflexivity.
Qed.

(** *** Chips and energy *)

Lemma power_index_weights ch : power_index ch = weighted_power ch.
Proof. reflexivity. Qed.

Lemma total_power_index_sum chips : total_power_index chips = power_sum chips.
Proof. reflexivity. Qed.

(** C6, as the code has it.  When the document has at least one chip
    element, the extractor either returns a mapping in which the total
    power index is the sum over the chips of the weighted fractions, and the
    energy per request is that total divided by the request count when the
    count is there and positive, and [None] otherwise; or it raises
    [OverflowError] on a count too large for a double. *)
Theorem energy_per_io_index (root : Element) (host_reqs : option Z)
    (ch : Element) (chips : list Element) :
  findall root "SSDDevice/SSDDevice.FlashChips" = ch :: chips ->
  match parse_chip_metrics_and_energy root host_reqs with
  | Ok out =>
      out !! "energy_Total_Chip_Power_Index"
      = Some (VFloat (power_sum (ch :: chips)))
      /\ out !! "energy_Energy_per_IO_Index"
         = Some (energy_per_io (power_sum (ch :: chips)) host_reqs)
  | Raise e =>
      e = OverflowError
      /\ (too_large (Z.of_nat (length (ch :: chips)))
          \/ exists h, host_reqs = Some h /\ too_large h)
  end.
Proof.
  intros Hchips. unfold parse_chip_metrics_and_energy. rewrite Hchips.
  rewrite total_power_index_sum.
  generalize (power_sum (ch :: chips)) as total. intros total.
  destruct (float_of_int_cases (Z.of_nat (length (ch :: chips)))) as [Hn|Hn];
    rewrite Hn; [rewrite bind_Ok_l | simpl; auto].
  assert (Hnz : float_truthy (to_float (Z.of_nat (length (ch :: chips)))) = true).
  { apply to_float_nonzero. cbn [length]. lia. }
  rewrite !(truediv_truthy _ _ Hnz), !bind_Ok_l.
  unfold energy_per_io. destruct host_reqs as [h|].
  - destruct (Z.eqb_spec h 0) as [->|Hh]; simpl negb; cbn [andb].
    + by rewrite lookup_insert_ne, lookup_insert_eq, lookup_insert_eq.
    + destruct (Z.ltb_spec 0 h) as [Hpos|Hneg].
      * destruct (float_of_int_cases h) as [Hd|Hd]; rewrite Hd;
          [rewrite bind_Ok_l | simpl; eauto].
        rewrite (truediv_truthy _ _ (to_float_nonzero h Hh)), bind_Ok_l.
        by rewrite lookup_insert_ne, lookup_insert_eq, lookup_insert_eq.
      * by rewrite lookup_insert_ne, lookup_insert_eq, lookup_insert_eq.
  - by rewrite lookup_insert_ne, lookup_insert_eq, lookup_insert_eq.
Qed.

Lemma energy_per_io_index_witness :
  power_sum [Elem "SSDDevice.FlashChips"
               [("Fraction_of_Time_in_Execution", "50.0")] None []]
  = float_lit "50.0"
  /\ energy_per_io (float_lit "50.0") (Some 100) = VFloat (float_lit "0.5")
  /\ match parse_chip_metrics_and_energy
             (document [] [] [[("Fraction_of_Time_in_Execution", "50.0")]])
             (Some 100)
     with
     | Ok out =>
         out !! "energy_Total_Chip_Power_Index"
         = Some (VFloat
                   (power_sum
                      [Elem "SSDDevice.FlashChips"
                         [("Fraction_of_Time_in_Execution", "50.0")] None []]))
         /\ out !! "energy_Energy_per_IO_Index"
            = Some (energy_per_io
                      (power_sum
                         [Elem "SSDDevice.FlashChips"
                            [("Fraction_of_Time_in_Execution", "50.0")]
                            None []])
                      (Some 100))
     | Raise e =>
         e = OverflowError
         /\ (too_large 1 \/ exists h, Some 100 = Some h /\ too_large h)
     end.
Proof.
  split; [vm_compute; reflexivity|]. split; [vm_compute; reflexivity|].
  exact (energy_per_io_index
           (document [] [] [[("Fraction_of_Time_in_Execution", "50.0")]])
           (Some 100)
           (Elem "SSDDevice.FlashChips"
              [("Fraction_of_Time_in_Execution", "50.0")] None [])
           [] eq_refl).
Defined.

(** C6, counterexample.  A document without chip element and a request
    count of 100: the extractor returns the empty mapping, in which the
    energy per request is not set, although the count is there and
    positive. *)
Lemma energy_per_io_without_chips :
  findall (document [] [] []) "SSDDevice/SSDDevice.FlashChips" = []
  /\ parse_chip_metrics_and_energy (document [] [] []) (Some 100) = Ok ∅
  /\ (∅ : gmap string value) !! "energy_Energy_per_IO_Index" = None.
Proof. repeat split. Qed.

(** A request count of zero, or none, leaves the energy per request
    [None]; 100 requests and a total power index of 50.0 give 0.5. *)
Example energy_per_io_examples :
  energy_per_io (float_lit "50.0") (Some 0) = VNone
  /\ energy_per_io (float_lit "50.0") None = VNone
  /\ exists out,
      parse_chip_metrics_and_energy
        (document [] [] [[("Fraction_of_Time_in_Execution", "50.0")]])
        (Some 100)
      = Ok out
      /\ out !! "energy_Total_Chip_Power_Index"
         = Some (VFloat (float_lit "50.0"))
      /\ out !! "energy_Energy_per_IO_Index" = Some (VFloat (float_lit "0.5")).
Proof.
  split; [reflexivity|]. split; [reflexivity|].
  eexists. split; [reflexivity|]. split; vm_compute; reflexivity.
Qed.

(** ** Further facts and examples *)

(** An FTL element, or a TSU element, without a value out of range is
    summarised without exception. *)
Corollary parse_ftl_metrics_returns (root ftl : Element) :
  find root "SSDDevice/SSDDevice.FTL" = Some ftl ->
  ~ out_of_range (attrib ftl) ->
  exists out, parse_ftl_metrics root = Ok out.
Proof.
  intros Hftl Hrange. pose proof (parse_ftl_metrics_spec root ftl Hftl) as H.
  destruct (parse_ftl_metrics root) as [out|e]; [eauto|]. by destruct H.
Qed.

Corollary parse_tsu_metrics_returns (root tsu : Element) :
  find root "SSDDevice/SSDDevice.TSU" = Some tsu ->
  (forall q, q ∈ children tsu -> ~ out_of_range (attrib q)) ->
  exists out, parse_tsu_metrics root = Ok out.
Proof.
  intros Htsu Hrange.
  pose proof (parse_tsu_metrics_spec root tsu Htsu) as H.
  destruct (parse_tsu_metrics root) as [out|e]; [eauto|].
  destruct H as [_ (q & Hq & Hout)]. by destruct (Hrange q Hq).
Qed.

(** A section of the document that is not there yields the empty mapping. *)
Lemma missing_section_empty (root : Element) :
  (find root "Host/Host.IO_Flow" = None -> parse_host_metrics root = Ok ∅)
  /\ (find root "SSDDevice/SSDDevice.FTL" = None ->
      parse_ftl_metrics root = Ok ∅)
  /\ (find root "SSDDevice/SSDDevice.TSU" = None ->
      parse_tsu_metrics root = Ok ∅)
  /\ (findall root "SSDDevice/SSDDevice.FlashChips" = [] ->
      forall host_reqs, parse_chip_metrics_and_energy root host_reqs = Ok ∅).
Proof.
  unfold parse_host_metrics, parse_ftl_metrics, parse_tsu_metrics,
    parse_chip_metrics_and_energy.
  repeat split; intros H; intros; by rewrite H.
Qed.

(** What [safe_int] makes of some texts. *)
Example safe_int_examples :
  safe_int None = Ok None
  /\ safe_int (Some "") = Ok None
  /\ safe_int (Some " 42 ") = Ok (Some 42)
  /\ safe_int (Some "1_000") = Ok (Some 1000)
  /\ safe_int (Some "12.7") = Ok (Some 12)
  /\ safe_int (Some "-3.9") = Ok (Some (-3))
  /\ safe_int (Some "1e3") = Ok (Some 1000)
  /\ safe_int (Some "abc") = Ok None
  /\ safe_int (Some "nan") = Ok None
  /\ safe_int (Some "inf") = Raise OverflowError
  /\ safe_int (Some "1e999") = Raise OverflowError.
Proof. repeat split; vm_compute; reflexivity. Qed.

(** What [safe_float] makes of some texts. *)
Example safe_float_examples :
  safe_float None = None
  /\ safe_float (Some "  ") = None
  /\ safe_float (Some "0.5") = Some (S754_finite false 4503599627370496 (-53))
  /\ safe_float (Some "2") = Some (S754_finite false 4503599627370496 (-51))
  /\ safe_float (Some "-inf") = Some (S754_infinity true)
  /\ safe_float (Some "1e999") = Some (S754_infinity false)
  /\ safe_float (Some "NaN") = Some S754_nan
  /\ safe_float (Some "1,5") = None.
Proof. repeat split; vm_compute; reflexivity. Qed.

(** The file names of the documentation of the parser. *)
Example parse_experiment_name_cache :
  exists info,
    parse_experiment_name "wl_cache128MB_4kb_randread_scenario_1.xml" = Ok info
    /\ info !! "exp_name" = Some (VStr "wl_cache128MB_4kb_randread_scenario_1")
    /\ info !! "category" = Some (VStr "cache")
    /\ info !! "cache_size" = Some (VStr "128MB")
    /\ info !! "block_size" = Some (VStr "4kb")
    /\ info !! "access_pattern" = Some (VStr "randread")
    /\ is_null info "channels"
    /\ is_null info "chips_per_channel"
    /\ is_null info "io_queue_depth"
    /\ is_null info "tpcc_variant".
Proof.
  eexists. split; [reflexivity|]. repeat split; vm_compute; reflexivity.
Qed.

Example parse_experiment_name_ioqd :
  exists info,
    parse_experiment_name "wl_ioqd32_4kb_randwrite_scenario_1.xml" = Ok info
    /\ info !! "category" = Some (VStr "ioqd")
    /\ info !! "io_queue_depth" = Some (VInt 32)
    /\ info !! "block_size" = Some (VStr "4kb")
    /\ info !! "access_pattern" = Some (VStr "randwrite").
Proof.
  eexists. split; [reflexivity|]. repeat split; vm_compute; reflexivity.
Qed.

Example parse_experiment_name_tpcc :
  exists info,
    parse_experiment_name "wl_tpcc_ch4_chip2_scenario_1.xml" = Ok info
    /\ info !! "category" = Some (VStr "tpcc")
    /\ info !! "tpcc_variant" = Some (VStr "ch_chip")
    /\ info !! "channels" = Some (VInt 4)
    /\ info !! "chips_per_channel" = Some (VInt 2)
    /\ info !! "access_pattern" = Some (VStr "tpcc")
    /\ is_null info "block_size".
Proof.
  eexists. split; [reflexivity|]. repeat split; vm_compute; reflexivity.
Qed.

(** A token that starts with [ch] and goes on without digit is filed under
    [ch_chip] with no channel count. *)
Example parse_experiment_name_chip_first :
  exists info,
    parse_experiment_name "wl_chip2_4kb_randread.xml" = Ok info
    /\ info !! "category" = Some (VStr "ch_chip")
    /\ is_null info "channels"
    /\ is_null info "chips_per_channel".
Proof.
  eexists. split; [reflexivity|]. repeat split; vm_compute; reflexivity.
Qed.

(** When no chip token follows [ch4] and the name has six tokens, the
    tokens at positions 3 and 4 are taken all the same. *)
Example parse_experiment_name_shifted :
  exists info,
    parse_experiment_name "wl_ch4_4kb_randread_scenario_1.xml" = Ok info
    /\ info !! "block_size" = Some (VStr "randread")
    /\ info !! "access_pattern" = Some (VStr "scenario").
Proof.
  eexists. split; [reflexivity|]. repeat split; vm_compute; reflexivity.
Qed.

(** A count beyond the range of doubles makes the extractors raise, and so
    does a count that reads as infinity. *)
Example extractors_raise_on_overflow :
  parse_tsu_metrics
    (document []
       [queue "User_A"
              ("1" +:+ string_of_list_ascii (repeat "0"%char 400))
              "1" "5.0" "0.5"] [])
  = Raise OverflowError
  /\ parse_ftl_metrics (document [("Average_Page_Movement_For_GC", "inf")] [] [])
     = Raise OverflowError
  /\ ratio (Some (10 ^ 400)) (Some (10 ^ 400)) = Raise OverflowError.
Proof. repeat split; vm_compute; reflexivity. Qed.

(** A whole record: the identity of the file and the metrics of a document
    with one request count, two queues and one chip. *)
Example summarize_file_example :
  exists row,
    summarize_file
      (fun _ =>
         Parsed (document [("Issued_Flash_Read_CMD", "7");
                           ("Issued_Flash_Read_CMD_For_Mapping", "2")]
                          [queue "User_A" "10" "10" "5.0" "0.5";
                           queue "User_B" "30" "30" "1.0" "0.5"]
                          [[("Fraction_of_Time_in_Execution", "50.0")]]))
      "results/wl_cache128MB_4kb_randread_scenario_1.xml"
    = Ok row
    /\ row !! "category" = Some (VStr "cache")
    /\ row !! "host_Request_Count" = Some (VInt 100)
    /\ row !! "ftl_Total_Flash_Read_CMD" = Some (VInt 7)
    /\ row !! "ftl_Mapping_Read_CMD" = Some (VInt 2)
    /\ row !! "ftl_Total_Flash_Erase_CMD" = Some (VInt 0)
    /\ row !! "tsu_User_Avg_Waiting_Time" = Some (VFloat (float_lit "2.0"))
    /\ row !! "energy_Energy_per_IO_Index" = Some (VFloat (float_lit "0.5"))
    /\ row !! "parse_error" = None.
Proof.
  eexists. split; [reflexivity|]. repeat split; vm_compute; reflexivity.
Qed.

(** ** Further properties of the summariser *)

(** *** The readers [safe_int] and [safe_float] *)

Lemma str_lstrip_space l s :
  all_space l = true -> str_lstrip (l +:+ s) = str_lstrip s.
Proof.
  induction l as [|c l IH]; [done|]. rewrite append_cons. simpl.
  intros [-> Hl]%andb_prop. by apply IH.
Qed.

Lemma str_lstrip_all_space r : all_space r = true -> str_lstrip r = "".
Proof.
  induction r as [|c r IH]; [done|]. simpl.
  intros [-> Hr]%andb_prop. by apply IH.
Qed.

Lemma str_rstrip_all_space r : all_space r = true -> str_rstrip r = "".
Proof.
  induction r as [|c r IH]; [done|]. simpl.
  intros [-> Hr]%andb_prop. by rewrite IH.
Qed.

Lemma str_rstrip_space s r :
  all_space r = true -> str_rstrip (s +:+ r) = str_rstrip s.
Proof.
  intros Hr. induction s as [|c s IH].
  - change ("" +:+ r) with r. by rewrite str_rstrip_all_space.
  - rewrite append_cons. simpl. by rewrite IH.
Qed.

Lemma str_strip_space_r s r :
  all_space r = true -> str_strip (s +:+ r) = str_strip s.
Proof.
  intros Hr. unfold str_strip. induction s as [|c s IH].
  - change ("" +:+ r) with r. by rewrite str_lstrip_all_space.
  - rewrite append_cons. simpl. destruct (is_space c); [done|].
    rewrite <- append_cons. by apply str_rstrip_space.
Qed.

Lemma str_strip_padding l s r :
  all_space l = true -> all_space r = true ->
  str_strip (l +:+ s +:+ r) = str_strip s.
Proof.
  intros Hl Hr. unfold str_strip at 1. rewrite str_lstrip_space by done.
  by apply str_strip_space_r.
Qed.


(** X2.  White space around a text does not count for the two readers, and
    a text of white space only reads as a missing value. *)
Theorem readers_ignore_white_space (l s r : string) :
  all_space l = true -> all_space r = true ->
  safe_int (Some (l +:+ s +:+ r)) = safe_int (Some s)
  /\ safe_float (Some (l +:+ s +:+ r)) = safe_float (Some s)
  /\ safe_int (Some l) = Ok None
  /\ safe_float (Some l) = None.
Proof.
  intros Hl Hr. unfold safe_int, safe_float.
  rewrite (str_strip_padding l s r Hl Hr). split_and!; try done.
  all: unfold str_strip; by rewrite (str_lstrip_all_space l Hl).
Qed.

Lemma readers_ignore_white_space_witness :
  safe_int (Some (" " +:+ "42" +:+ String "010" "")) = safe_int (Some "42")
  /\ safe_float (Some (" " +:+ "42" +:+ String "010" ""))
     = safe_float (Some "42")
  /\ safe_int (Some " ") = Ok None
  /\ safe_float (Some " ") = None.
Proof.
  exact (readers_ignore_white_space " " "42" (String "010" "")
           eq_refl eq_refl).
Defined.

Lemma decimal_nonneg s :
  all_digits s = true -> forall acc, 0 <= acc -> 0 <= decimal acc s.
Proof.
  induction s as [|c s IH]; intros Hs acc Hacc; simpl in *; [done|].
  apply andb_prop in Hs as [Hc Hs]. apply IH; [done|].
  unfold is_digit in Hc. unfold digit_val. lia.
Qed.










(** *** Records as chains of assignments *)

Lemma lookup_assign_opt_ne key k v out :
  key <> k -> assign_opt key v out !! k = out !! k.
Proof. intros Hne. destruct v; simpl; [by rewrite lookup_insert_ne|done]. Qed.

Lemma lookup_assign_opt_eq key v out :
  out !! key = None -> assign_opt key v out !! key = v.
Proof. intros Hk. destruct v; simpl; [by rewrite lookup_insert_eq|done]. Qed.

Lemma dom_insert_within k v (m : gmap string value) (X : gset string) :
  k ∈ X -> dom m ⊆ X -> dom (<[k := v]> m) ⊆ X.
Proof. intros Hk Hm. rewrite dom_insert_L. set_solver. Qed.

Lemma dom_assign_opt_within k v (m : gmap string value) (X : gset string) :
  k ∈ X -> dom m ⊆ X -> dom (assign_opt k v m) ⊆ X.
Proof. destruct v; simpl; [apply dom_insert_within | done]. Qed.

Lemma dom_empty_within (X : gset string) : dom (∅ : gmap string value) ⊆ X.
Proof. rewrite dom_empty_L. set_solver. Qed.

(** Membership in a set given as a list of literals. *)
Ltac key_in_list := solve [repeat first [apply list_elem_of_here | apply list_elem_of_further]].
Ltac key_in_set := apply elem_of_list_to_set; key_in_list.

(** The keys of a record that is a chain of assignments. *)
Ltac dom_within :=
  repeat first
    [ apply dom_empty_within
    | apply dom_insert_within; [key_in_set|]
    | apply dom_assign_opt_within; [key_in_set|] ].

(** Reads a field of a record that is a chain of assignments. *)
Ltac lookup_chain :=
  repeat first
    [ rewrite lookup_insert_eq
    | rewrite lookup_insert_ne by done
    | rewrite lookup_assign_opt_ne by done
    | rewrite lookup_assign_opt_eq by (lookup_chain; done)
    | rewrite lookup_empty ].

Lemma dom_within_eq (m : gmap string value) (l : list string) :
  dom m ⊆ list_to_set l -> Forall (fun k => is_Some (m !! k)) l ->
  dom m = list_to_set l.
Proof.
  intros Hsub Hall. apply (anti_symm (⊆)); [done|].
  intros k Hk%elem_of_list_to_set. apply elem_of_dom.
  by apply (proj1 (Forall_forall _ _) Hall).
Qed.

(** *** The experiment name parser, branch by branch *)

Lemma assign_matched_int_app key lit rest info :
  assign_matched_int key lit (lit +:+ rest) info
  = Ok (match leading_int rest with
        | VNone => info
        | v => <[key := v]> info
        end).
Proof.
  rewrite assign_matched_int_eq. unfold re_match_digits, leading_int.
  rewrite str_startswith_app, str_drop_app.
  by destruct (String.eqb (take_digits rest) "").
Qed.

Lemma leading_int_cases rest :
  leading_int rest = VNone \/ exists n, leading_int rest = VInt n.
Proof. unfold leading_int. destruct (String.eqb _ ""); eauto. Qed.

Lemma str_startswith_inv p s :
  str_startswith p s = true -> exists rest, s = p +:+ rest.
Proof.
  unfold str_startswith. revert s. induction p as [|c p IH]; intros s.
  - by exists s.
  - destruct s as [|c' s]; simpl; [done|].
    destruct (ascii_dec c c') as [<-|]; [|done].
    intros [rest ->]%IH. by exists rest.
Qed.

Lemma str_app_inj p a b : p +:+ a = p +:+ b -> a = b.
Proof.
  induction p as [|c p IH]; [done|]. rewrite !append_cons. intros [= H]. auto.
Qed.

(** X4.  When the token at position 1 starts with [cache], the category is
    [cache] and [cache_size] is the rest of the token, whatever it is;
    [block_size] and [access_pattern] are the tokens at positions 2 and 3
    when the name has a token at position 3, and [None] otherwise; the other
    axis fields are [None]. *)
Theorem cache_name_fields (filename size : string) :
  tokens filename !! 0%nat = Some "wl" ->
  tokens filename !! 1%nat = Some ("cache" +:+ size) ->
  exists info,
    parse_experiment_name filename = Ok info
    /\ info !! "category" = Some (VStr "cache")
    /\ info !! "cache_size" = Some (VStr size)
    /\ match tokens filename !! 2%nat, tokens filename !! 3%nat with
       | Some b, Some a =>
           info !! "block_size" = Some (VStr b)
           /\ info !! "access_pattern" = Some (VStr a)
       | _, _ => is_null info "block_size" /\ is_null info "access_pattern"
       end
    /\ is_null info "channels"
    /\ is_null info "chips_per_channel"
    /\ is_null info "io_queue_depth"
    /\ is_null info "tpcc_variant".
Proof.
  unfold tokens, parse_experiment_name.
  generalize (base_of filename) as base. intros base.
  blank_info_facts base.
  generalize dependent (blank_info base). intros info0 **.
  destruct (str_split "_" base) as [|p0 [|kind l2]]; [done..|].
  simplify_eq/=. unfold item. simpl.
  rewrite (str_startswith_app "cache" size).
  change (str_drop _ ("cache" +:+ size)) with size.
  destruct l2 as [|t2 [|t3 l4]]; simpl.
  all: eexists; split; [reflexivity|]; lookups; by repeat split.
Qed.

Lemma cache_name_fields_witness :
  exists info,
    parse_experiment_name "wl_cache128MB_4kb_randread_scenario_1.xml" = Ok info
    /\ info !! "category" = Some (VStr "cache")
    /\ info !! "cache_size" = Some (VStr "128MB")
    /\ (info !! "block_size" = Some (VStr "4kb")
        /\ info !! "access_pattern" = Some (VStr "randread"))
    /\ is_null info "channels"
    /\ is_null info "chips_per_channel"
    /\ is_null info "io_queue_depth"
    /\ is_null info "tpcc_variant".
Proof.
  exact (cache_name_fields "wl_cache128MB_4kb_randread_scenario_1.xml" "128MB"
           eq_refl eq_refl).
Defined.

(** X5.  When the token at position 1 starts with [ioqd], the category is
    [ioqd] and [io_queue_depth] is the integer that follows the prefix, or
    [None] when no digit follows; [block_size] and [access_pattern] are the
    tokens at positions 2 and 3 when the name has a token at position 3. *)
Theorem queue_depth_name_fields (filename rest : string) :
  tokens filename !! 0%nat = Some "wl" ->
  tokens filename !! 1%nat = Some ("ioqd" +:+ rest) ->
  exists info,
    parse_experiment_name filename = Ok info
    /\ info !! "category" = Some (VStr "ioqd")
    /\ info !! "io_queue_depth" = Some (leading_int rest)
    /\ match tokens filename !! 2%nat, tokens filename !! 3%nat with
       | Some b, Some a =>
           info !! "block_size" = Some (VStr b)
           /\ info !! "access_pattern" = Some (VStr a)
       | _, _ => is_null info "block_size" /\ is_null info "access_pattern"
       end
    /\ is_null info "cache_size"
    /\ is_null info "channels"
    /\ is_null info "chips_per_channel"
    /\ is_null info "tpcc_variant".
Proof.
  unfold tokens, parse_experiment_name.
  generalize (base_of filename) as base. intros base.
  blank_info_facts base.
  generalize dependent (blank_info base). intros info0 **.
  destruct (str_split "_" base) as [|p0 [|kind l2]]; [done..|].
  simplify_eq/=. unfold item. simpl.
  rewrite (str_startswith_app "ioqd" rest).
  change (str_startswith "cache" ("ioqd" +:+ rest)) with false.
  change (str_startswith "ch" ("ioqd" +:+ rest)) with false.
  cbv iota. rewrite assign_matched_int_app, bind_Ok_l.
  destruct (leading_int_cases rest) as [Hlead|[n Hlead]]; rewrite Hlead;
    destruct l2 as [|t2 [|t3 l4]]; simpl.
  all: eexists; split; [reflexivity|]; lookups; by repeat split.
Qed.

Lemma queue_depth_name_fields_witness :
  exists info,
    parse_experiment_name "wl_ioqd32_4kb_randwrite_scenario_1.xml" = Ok info
    /\ info !! "category" = Some (VStr "ioqd")
    /\ info !! "io_queue_depth" = Some (VInt 32)
    /\ (info !! "block_size" = Some (VStr "4kb")
        /\ info !! "access_pattern" = Some (VStr "randwrite"))
    /\ is_null info "cache_size"
    /\ is_null info "channels"
    /\ is_null info "chips_per_channel"
    /\ is_null info "tpcc_variant".
Proof.
  exact (queue_depth_name_fields "wl_ioqd32_4kb_randwrite_scenario_1.xml"
           "32" eq_refl eq_refl).
Defined.

(** X6.  When the token at position 1 is [tpcc], the category and the
    access pattern are [tpcc] and [block_size] is [None]; the token at
    position 2 selects the variant by its prefix ([cache], [ch], [ioqd]),
    with the cache size, the channel count and the chips per channel (from
    a [chip] token at position 3), or the queue depth; without a token at
    position 2 the variant is [None]. *)
Theorem tpcc_name_fields (filename : string) :
  tokens filename !! 0%nat = Some "wl" ->
  tokens filename !! 1%nat = Some "tpcc" ->
  exists info,
    parse_experiment_name filename = Ok info
    /\ info !! "category" = Some (VStr "tpcc")
    /\ info !! "access_pattern" = Some (VStr "tpcc")
    /\ is_null info "block_size"
    /\ (forall size,
          tokens filename !! 2%nat = Some ("cache" +:+ size) ->
          info !! "tpcc_variant" = Some (VStr "cache")
          /\ info !! "cache_size" = Some (VStr size)
          /\ is_null info "channels"
          /\ is_null info "chips_per_channel"
          /\ is_null info "io_queue_depth")
    /\ (forall rest,
          tokens filename !! 2%nat = Some ("ch" +:+ rest) ->
          info !! "tpcc_variant" = Some (VStr "ch_chip")
          /\ info !! "channels" = Some (leading_int rest)
          /\ (forall rest2,
                tokens filename !! 3%nat = Some ("chip" +:+ rest2) ->
                info !! "chips_per_channel" = Some (leading_int rest2))
          /\ is_null info "cache_size"
          /\ is_null info "io_queue_depth")
    /\ (forall rest,
          tokens filename !! 2%nat = Some ("ioqd" +:+ rest) ->
          info !! "tpcc_variant" = Some (VStr "ioqd")
          /\ info !! "io_queue_depth" = Some (leading_int rest)
          /\ is_null info "cache_size"
          /\ is_null info "channels"
          /\ is_null info "chips_per_channel")
    /\ (tokens filename !! 2%nat = None -> is_null info "tpcc_variant").
Proof.
  unfold tokens, parse_experiment_name.
  generalize (base_of filename) as base. intros base.
  blank_info_facts base.
  generalize dependent (blank_info base). intros info0 **.
  destruct (str_split "_" base) as [|p0 [|kind l2]]; [done..|].
  simplify_eq/=. unfold item. simpl.
  change (str_startswith "cache" "tpcc") with false.
  change (str_startswith "ch" "tpcc") with false.
  change (str_startswith "ioqd" "tpcc") with false. cbv iota.
  destruct l2 as [|sub l3]; simpl.
  { eexists; split; [reflexivity|]. lookups. by split_and!. }
  destruct (str_startswith "cache" sub) eqn:Hcache.
  { eexists; split; [reflexivity|]. lookups. split_and!; try done.
    - intros size [= ->]. by change (str_drop _ ("cache" +:+ size)) with size.
    - intros rest [= ->]. by cbv in Hcache.
    - intros rest [= ->]. by cbv in Hcache. }
  destruct (str_startswith "ch" sub) eqn:Hch.
  { apply str_startswith_inv in Hch as [rest ->].
    rewrite assign_matched_int_app, bind_Ok_l.
    destruct l3 as [|t3 l4]; simpl;
      [|destruct (str_startswith "chip" t3) eqn:Hchip;
        [apply str_startswith_inv in Hchip as [rest3 ->];
         rewrite assign_matched_int_app|]].
    all: destruct (leading_int_cases rest) as [Hlead|[n Hlead]]; rewrite Hlead.
    all: try (destruct (leading_int_cases rest3) as [Hlead3|[n3 Hlead3]];
              rewrite Hlead3).
    all: eexists; (split; [reflexivity|]); lookups; split_and!; try done.
    all: try (intros ? [= H]; by cbv in H).
    all: intros ? [= <-%str_app_inj]; rewrite ?Hlead; split_and!; try done.
    all: try (intros ? [= <-%str_app_inj]; by rewrite ?Hlead3).
    all: intros ? [= ->]; by rewrite str_startswith_app in Hchip. }
  destruct (str_startswith "ioqd" sub) eqn:Hq.
  { apply str_startswith_inv in Hq as [rest ->].
    rewrite assign_matched_int_app.
    destruct (leading_int_cases rest) as [Hlead|[n Hlead]]; rewrite Hlead.
    all: eexists; (split; [reflexivity|]); lookups; split_and!; try done.
    all: try (intros ? [= H]; by cbv in H).
    all: intros ? [= <-%str_app_inj]; by rewrite ?Hlead. }
  eexists; (split; [reflexivity|]); lookups; split_and!; try done.
  all: intros ? [= ->]; by rewrite str_startswith_app in *.
Qed.

Lemma tpcc_name_fields_witness :
  exists info,
    parse_experiment_name "wl_tpcc_ch4_chip2_scenario_1.xml" = Ok info
    /\ info !! "category" = Some (VStr "tpcc")
    /\ info !! "access_pattern" = Some (VStr "tpcc")
    /\ info !! "tpcc_variant" = Some (VStr "ch_chip")
    /\ info !! "channels" = Some (VInt 4)
    /\ info !! "chips_per_channel" = Some (VInt 2).
Proof.
  destruct (tpcc_name_fields "wl_tpcc_ch4_chip2_scenario_1.xml"
              eq_refl eq_refl)
    as (info & Hinfo & Hcat & Hacc & _ & _ & Hch & _).
  destruct (Hch "4" eq_refl) as (Hvar & Hchan & Hchips & _).
  exists info. split_and!; try done. exact (Hchips "2" eq_refl).
Defined.

Lemma prefix_char a c s :
  String.prefix (String a "") (String c s) = Ascii.eqb c a.
Proof.
  simpl. destruct (ascii_dec a c) as [->|Hne].
  - rewrite Ascii.eqb_refl. by destruct s.
  - symmetry. apply Ascii.eqb_neq. congruence.
Qed.

Lemma str_contains_char_cons a c s :
  str_contains (String a "") (String c s)
  = Ascii.eqb c a || str_contains (String a "") s.
Proof. by rewrite str_contains_cons, prefix_char. Qed.

Lemma str_contains_char_app a s t :
  str_contains (String a "") (s +:+ t)
  = str_contains (String a "") s || str_contains (String a "") t.
Proof.
  induction s as [|c s IH]; [done|].
  by rewrite append_cons, !str_contains_char_cons, IH, orb_assoc.
Qed.

Lemma basename_cons c p :
  basename (String c p)
  = if str_contains "/" (String c p) then basename p else String c p.
Proof. reflexivity. Qed.

Lemma basename_no_slash f : str_contains "/" f = false -> basename f = f.
Proof. destruct f as [|c f]; [done|]. rewrite basename_cons. by intros ->. Qed.

Lemma basename_app d f : basename (d +:+ "/" +:+ f) = basename f.
Proof.
  induction d as [|c d IH].
  - change ("" +:+ "/" +:+ f) with (String "/" f).
    by rewrite basename_cons, str_contains_char_cons.
  - rewrite append_cons, basename_cons, IH.
    rewrite <- append_cons, str_contains_char_app.
    change ("/" +:+ f) with (String "/" f).
    by rewrite (str_contains_char_cons "/" "/" f), orb_true_r.
Qed.

Lemma str_lower_app s t : str_lower (s +:+ t) = str_lower s +:+ str_lower t.
Proof. induction s as [|c s IH]; [done|]. rewrite append_cons. simpl. by rewrite IH. Qed.

Lemma str_lower_length s : String.length (str_lower s) = String.length s.
Proof. induction s as [|c s IH]; [done|]. simpl. by rewrite IH. Qed.

Lemma str_length_app s t : String.length (s +:+ t) = (String.length s + String.length t)%nat.
Proof. induction s as [|c s IH]; [done|]. rewrite append_cons. simpl. by rewrite IH. Qed.

Lemma str_take_app s t : str_take (String.length s) (s +:+ t) = s.
Proof. induction s as [|c s IH]; [by destruct t|]. rewrite append_cons. simpl. by rewrite IH. Qed.

Lemma str_endswith_app s p : str_endswith p (s +:+ p) = true.
Proof.
  unfold str_endswith, str_len. rewrite str_length_app.
  replace (String.length s + String.length p - String.length p)%nat
    with (str_len s) by (unfold str_len; lia).
  rewrite str_drop_app, String.eqb_refl, andb_true_r.
  apply Nat.leb_le. lia.
Qed.

Lemma lower_not_slash c : lower_char c <> "/"%char -> Ascii.eqb c "/" = false.
Proof.
  intros H. apply Ascii.eqb_neq. intros ->. by apply H.
Qed.

Lemma xml_extension ext :
  str_lower ext = ".xml" ->
  String.length ext = 4%nat /\ str_contains "/" ext = false.
Proof.
  intros H. split.
  - by rewrite <- str_lower_length, H.
  - destruct ext as [|a [|b [|c [|d [|]]]]]; try done.
    injection H as Ha Hb Hc Hd.
    rewrite !str_contains_char_cons.
    rewrite !lower_not_slash; [done|congruence..].
Qed.

Lemma base_of_path dir stem ext :
  str_contains "/" stem = false -> str_lower ext = ".xml" ->
  base_of (dir +:+ "/" +:+ stem +:+ ext) = stem
  /\ base_of (stem +:+ ext) = stem.
Proof.
  intros Hstem Hext. destruct (xml_extension ext Hext) as [Hlen Hslash].
  assert (Hb : basename (stem +:+ ext) = stem +:+ ext).
  { apply basename_no_slash. by rewrite str_contains_char_app, Hstem, Hslash. }
  assert (H : base_of (stem +:+ ext) = stem).
  { unfold base_of. rewrite Hb, str_lower_app, Hext, str_endswith_app.
    unfold str_len. rewrite str_length_app, Hlen.
    replace (String.length stem + 4 - 4)%nat with (String.length stem) by lia.
    apply str_take_app. }
  split; [|done]. unfold base_of in *. by rewrite basename_app.
Qed.

(** X7.  The directory of a path and the letter case of the extension do
    not count: the record is the one of the base name, and [exp_name] is
    the base name without the extension. *)
Theorem name_from_path (dir stem ext : string) :
  str_contains "/" stem = false -> str_lower ext = ".xml" ->
  exists info,
    parse_experiment_name (dir +:+ "/" +:+ stem +:+ ext) = Ok info
    /\ parse_experiment_name (stem +:+ ".xml") = Ok info
    /\ info !! "exp_name" = Some (VStr stem).
Proof.
  intros Hstem Hext.
  destruct (base_of_path dir stem ext Hstem Hext) as [H1 _].
  destruct (base_of_path dir stem ".xml" Hstem eq_refl) as [_ H2].
  pose proof (parse_experiment_name_exp_name (dir +:+ "/" +:+ stem +:+ ext)) as Hn.
  assert (Heq : parse_experiment_name (dir +:+ "/" +:+ stem +:+ ext)
                = parse_experiment_name (stem +:+ ".xml")).
  { unfold parse_experiment_name. by rewrite H1, H2. }
  rewrite H1 in Hn. rewrite <- Heq.
  destruct (parse_experiment_name _) as [info|]; [|done]. by exists info.
Qed.

Lemma name_from_path_witness :
  exists info,
    parse_experiment_name "results/run1/wl_ioqd8_4kb_seqread.XML" = Ok info
    /\ parse_experiment_name "wl_ioqd8_4kb_seqread.xml" = Ok info
    /\ info !! "exp_name" = Some (VStr "wl_ioqd8_4kb_seqread").
Proof.
  exact (name_from_path "results/run1" "wl_ioqd8_4kb_seqread" ".XML"
           eq_refl eq_refl).
Defined.

Lemma assign_matched_int_nonneg key lit tok info :
  exists v : option Z,
    assign_matched_int key lit tok info
    = Ok (match v with Some n => <[key := VInt n]> info | None => info end)
    /\ forall n, v = Some n -> 0 <= n.
Proof.
  rewrite assign_matched_int_eq. unfold re_match_digits.
  destruct (str_startswith lit tok); [|by exists None].
  destruct (String.eqb _ ""); [by exists None|].
  eexists (Some _). split; [done|]. intros n [= <-].
  apply decimal_nonneg; [apply take_digits_all_digits | lia].
Qed.

Ltac typed_step :=
  lazymatch goal with
  | |- ensures (if ?b then _ else _) _ => destruct b eqn:?
  | |- ensures (assign_matched_int ?k ?l ?t ?i ≫= _) _ =>
      let v := fresh "v" in
      destruct (assign_matched_int_nonneg k l t i) as [[v|] [-> ?]];
      apply ensures_bind; cbv beta
  | |- ensures (assign_matched_int ?k ?l ?t ?i) _ =>
      let v := fresh "v" in
      destruct (assign_matched_int_nonneg k l t i) as [[v|] [-> ?]]
  | |- ensures ((if ?b then _ else _) ≫= _) _ => destruct b eqn:?
  | |- ensures (Ok _ ≫= _) _ => apply ensures_bind; cbv beta
  end.

(** X8.  In the record of any file name the three counts are [None] or
    integers that are not negative, the category and the tpcc variant are
    [None] or one of their few names, the variant is set only under the
    category [tpcc], and under that category the access pattern is [tpcc]
    and the block size is [None]. *)
Theorem identity_record_types (filename : string) :
  exists info,
    parse_experiment_name filename = Ok info
    /\ count_field (info !! "channels")
    /\ count_field (info !! "chips_per_channel")
    /\ count_field (info !! "io_queue_depth")
    /\ info !! "category"
       ∈ [Some VNone; Some (VStr "cache"); Some (VStr "ch_chip");
          Some (VStr "ioqd"); Some (VStr "tpcc")]
    /\ info !! "tpcc_variant"
       ∈ [Some VNone; Some (VStr "cache"); Some (VStr "ch_chip");
          Some (VStr "ioqd")]
    /\ (info !! "category" <> Some (VStr "tpcc") ->
        is_null info "tpcc_variant")
    /\ (info !! "category" = Some (VStr "tpcc") ->
        info !! "access_pattern" = Some (VStr "tpcc")
        /\ is_null info "block_size").
Proof.
  apply ensures_Ok. unfold parse_experiment_name.
  generalize (base_of filename) as base. intros base.
  generalize (str_split "_" base) as parts. intros parts.
  blank_info_facts base.
  generalize dependent (blank_info base). intros info0 **.
  cbv zeta. repeat typed_step.
  all: unfold ensures, count_field; lookups.
  all: split_and!; try done; try key_in_list; try (by left).
  all: right; eauto.
Qed.

(** *** The host section *)

Lemma assign_scaled_eq key x d out :
  float_truthy d = true ->
  assign_scaled key x d out
  = Ok (assign_opt key ((fun f => VFloat (fdiv f d)) <$> x) out).
Proof.
  intros Hd. unfold assign_scaled. destruct x as [f|]; [|done].
  by rewrite (truediv_truthy _ _ Hd).
Qed.

Ltac read_child host :=
  lazymatch goal with
  | |- context [safe_int (get_child_text host ?t) ≫= _] =>
      let H := fresh "Hread" in
      destruct (safe_int (get_child_text host t)) as [?|?] eqn:H;
      [rewrite bind_Ok_l
      | pose proof (safe_int_raises _ _ H) as ->;
        simpl; split; [done|]; eexists _, t;
        split; [unfold host_counts; key_in_list | done]]
  end.

Lemma parse_host_metrics_spec (root host : Element) :
  find root "Host/Host.IO_Flow" = Some host ->
  match parse_host_metrics root with
  | Ok out =>
      (forall key tag, (key, tag) ∈ host_counts ->
         exists v, safe_int (get_child_text host tag) = Ok v
                   /\ out !! key = Some (of_opt_int v))
      /\ (forall key tag, (key, tag) ∈ host_floats ->
            out !! key
            = Some (of_opt_float (safe_float (get_child_text host tag))))
      /\ (forall key tag d, (key, tag, d) ∈ host_scaled ->
            out !! key
            = (fun f => VFloat (fdiv f (float_lit d)))
                <$> safe_float (get_child_text host tag))
      /\ dom out ⊆ host_keys
  | Raise e =>
      e = OverflowError
      /\ exists key tag, (key, tag) ∈ host_counts
           /\ safe_int (get_child_text host tag) = Raise OverflowError
  end.
Proof.
  intros Hhost. unfold parse_host_metrics. rewrite Hhost.
  do 3 read_child host.
  change (fmul (float_lit "1024.0") (float_lit "1024.0"))
    with (float_lit "1048576.0").
  repeat (rewrite assign_scaled_eq by reflexivity; rewrite ?bind_Ok_l).
  split_and!.
  - intros key tag Hk; unfold host_counts in Hk.
    repeat (apply elem_of_cons in Hk as [[= -> ->]|Hk]);
      [..|by apply elem_of_nil in Hk].
    all: eexists; split; [eassumption|]; by lookup_chain.
  - intros key tag Hk; unfold host_floats in Hk.
    repeat (apply elem_of_cons in Hk as [[= -> ->]|Hk]);
      [..|by apply elem_of_nil in Hk].
    all: by lookup_chain.
  - intros key tag d Hk; unfold host_scaled in Hk.
    repeat (apply elem_of_cons in Hk as [[= -> -> ->]|Hk]);
      [..|by apply elem_of_nil in Hk].
    all: by lookup_chain.
  - unfold host_keys. dom_within.
Qed.

(** X9.  When the host element is there, the extractor either returns a
    record in which each of the three counts is what [safe_int] reads in
    the text of the child element, and each of the eight float fields what
    [safe_float] reads, [None] standing for a child that is missing or
    unreadable; or it raises [OverflowError], on a count that reads as an
    infinity. *)
Theorem host_fields (root host : Element) :
  find root "Host/Host.IO_Flow" = Some host ->
  match parse_host_metrics root with
  | Ok out =>
      (forall key tag, (key, tag) ∈ host_counts ->
         exists v, safe_int (get_child_text host tag) = Ok v
                   /\ out !! key = Some (of_opt_int v))
      /\ (forall key tag, (key, tag) ∈ host_floats ->
            out !! key
            = Some (of_opt_float (safe_float (get_child_text host tag))))
  | Raise e =>
      e = OverflowError
      /\ exists key tag, (key, tag) ∈ host_counts
           /\ safe_int (get_child_text host tag) = Raise OverflowError
  end.
Proof.
  intros Hhost. pose proof (parse_host_metrics_spec root host Hhost) as H.
  destruct (parse_host_metrics root) as [out|e]; [|done].
  by destruct H as (H1 & H2 & _).
Qed.

Lemma host_fields_witness :
  match parse_host_metrics
          (host_document [("Request_Count", "100"); ("IOPS", "2500.5")]) with
  | Ok out =>
      (forall key tag, (key, tag) ∈ host_counts ->
         exists v,
           safe_int
             (get_child_text
                (Elem "Host.IO_Flow" [] None
                   [Elem "Request_Count" [] (Some "100") [];
                    Elem "IOPS" [] (Some "2500.5") []]) tag) = Ok v
           /\ out !! key = Some (of_opt_int v))
      /\ (forall key tag, (key, tag) ∈ host_floats ->
            out !! key
            = Some (of_opt_float
                      (safe_float
                         (get_child_text
                            (Elem "Host.IO_Flow" [] None
                               [Elem "Request_Count" [] (Some "100") [];
                                Elem "IOPS" [] (Some "2500.5") []]) tag))))
  | Raise e =>
      e = OverflowError
      /\ exists key tag, (key, tag) ∈ host_counts
           /\ safe_int
                (get_child_text
                   (Elem "Host.IO_Flow" [] None
                      [Elem "Request_Count" [] (Some "100") [];
                       Elem "IOPS" [] (Some "2500.5") []]) tag)
              = Raise OverflowError
  end.
Proof.
  exact (host_fields
           (host_document [("Request_Count", "100"); ("IOPS", "2500.5")])
           (Elem "Host.IO_Flow" [] None
              [Elem "Request_Count" [] (Some "100") [];
               Elem "IOPS" [] (Some "2500.5") []])
           eq_refl).
Defined.

(** X10.  The four derived fields of the host section are set only when
    their source is read: a bandwidth in MiB per second is the bandwidth
    divided by 1048576.0, the latency in milliseconds the end-to-end delay
    divided by 1000.0, and the key is absent from the record (not [None])
    when the source is missing or unreadable.  No division raises. *)
Theorem host_derived_fields (root host : Element) :
  find root "Host/Host.IO_Flow" = Some host ->
  match parse_host_metrics root with
  | Ok out =>
      forall key tag d, (key, tag, d) ∈ host_scaled ->
        out !! key
        = (fun f => VFloat (fdiv f (float_lit d)))
            <$> safe_float (get_child_text host tag)
  | Raise e => e = OverflowError
  end.
Proof.
  intros Hhost. pose proof (parse_host_metrics_spec root host Hhost) as H.
  destruct (parse_host_metrics root) as [out|e]; [|by destruct H].
  by destruct H as (_ & _ & H & _).
Qed.

Lemma host_derived_fields_witness :
  exists out,
    parse_host_metrics
      (host_document [("Bandwidth", "2097152.0"); ("IOPS", "10")]) = Ok out
    /\ out !! "host_BW_MiB_per_s" = Some (VFloat (float_lit "2.0"))
    /\ out !! "host_Read_BW_MiB_per_s" = None
    /\ out !! "host_E2E_Latency_ms_assuming_us" = None.
Proof.
  pose proof (host_derived_fields
                (host_document [("Bandwidth", "2097152.0"); ("IOPS", "10")])
                (Elem "Host.IO_Flow" [] None
                   [Elem "Bandwidth" [] (Some "2097152.0") [];
                    Elem "IOPS" [] (Some "10") []])
                eq_refl) as H.
  destruct (parse_host_metrics _) as [out|e] eqn:Hout; [|done].
  exists out. split; [done|]. split_and!.
  - rewrite (H "host_BW_MiB_per_s" "Bandwidth" "1048576.0") by key_in_list.
    vm_compute. reflexivity.
  - by rewrite (H "host_Read_BW_MiB_per_s" "Read_Bandwidth" "1048576.0")
      by key_in_list.
  - by rewrite (H "host_E2E_Latency_ms_assuming_us" "End_to_End_Request_Delay"
                  "1000.0") by key_in_list.
Defined.

(** *** The FTL section *)

(** The extractor of the FTL element: the fields read from one attribute,
    and the keys of the record. *)
Lemma parse_ftl_metrics_fields (root ftl : Element) :
  find root "SSDDevice/SSDDevice.FTL" = Some ftl ->
  match parse_ftl_metrics root with
  | Ok out =>
      (forall key attr, (key, attr) ∈ ftl_counts ->
         exists v, safe_int (get (attrib ftl) attr) = Ok v
                   /\ out !! key = Some (of_opt_int v))
      /\ out !! "ftl_Average_Page_Movement_For_GC"
         = Some (of_opt_float
                   (safe_float (get (attrib ftl) "Average_Page_Movement_For_GC")))
      /\ dom out = ftl_keys
  | Raise e => e = OverflowError /\ out_of_range (attrib ftl)
  end.
Proof.
  intros Hftl. unfold parse_ftl_metrics. rewrite Hftl.
  pose proof (for_each_ftl_count (attrib ftl) (mk_ftl_totals 0 0 0 0 0 0))
    as Hloop.
  destruct (for_each ftl_count _ _) as [t|e]; [rewrite bind_Ok_l | done].
  clear Hloop.
  do 6 read_attr (attrib ftl). do 3 divide (attrib ftl).
  read_attr (attrib ftl). split_and!.
  - intros key attr Hk. unfold ftl_counts in Hk.
    repeat (apply elem_of_cons in Hk as [[= -> ->]|Hk]);
      [..|by apply elem_of_nil in Hk].
    all: eexists; split; [eassumption|]; by lookup_chain.
  - by lookup_chain.
  - apply dom_within_eq.
    + dom_within.
    + repeat (apply Forall_cons; split; [lookup_chain; eauto|]).
      by apply Forall_nil.
Qed.

(** X11.  Each of the six totals of flash commands is the sum, over the
    attributes of the FTL element, of the counts [safe_int] reads in the
    attributes that the total selects by name: a name that contains the
    command and not [For_Mapping] for the total of ordinary commands, a
    name that contains the command followed by [_For_Mapping] for the total
    of mapping commands; an attribute without readable count adds nothing. *)
Theorem ftl_command_totals (root ftl : Element) :
  find root "SSDDevice/SSDDevice.FTL" = Some ftl ->
  match parse_ftl_metrics root with
  | Ok out =>
      forall key, key ∈ commands ->
        out !! ("ftl_Total_Flash_" +:+ key)
        = Some (VInt (attr_sum (ordinary_cmd key) (attrib ftl)))
        /\ out !! ("ftl_Mapping_" +:+ key)
           = Some (VInt (attr_sum (mapping_cmd key) (attrib ftl)))
  | Raise e => e = OverflowError /\ out_of_range (attrib ftl)
  end.
Proof.
  intros Hftl. pose proof (parse_ftl_metrics_spec root ftl Hftl) as H.
  destruct (parse_ftl_metrics root) as [out|e]; [|done]. by destruct H.
Qed.

Lemma ftl_command_totals_witness :
  exists out,
    parse_ftl_metrics
      (document [("Issued_Flash_Read_CMD", "7");
                 ("Issued_Flash_Copyback_Read_CMD", "3");
                 ("Issued_Flash_Read_CMD_For_Mapping", "2");
                 ("Issued_Flash_Program_CMD", "n/a")] [] []) = Ok out
    /\ out !! "ftl_Total_Flash_Read_CMD" = Some (VInt 10)
    /\ out !! "ftl_Mapping_Read_CMD" = Some (VInt 2)
    /\ out !! "ftl_Total_Flash_Program_CMD" = Some (VInt 0).
Proof.
  pose proof (ftl_command_totals
                (document [("Issued_Flash_Read_CMD", "7");
                           ("Issued_Flash_Copyback_Read_CMD", "3");
                           ("Issued_Flash_Read_CMD_For_Mapping", "2");
                           ("Issued_Flash_Program_CMD", "n/a")] [] [])
                (Elem "SSDDevice.FTL"
                   [("Issued_Flash_Read_CMD", "7");
                    ("Issued_Flash_Copyback_Read_CMD", "3");
                    ("Issued_Flash_Read_CMD_For_Mapping", "2");
                    ("Issued_Flash_Program_CMD", "n/a")] None [])
                eq_refl) as H.
  destruct (parse_ftl_metrics _) as [out|e] eqn:Hout; [|done].
  exists out. split; [done|].
  destruct (H "Read_CMD" ltac:(key_in_list)) as [H1 H2].
  destruct (H "Program_CMD" ltac:(key_in_list)) as [H3 _].
  by split_and!.
Defined.

(** X12.  When the FTL element is there and the extractor returns, the
    record has exactly the seventeen keys of the section, whatever
    attributes the element carries: the six cache counts, the count of
    collector runs and the average page movement are what [safe_int] and
    [safe_float] read in the attribute of their name, [None] standing for
    an attribute that is missing or unreadable. *)
Theorem ftl_attribute_fields (root ftl : Element) :
  find root "SSDDevice/SSDDevice.FTL" = Some ftl ->
  match parse_ftl_metrics root with
  | Ok out =>
      (forall key attr, (key, attr) ∈ ftl_counts ->
         exists v, safe_int (get (attrib ftl) attr) = Ok v
                   /\ out !! key = Some (of_opt_int v))
      /\ out !! "ftl_Average_Page_Movement_For_GC"
         = Some (of_opt_float
                   (safe_float (get (attrib ftl) "Average_Page_Movement_For_GC")))
      /\ dom out = ftl_keys
  | Raise e => e = OverflowError /\ out_of_range (attrib ftl)
  end.
Proof. apply parse_ftl_metrics_fields. Qed.

Lemma ftl_attribute_fields_witness :
  exists out,
    parse_ftl_metrics
      (document [("CMT_Hits", "3"); ("Total_GC_Executions", "12.0")] [] [])
    = Ok out
    /\ out !! "ftl_Total_GC_Executions" = Some (VInt 12)
    /\ out !! "ftl_Total_CMT_Queries" = Some VNone
    /\ dom out = ftl_keys.
Proof.
  pose proof (ftl_attribute_fields
                (document [("CMT_Hits", "3"); ("Total_GC_Executions", "12.0")]
                          [] [])
                (Elem "SSDDevice.FTL"
                   [("CMT_Hits", "3"); ("Total_GC_Executions", "12.0")] None [])
                eq_refl) as H.
  destruct (parse_ftl_metrics _) as [out|e] eqn:Hout; [|done].
  exists out. split; [done|]. destruct H as (H & _ & Hdom).
  destruct (H "ftl_Total_GC_Executions" "Total_GC_Executions"
              ltac:(key_in_list)) as (v1 & Hv1 & ->).
  destruct (H "ftl_Total_CMT_Queries" "Total_CMT_Queries"
              ltac:(key_in_list)) as (v2 & Hv2 & ->).
  vm_compute in Hv1, Hv2. by simplify_eq.
Defined.

(** *** The TSU section *)

Lemma is_positive_gt0 f : is_positive f = true -> float_gt0 f = true.
Proof. by destruct f as [[]|[]| |[] m e]. Qed.

Lemma binary_round_aux_positive m e l :
  0 < m -> -1074 < Zdigits2 m + e ->
  is_positive (binary_round_aux prec emax false m e l) = true.
Proof.
  intros Hm Hd. unfold binary_round_aux.
  destruct (shr_fexp_positive m e l Hm Hd) as [H1 H1'].
  destruct (shr_fexp prec emax m e l) as [mrs' e']. simpl in H1, H1'.
  set (m2 := round_nearest_even (shr_m mrs') (loc_of_shr_record mrs')).
  assert (Hm2 : 0 < m2).
  { unfold m2, round_nearest_even.
    destruct (loc_of_shr_record mrs') as [|[]]; try lia.
    destruct (Z.even (shr_m mrs')); lia. }
  assert (Hd2 : -1074 < Zdigits2 m2 + e').
  { destruct m2 as [|q|q]; [lia| |lia]. simpl. lia. }
  destruct (shr_fexp_positive m2 e' loc_Exact Hm2 Hd2) as [H2 H2'].
  destruct (shr_fexp prec emax m2 e' loc_Exact) as [mrs'' e'']. simpl in H2, H2'.
  destruct (shr_m mrs'') as [|q|q]; [lia| |lia].
  destruct (e'' <=? emax - prec); [|done]. simpl. by apply Z.leb_le.
Qed.

Lemma binary_round_positive p e :
  -1074 <= e -> is_positive (binary_round prec emax false p e) = true.
Proof.
  intros He. unfold binary_round.
  destruct (shl_align p e (fexp prec emax (Zpos (digits2_pos p) + e)))
    as [mz ez] eqn:Hal.
  apply binary_round_aux_positive; [lia|].
  unfold shl_align in Hal.
  destruct (fexp_bounds (Zpos (digits2_pos p) + e)) as [Hlo _].
  destruct (fexp prec emax (Zpos (digits2_pos p) + e) - e) as [|d|d] eqn:Hd;
    injection Hal as <- <-; simpl; lia.
Qed.

(** The sum of two floats above zero is above zero. *)
Lemma fadd_positive x y :
  is_positive x = true -> is_positive y = true -> is_positive (fadd x y) = true.
Proof.
  destruct x as [[]|[]| |[] mx ex], y as [[]|[]| |[] my ey]; try done.
  intros Hx%Z.leb_le Hy%Z.leb_le. unfold fadd, SFadd.
  cbv [cond_Zopp]. 
  assert (Hsum : exists p, Zpos (fst (shl_align mx ex (Z.min ex ey)))
                   + Zpos (fst (shl_align my ey (Z.min ex ey))) = Zpos p).
  { eexists. reflexivity. }
  destruct Hsum as [p ->]. unfold binary_normalize.
  apply binary_round_positive. lia.
Qed.

Lemma fadd_zero_l y : is_positive y = true -> fadd fzero y = y.
Proof. by destruct y as [[]|[]| |[] my ey]. Qed.

Lemma count_positive {A} (l : list A) x :
  is_positive x = true ->
  is_positive (fold_left (fun acc _ => fadd acc (float_lit "1.0")) l x) = true.
Proof.
  revert x. induction l as [|a l IH]; intros x Hx; simpl; [done|].
  apply IH. by apply fadd_positive.
Qed.

Lemma count_gt0 {A} (l : list A) :
  float_gt0 (fold_left (fun acc _ => fadd acc (float_lit "1.0")) l fzero)
  = negb (bool_decide (l = [])).
Proof.
  destruct l as [|a l]; [done|]. cbn [fold_left].
  rewrite fadd_zero_l by done. apply is_positive_gt0. by apply count_positive.
Qed.

Lemma deq_fold qs s :
  deq (fold_left add_queue qs s)
  = fold_left
      (fun acc q =>
         fadd acc (to_float (int_attr q "No_Of_Transactions_Dequeued")))
      qs (deq s).
Proof.
  revert s. induction qs as [|q qs IH]; intros s; simpl; [done|].
  by rewrite IH.
Qed.

Lemma queue_len_sum_fold qs s :
  queue_len_sum (fold_left add_queue qs s)
  = fold_left (fun acc q => fadd acc (float_attr q "Avg_Queue_Length"))
      qs (queue_len_sum s).
Proof.
  revert s. induction qs as [|q qs IH]; intros s; simpl; [done|].
  by rewrite IH.
Qed.

Lemma queue_entries_fold qs s :
  queue_entries (fold_left add_queue qs s)
  = fold_left (fun acc _ => fadd acc (float_lit "1.0")) qs (queue_entries s).
Proof.
  revert s. induction qs as [|q qs IH]; intros s; simpl; [done|].
  by rewrite IH.
Qed.

Lemma average_queue_length_eq c qs :
  (if float_gt0 (queue_count c qs)
   then VFloat (fdiv (queue_length_sum c qs) (queue_count c qs)) else VNone)
  = average_queue_length c qs.
Proof.
  unfold average_queue_length, queue_count at 1. rewrite count_gt0.
  by destruct (class_queues c qs).
Qed.

(** The extractor of the TSU element, field by field. *)
Lemma parse_tsu_metrics_fields (root tsu : Element) :
  find root "SSDDevice/SSDDevice.TSU" = Some tsu ->
  match parse_tsu_metrics root with
  | Ok out =>
      (forall c, c ∈ prefixes ->
        out !! ("tsu_" +:+ c +:+ "_Transactions_Enqueued")
        = Some (positive_or_none (enqueued_sum c (children tsu)))
        /\ out !! ("tsu_" +:+ c +:+ "_Transactions_Dequeued")
           = Some (positive_or_none (dequeued_sum c (children tsu)))
        /\ out !! ("tsu_" +:+ c +:+ "_Avg_Queue_Length")
           = Some (average_queue_length c (children tsu)))
      /\ dom out = tsu_keys
  | Raise e =>
      e = OverflowError
      /\ exists q, q ∈ children tsu /\ out_of_range (attrib q)
  end.
Proof.
  intros Htsu. unfold parse_tsu_metrics. rewrite Htsu.
  assert (Hall : all_classes tsu_stats_init).
  { intros c Hc. rewrite (tsu_stats_init_lookup c Hc). eauto. }
  pose proof (for_each_tsu_accumulate (children tsu) _ Hall) as Hloop.
  destruct (for_each tsu_accumulate (children tsu) tsu_stats_init)
    as [stats|e]; [rewrite bind_Ok_l | done].
  assert (Hstats : forall c, c ∈ prefixes ->
            stats !! c
            = Some (fold_left add_queue (class_queues c (children tsu))
                      (mk_tsu_stats fzero fzero fzero fzero fzero))).
  { intros c Hc. apply Hloop; [done|]. by apply tsu_stats_init_lookup. }
  unfold prefixes at 1. simpl for_each.
  rewrite (tsu_report_eq _ _ "User" _ (Hstats "User" ltac:(set_solver))).
  rewrite bind_Ok_l.
  rewrite (tsu_report_eq _ _ "GC" _ (Hstats "GC" ltac:(set_solver))).
  rewrite bind_Ok_l.
  rewrite (tsu_report_eq _ _ "Mapping" _ (Hstats "Mapping" ltac:(set_solver))).
  rewrite !enq_fold, !deq_fold, !queue_len_sum_fold, !queue_entries_fold.
  cbn [enq deq queue_len_sum queue_entries].
  fold (queue_count "User" (children tsu)) (queue_count "GC" (children tsu))
       (queue_count "Mapping" (children tsu)).
  fold (queue_length_sum "User" (children tsu))
       (queue_length_sum "GC" (children tsu))
       (queue_length_sum "Mapping" (children tsu)).
  rewrite !average_queue_length_eq.
  cbv [String.append]. split.
  - intros c Hc. unfold prefixes in Hc.
    repeat (apply elem_of_cons in Hc as [->|Hc]);
      [| | |by apply elem_of_nil in Hc].
    all: cbv [String.append].
    all: split_and!; by lookup_chain.
  - apply dom_within_eq.
    + dom_within.
    + repeat (apply Forall_cons; split; [lookup_chain; eauto|]).
      by apply Forall_nil.
Qed.

(** X13.  For each of the three classes the enqueued and the dequeued
    transactions of the record are the sums, as floats, of the counts of
    the queues of the class, and [None] when the sum is not above zero. *)
Theorem tsu_transaction_counts (root tsu : Element) :
  find root "SSDDevice/SSDDevice.TSU" = Some tsu ->
  match parse_tsu_metrics root with
  | Ok out =>
      forall c, c ∈ prefixes ->
        out !! ("tsu_" +:+ c +:+ "_Transactions_Enqueued")
        = Some (positive_or_none (enqueued_sum c (children tsu)))
        /\ out !! ("tsu_" +:+ c +:+ "_Transactions_Dequeued")
           = Some (positive_or_none (dequeued_sum c (children tsu)))
  | Raise e =>
      e = OverflowError
      /\ exists q, q ∈ children tsu /\ out_of_range (attrib q)
  end.
Proof.
  intros Htsu. pose proof (parse_tsu_metrics_fields root tsu Htsu) as H.
  destruct (parse_tsu_metrics root) as [out|e]; [|done].
  intros c Hc. destruct H as [H _]. by destruct (H c Hc) as (? & ? & _).
Qed.

Lemma tsu_transaction_counts_witness :
  exists out,
    parse_tsu_metrics
      (document []
         [queue "User_A" "10" "8" "5.0" "0.5";
          queue "User_B" "30" "30" "1.0" "0.5";
          queue "GC" "0" "0" "0.0" "0.0"] []) = Ok out
    /\ out !! "tsu_User_Transactions_Enqueued"
       = Some (VFloat (float_lit "40.0"))
    /\ out !! "tsu_User_Transactions_Dequeued"
       = Some (VFloat (float_lit "38.0"))
    /\ out !! "tsu_GC_Transactions_Enqueued" = Some VNone.
Proof.
  pose proof (tsu_transaction_counts
                (document []
                   [queue "User_A" "10" "8" "5.0" "0.5";
                    queue "User_B" "30" "30" "1.0" "0.5";
                    queue "GC" "0" "0" "0.0" "0.0"] [])
                (Elem "SSDDevice.TSU" [] None
                   [queue "User_A" "10" "8" "5.0" "0.5";
                    queue "User_B" "30" "30" "1.0" "0.5";
                    queue "GC" "0" "0" "0.0" "0.0"])
                eq_refl) as H.
  destruct (parse_tsu_metrics _) as [out|e] eqn:Hout; [|done].
  exists out. split; [done|].
  destruct (H "User" ltac:(key_in_list)) as [H1 H2].
  destruct (H "GC" ltac:(key_in_list)) as [H3 _].
  split_and!; (etrans; [first [exact H1 | exact H2 | exact H3]|]);
    vm_compute; reflexivity.
Defined.

(** X14.  For each class the average queue length of the record is the
    plain mean of the average lengths of the queues of the class, the sum
    divided by their number, whatever their enqueued counts; it is [None]
    exactly when the class has no queue. *)
Theorem tsu_average_queue_length (root tsu : Element) :
  find root "SSDDevice/SSDDevice.TSU" = Some tsu ->
  match parse_tsu_metrics root with
  | Ok out =>
      forall c, c ∈ prefixes ->
        out !! ("tsu_" +:+ c +:+ "_Avg_Queue_Length")
        = Some (average_queue_length c (children tsu))
        /\ (average_queue_length c (children tsu) = VNone
            <-> class_queues c (children tsu) = [])
  | Raise e =>
      e = OverflowError
      /\ exists q, q ∈ children tsu /\ out_of_range (attrib q)
  end.
Proof.
  intros Htsu. pose proof (parse_tsu_metrics_fields root tsu Htsu) as H.
  destruct (parse_tsu_metrics root) as [out|e]; [|done].
  intros c Hc. destruct H as [H _]. destruct (H c Hc) as (_ & _ & ->).
  split; [done|]. unfold average_queue_length.
  by destruct (class_queues c (children tsu)).
Qed.

Lemma tsu_average_queue_length_witness :
  exists out,
    parse_tsu_metrics
      (document []
         [queue "User_A" "10" "8" "5.0" "0.5";
          queue "User_B" "0" "0" "1.0" "1.5"] []) = Ok out
    /\ out !! "tsu_User_Avg_Queue_Length" = Some (VFloat (float_lit "1.0"))
    /\ out !! "tsu_GC_Avg_Queue_Length" = Some VNone.
Proof.
  pose proof (tsu_average_queue_length
                (document []
                   [queue "User_A" "10" "8" "5.0" "0.5";
                    queue "User_B" "0" "0" "1.0" "1.5"] [])
                (Elem "SSDDevice.TSU" [] None
                   [queue "User_A" "10" "8" "5.0" "0.5";
                    queue "User_B" "0" "0" "1.0" "1.5"])
                eq_refl) as H.
  destruct (parse_tsu_metrics _) as [out|e] eqn:Hout; [|done].
  exists out. split; [done|].
  destruct (H "User" ltac:(key_in_list)) as [H1 _].
  destruct (H "GC" ltac:(key_in_list)) as [H2 _].
  split; (etrans; [first [exact H1 | exact H2]|]); vm_compute; reflexivity.
Defined.

Lemma for_each_known_queues qs : forall stats,
  for_each tsu_accumulate qs stats
  = for_each tsu_accumulate (known_queues qs) stats.
Proof.
  unfold known_queues.
  induction qs as [|q qs IH]; intros stats; [done|].
  rewrite filter_cons. simpl for_each.
  destruct (decide (queue_class q ∈ prefixes)) as [Hc|Hc].
  - simpl for_each. destruct (tsu_accumulate stats q); simpl; [apply IH|done].
  - rewrite (tsu_accumulate_other stats q Hc), bind_Ok_l. apply IH.
Qed.

Lemma parse_tsu_metrics_known (root root' tsu tsu' : Element) :
  find root "SSDDevice/SSDDevice.TSU" = Some tsu ->
  find root' "SSDDevice/SSDDevice.TSU" = Some tsu' ->
  children tsu' = known_queues (children tsu) ->
  parse_tsu_metrics root = parse_tsu_metrics root'.
Proof.
  intros Htsu Htsu' Hqs. unfold parse_tsu_metrics.
  by rewrite Htsu, Htsu', Hqs, <- for_each_known_queues.
Qed.

(** X15.  A queue whose name is of none of the three classes is passed
    over before any of its attributes is read: the record, or the
    exception, is the one of the document without such queues. *)
Theorem tsu_other_queues_ignored (root root' tsu tsu' : Element) :
  find root "SSDDevice/SSDDevice.TSU" = Some tsu ->
  find root' "SSDDevice/SSDDevice.TSU" = Some tsu' ->
  children tsu' = known_queues (children tsu) ->
  parse_tsu_metrics root = parse_tsu_metrics root'.
Proof. apply parse_tsu_metrics_known. Qed.

Lemma tsu_other_queues_ignored_witness :
  parse_tsu_metrics
    (document []
       [queue "User_A" "10" "8" "5.0" "0.5";
        queue "Users" "inf" "1e999" "nan" "x"] [])
  = parse_tsu_metrics (document [] [queue "User_A" "10" "8" "5.0" "0.5"] []).
Proof.
  exact (tsu_other_queues_ignored
           (document []
              [queue "User_A" "10" "8" "5.0" "0.5";
               queue "Users" "inf" "1e999" "nan" "x"] [])
           (document [] [queue "User_A" "10" "8" "5.0" "0.5"] [])
           (Elem "SSDDevice.TSU" [] None
              [queue "User_A" "10" "8" "5.0" "0.5";
               queue "Users" "inf" "1e999" "nan" "x"])
           (Elem "SSDDevice.TSU" [] None
              [queue "User_A" "10" "8" "5.0" "0.5"])
           eq_refl eq_refl eq_refl).
Defined.

Lemma class_queues_known c qs :
  known_queues qs = [] -> c ∈ prefixes -> class_queues c qs = [].
Proof.
  unfold known_queues, class_queues. intros Hk Hc.
  induction qs as [|q qs IH]; [done|].
  rewrite filter_cons in Hk |- *.
  destruct (decide (queue_class q ∈ prefixes)) as [Hq|Hq]; [done|].
  destruct (decide (queue_class q = c)) as [<-|_]; [done|]. by apply IH.
Qed.

(** X16.  When the TSU element is there the record has exactly the twelve
    keys of the section; with no queue of the three classes under it the
    extractor returns, and all twelve fields are [None]. *)
Theorem tsu_record_keys (root tsu : Element) :
  find root "SSDDevice/SSDDevice.TSU" = Some tsu ->
  (forall out, parse_tsu_metrics root = Ok out -> dom out = tsu_keys)
  /\ (known_queues (children tsu) = [] ->
      exists out,
        parse_tsu_metrics root = Ok out
        /\ forall k, k ∈ tsu_keys -> out !! k = Some VNone).
Proof.
  intros Htsu.
  pose proof (parse_tsu_metrics_fields root tsu Htsu) as H.
  pose proof (parse_tsu_metrics_spec root tsu Htsu) as H'.
  split.
  - intros out Hout. rewrite Hout in H. by destruct H.
  - intros Hk.
    assert (Hret : exists out, parse_tsu_metrics root = Ok out).
    { rewrite (parse_tsu_metrics_known root (document [] [] [])
                 tsu (Elem "SSDDevice.TSU" [] None []) Htsu eq_refl)
        by (by rewrite Hk).
      pose proof (parse_tsu_metrics_spec (document [] [] []) _ eq_refl) as Hr.
      destruct (parse_tsu_metrics (document [] [] [])) as [out|e]; [eauto|].
      destruct Hr as [_ (q & Hq & _)]. by apply elem_of_nil in Hq. }
    destruct Hret as [out Hout]. rewrite Hout in H, H'.
    exists out. split; [done|]. destruct H as [H _].
    intros k Hkey. unfold tsu_keys in Hkey.
    apply elem_of_list_to_set, list_elem_of_bind in Hkey as (c & Hkey & Hc).
    destruct (H c Hc) as (He & Hd & Hl). destruct (H' c Hc) as (Hw & _).
    unfold weighted_waiting_time, enqueued_sum in Hw, He.
    unfold dequeued_sum in Hd. unfold average_queue_length in Hl.
    rewrite (class_queues_known c _ Hk Hc) in *.
    unfold class_keys in Hkey.
    repeat (apply elem_of_cons in Hkey as [->|Hkey]);
      [done..|by apply elem_of_nil in Hkey].
Qed.

Lemma tsu_record_keys_witness :
  exists out,
    parse_tsu_metrics (document [] [queue "Host" "5" "5" "1.0" "1.0"] [])
    = Ok out
    /\ dom out = tsu_keys
    /\ forall k, k ∈ tsu_keys -> out !! k = Some VNone.
Proof.
  destruct (tsu_record_keys
              (document [] [queue "Host" "5" "5" "1.0" "1.0"] [])
              (Elem "SSDDevice.TSU" [] None [queue "Host" "5" "5" "1.0" "1.0"])
              eq_refl) as [Hdom Hnull].
  destruct (Hnull eq_refl) as (out & Hout & Hk).
  exists out. split; [done|]. split; [by apply Hdom | done].
Defined.

(** *** Chips and energy *)

(** The extractor of the chips, with at least one chip element. *)
Lemma parse_chip_metrics_spec (root : Element) (host_reqs : option Z)
    (ch : Element) (chips : list Element) :
  findall root "SSDDevice/SSDDevice.FlashChips" = ch :: chips ->
  match parse_chip_metrics_and_energy root host_reqs with
  | Ok out =>
      dom out = chip_keys
      /\ (forall k,
            k ∈ chip_floats ->
            exists f, out !! k = Some (VFloat f))
  | Raise e =>
      e = OverflowError
      /\ (too_large (Z.of_nat (length (ch :: chips)))
          \/ exists h, host_reqs = Some h /\ too_large h)
  end.
Proof.
  intros Hchips. unfold parse_chip_metrics_and_energy. rewrite Hchips.
  generalize (total_power_index (ch :: chips)) as total. intros total.
  destruct (float_of_int_cases (Z.of_nat (length (ch :: chips)))) as [Hn|Hn];
    rewrite Hn; [rewrite bind_Ok_l | simpl; auto].
  assert (Hnz : float_truthy (to_float (Z.of_nat (length (ch :: chips)))) = true).
  { apply to_float_nonzero. cbn [length]. lia. }
  rewrite !(truediv_truthy _ _ Hnz), !bind_Ok_l.
  assert (Hshape : forall (v : value) (out : gmap string value),
            out = <["energy_Energy_per_IO_Index" := v]>
                    (<["energy_Total_Chip_Power_Index" := VFloat total]>
                       (<["chip_Avg_Fraction_Idle" :=
                            VFloat (fdiv (py_sum (map (fun ch0 => fraction ch0 "Fraction_of_Time_Idle") (ch :: chips)))
                                         (to_float (Z.of_nat (length (ch :: chips)))))]>
                          (<["chip_Avg_Fraction_Overlap" :=
                               VFloat (fdiv (py_sum (map (fun ch0 => fraction ch0 "Fraction_of_Time_in_DataXfer_and_Execution") (ch :: chips)))
                                            (to_float (Z.of_nat (length (ch :: chips)))))]>
                             (<["chip_Avg_Fraction_DataXfer" :=
                                  VFloat (fdiv (py_sum (map (fun ch0 => fraction ch0 "Fraction_of_Time_in_DataXfer") (ch :: chips)))
                                               (to_float (Z.of_nat (length (ch :: chips)))))]>
                                (<["chip_Avg_Fraction_Exec" :=
                                     VFloat (fdiv (py_sum (map (fun ch0 => fraction ch0 "Fraction_of_Time_in_Execution") (ch :: chips)))
                                                  (to_float (Z.of_nat (length (ch :: chips)))))]> ∅))))) ->
            dom out = chip_keys
            /\ (forall k,
                  k ∈ chip_floats ->
                  exists f, out !! k = Some (VFloat f))).
  { intros v out ->. split.
    - apply dom_within_eq.
      + dom_within.
      + repeat (apply Forall_cons; split; [lookup_chain; eauto|]).
        by apply Forall_nil.
    - intros k Hk. unfold chip_floats in Hk.
      repeat (apply elem_of_cons in Hk as [->|Hk]);
        [..|by apply elem_of_nil in Hk].
      all: lookup_chain; eauto. }
  destruct host_reqs as [h|]; [|by apply (Hshape VNone)].
  destruct (negb (h =? 0) && (0 <? h)) eqn:Hpos; [|by apply (Hshape VNone)].
  destruct (float_of_int_cases h) as [Hd|Hd]; rewrite Hd;
    [rewrite bind_Ok_l | simpl; eauto].
  assert (Hh : h <> 0) by (intros ->; done).
  rewrite (truediv_truthy _ _ (to_float_nonzero h Hh)), bind_Ok_l.
  by eapply Hshape.
Qed.

(** X17.  With at least one chip element the extractor either returns a
    record with exactly the six keys of the section, in which the four
    average fractions and the total power index are floats, never [None],
    whatever the attributes of the chips hold; or it raises
    [OverflowError], on a request count too large for a double. *)
Theorem chip_record_keys (root : Element) (host_reqs : option Z)
    (ch : Element) (chips : list Element) :
  findall root "SSDDevice/SSDDevice.FlashChips" = ch :: chips ->
  match parse_chip_metrics_and_energy root host_reqs with
  | Ok out =>
      dom out = chip_keys
      /\ (forall k, k ∈ chip_floats -> exists f, out !! k = Some (VFloat f))
  | Raise e =>
      e = OverflowError
      /\ (too_large (Z.of_nat (length (ch :: chips)))
          \/ exists h, host_reqs = Some h /\ too_large h)
  end.
Proof. apply parse_chip_metrics_spec. Qed.

Lemma chip_record_keys_witness :
  match parse_chip_metrics_and_energy
          (document [] [] [[("Fraction_of_Time_Idle", "unknown")]]) None with
  | Ok out =>
      dom out = chip_keys
      /\ (forall k, k ∈ chip_floats -> exists f, out !! k = Some (VFloat f))
  | Raise e =>
      e = OverflowError
      /\ (too_large 1 \/ exists h, None = Some h /\ too_large h)
  end.
Proof.
  exact (chip_record_keys
           (document [] [] [[("Fraction_of_Time_Idle", "unknown")]]) None
           (Elem "SSDDevice.FlashChips" [("Fraction_of_Time_Idle", "unknown")]
                 None [])
           [] eq_refl).
Defined.

(** *** The record of a file *)

(** The keys of two parts of a record are never the same. *)
Lemma section_keys_disjoint k :
  (k ∈ identity_keys ∪ {["parse_error"]} ->
   (k ∉ host_keys) /\ (k ∉ ftl_keys) /\ (k ∉ tsu_keys) /\ (k ∉ chip_keys))
  /\ (k ∈ host_keys -> (k ∉ ftl_keys) /\ (k ∉ tsu_keys) /\ (k ∉ chip_keys))
  /\ (k ∈ ftl_keys -> (k ∉ tsu_keys) /\ (k ∉ chip_keys))
  /\ (k ∈ tsu_keys -> k ∉ chip_keys).
Proof.
  assert (Hh : k ∈ host_keys -> str_startswith "host_" k = true).
  { intros Hk%elem_of_list_to_set. revert Hk. generalize k. apply Forall_forall.
    repeat constructor. }
  assert (Hf : k ∈ ftl_keys -> str_startswith "ftl_" k = true).
  { intros Hk%elem_of_list_to_set. revert Hk. generalize k. apply Forall_forall.
    repeat constructor. }
  assert (Ht : k ∈ tsu_keys -> str_startswith "tsu_" k = true).
  { intros Hk%elem_of_list_to_set. revert Hk. generalize k. apply Forall_forall.
    repeat constructor. }
  assert (Hc : k ∈ chip_keys ->
            str_startswith "chip_" k || str_startswith "energy_" k = true).
  { intros Hk%elem_of_list_to_set. revert Hk. generalize k. apply Forall_forall.
    repeat constructor. }
  pose proof (identity_key_not_metric k) as Hi. unfold metric_key in Hi.
  split_and!.
  - intros Hk. specialize (Hi Hk).
    apply orb_false_elim in Hi as [Hi He]. apply orb_false_elim in Hi as [Hi Hc'].
    apply orb_false_elim in Hi as [Hi Ht']. apply orb_false_elim in Hi as [Hh' Hf'].
    split_and!; intros H.
    + specialize (Hh H). congruence.
    + specialize (Hf H). congruence.
    + specialize (Ht H). congruence.
    + apply Hc in H. rewrite Hc', He in H. discriminate.
  - intros [r ->]%Hh%str_startswith_inv.
    split_and!; intros H; [apply Hf in H|apply Ht in H|apply Hc in H];
      by cbv in H.
  - intros [r ->]%Hf%str_startswith_inv.
    split_and!; intros H; [apply Ht in H|apply Hc in H]; by cbv in H.
  - intros [r ->]%Ht%str_startswith_inv H. apply Hc in H. by cbv in H.
Qed.

(** What each extractor returns for any document: the keys of its
    section, or [OverflowError]. *)
Lemma extractors_any (root : Element) (host_reqs : option Z) :
  match parse_host_metrics root with
  | Ok out => dom out ⊆ host_keys
  | Raise e => e = OverflowError
  end
  /\ match parse_ftl_metrics root with
     | Ok out => dom out ⊆ ftl_keys
     | Raise e => e = OverflowError
     end
  /\ match parse_tsu_metrics root with
     | Ok out => dom out ⊆ tsu_keys
     | Raise e => e = OverflowError
     end
  /\ match parse_chip_metrics_and_energy root host_reqs with
     | Ok out => dom out ⊆ chip_keys
     | Raise e => e = OverflowError
     end.
Proof.
  destruct (missing_section_empty root) as (Eh & Ef & Et & Ec).
  split_and!.
  - destruct (find root "Host/Host.IO_Flow") as [host|] eqn:Hhost.
    + pose proof (parse_host_metrics_spec root host Hhost) as H.
      destruct (parse_host_metrics root); [by destruct H as (_ & _ & _ & H)|].
      by destruct H.
    + rewrite Eh by done. apply dom_empty_within.
  - destruct (find root "SSDDevice/SSDDevice.FTL") as [ftl|] eqn:Hftl.
    + pose proof (parse_ftl_metrics_fields root ftl Hftl) as H.
      destruct (parse_ftl_metrics root); [|by destruct H].
      destruct H as (_ & _ & ->). done.
    + rewrite Ef by done. apply dom_empty_within.
  - destruct (find root "SSDDevice/SSDDevice.TSU") as [tsu|] eqn:Htsu.
    + pose proof (parse_tsu_metrics_fields root tsu Htsu) as H.
      destruct (parse_tsu_metrics root); [|by destruct H].
      destruct H as (_ & ->). done.
    + rewrite Et by done. apply dom_empty_within.
  - destruct (findall root "SSDDevice/SSDDevice.FlashChips")
      as [|ch chips] eqn:Hchips.
    + rewrite Ec by done. apply dom_empty_within.
    + pose proof (parse_chip_metrics_spec root host_reqs ch chips Hchips) as H.
      destruct (parse_chip_metrics_and_energy root host_reqs);
        [|by destruct H].
      destruct H as (-> & _). done.
Qed.

Lemma lookup_outside (m : gmap string value) (X : gset string) k :
  dom m ⊆ X -> k ∉ X -> m !! k = None.
Proof. intros Hm Hk. apply not_elem_of_dom. intros H. by apply Hk, Hm. Qed.

Lemma lookup_inside (m : gmap string value) (X : gset string) k v :
  dom m ⊆ X -> m !! k = Some v -> k ∈ X.
Proof. intros Hm Hk. apply Hm, elem_of_dom. eauto. Qed.

Lemma lookup_update d e k :
  update d e !! k = match e !! k with Some v => Some v | None => d !! k end.
Proof.
  unfold update. destruct (e !! k) as [v|] eqn:He.
  - by apply lookup_union_Some_l.
  - by rewrite lookup_union_r.
Qed.

(** The record of a file whose document parses, step by step. *)
Lemma summarize_file_spec (ET_parse : string -> parse_outcome)
    (path : string) (root : Element) :
  ET_parse path = Parsed root ->
  match summarize_file ET_parse path with
  | Ok row =>
      exists info host ftl tsu chip,
        parse_experiment_name path = Ok info
        /\ parse_host_metrics root = Ok host
        /\ parse_ftl_metrics root = Ok ftl
        /\ parse_tsu_metrics root = Ok tsu
        /\ parse_chip_metrics_and_energy root (host_request_count host)
           = Ok chip
        /\ (forall k v,
              row !! k = Some v
              <-> info !! k = Some v \/ host !! k = Some v
                  \/ ftl !! k = Some v \/ tsu !! k = Some v
                  \/ chip !! k = Some v)
        /\ row !! "parse_error" = None
  | Raise e => e = OverflowError
  end.
Proof.
  intros Hparse. unfold summarize_file. rewrite Hparse.
  pose proof (parse_experiment_name_dom path) as Hdom.
  destruct (parse_experiment_name path) as [info|] eqn:Hinfo; [|done].
  simpl in Hdom. rewrite bind_Ok_l, update_empty.
  destruct (extractors_any root None) as (Hh & Hf & Ht & _).
  destruct (parse_host_metrics root) as [host|] eqn:Hhost;
    [rewrite bind_Ok_l|done].
  destruct (parse_ftl_metrics root) as [ftl|] eqn:Hftl;
    [rewrite bind_Ok_l|done].
  destruct (parse_tsu_metrics root) as [tsu|] eqn:Htsu;
    [rewrite bind_Ok_l|done].
  destruct (extractors_any root (host_request_count host)) as (_ & _ & _ & Hc).
  destruct (parse_chip_metrics_and_energy root (host_request_count host))
    as [chip|] eqn:Hchip; [rewrite bind_Ok_l|done].
  exists info, host, ftl, tsu, chip. split_and!; try done.
  - intros k v. rewrite !lookup_update.
    destruct (section_keys_disjoint k) as (D1 & D2 & D3 & D4). split.
    + repeat case_match; naive_solver.
    + intros [H|[H|[H|[H|H]]]].
      * assert (Hk : k ∈ identity_keys ∪ {["parse_error"]}).
        { apply elem_of_union_l. rewrite <- Hdom. apply elem_of_dom. eauto. }
        destruct (D1 Hk) as (? & ? & ? & ?).
        rewrite (lookup_outside chip chip_keys), (lookup_outside tsu tsu_keys),
          (lookup_outside ftl ftl_keys), (lookup_outside host host_keys);
          assumption.
      * destruct (D2 (lookup_inside _ _ _ _ Hh H)) as (? & ? & ?).
        rewrite (lookup_outside chip chip_keys), (lookup_outside tsu tsu_keys),
          (lookup_outside ftl ftl_keys), H; (reflexivity || assumption).
      * destruct (D3 (lookup_inside _ _ _ _ Hf H)) as (? & ?).
        rewrite (lookup_outside chip chip_keys), (lookup_outside tsu tsu_keys),
          H; (reflexivity || assumption).
      * pose proof (D4 (lookup_inside _ _ _ _ Ht H)).
        rewrite (lookup_outside chip chip_keys), H;
          (reflexivity || assumption).
      * by rewrite H.
  - destruct (section_keys_disjoint "parse_error") as (D1 & _).
    destruct D1 as (? & ? & ? & ?); [apply elem_of_union_r; by apply elem_of_singleton|].
    rewrite !lookup_update.
    rewrite (lookup_outside chip chip_keys), (lookup_outside tsu tsu_keys),
      (lookup_outside ftl ftl_keys), (lookup_outside host host_keys)
      by assumption.
    apply not_elem_of_dom. rewrite Hdom. unfold identity_keys.
    rewrite !elem_of_union, !elem_of_singleton. naive_solver.
Qed.

(** X18.  For a file whose document parses, [summarize_file] either returns
    a record that is the union of the identity record and of the records of
    the four extractors, the energy extractor being given the request count
    of the host record: a field of the record is a field of one of the five
    parts, and every field of every part is in the record unchanged, since
    no two parts share a key; the record has no [parse_error].  Or it raises
    [OverflowError], and nothing else. *)
Theorem record_of_parsed_document (ET_parse : string -> parse_outcome)
    (path : string) (root : Element) :
  ET_parse path = Parsed root ->
  match summarize_file ET_parse path with
  | Ok row =>
      exists info host ftl tsu chip,
        parse_experiment_name path = Ok info
        /\ parse_host_metrics root = Ok host
        /\ parse_ftl_metrics root = Ok ftl
        /\ parse_tsu_metrics root = Ok tsu
        /\ parse_chip_metrics_and_energy root (host_request_count host)
           = Ok chip
        /\ (forall k v,
              row !! k = Some v
              <-> info !! k = Some v \/ host !! k = Some v
                  \/ ftl !! k = Some v \/ tsu !! k = Some v
                  \/ chip !! k = Some v)
        /\ row !! "parse_error" = None
  | Raise e => e = OverflowError
  end.
Proof. apply summarize_file_spec. Qed.

Lemma record_of_parsed_document_witness :
  match summarize_file (fun _ => Parsed (document [] [] []))
          "wl_ioqd8_4kb_seqread.xml" with
  | Ok row =>
      exists info host ftl tsu chip,
        parse_experiment_name "wl_ioqd8_4kb_seqread.xml" = Ok info
        /\ parse_host_metrics (document [] [] []) = Ok host
        /\ parse_ftl_metrics (document [] [] []) = Ok ftl
        /\ parse_tsu_metrics (document [] [] []) = Ok tsu
        /\ parse_chip_metrics_and_energy (document [] [] [])
             (host_request_count host) = Ok chip
        /\ (forall k v,
              row !! k = Some v
              <-> info !! k = Some v \/ host !! k = Some v
                  \/ ftl !! k = Some v \/ tsu !! k = Some v
                  \/ chip !! k = Some v)
        /\ row !! "parse_error" = None
  | Raise e => e = OverflowError
  end.
Proof.
  exact (record_of_parsed_document (fun _ => Parsed (document [] [] []))
           "wl_ioqd8_4kb_seqread.xml" (document [] [] []) eq_refl).
Defined.

Lemma summarize_file_raises (ET_parse : string -> parse_outcome)
    (path : string) (e : exn) :
  summarize_file ET_parse path = Raise e -> e = OverflowError.
Proof.
  intros He. destruct (ET_parse path) as [root|message] eqn:Hparse.
  - pose proof (summarize_file_spec ET_parse path root Hparse) as H.
    by rewrite He in H.
  - unfold summarize_file in He. rewrite Hparse in He.
    pose proof (parse_experiment_name_dom path) as Hdom.
    by destruct (parse_experiment_name path).
Qed.

Lemma mapM_result_spec {A B} (f : A -> result B) l :
  match mapM f l with
  | Ok rows => Forall2 (fun x y => f x = Ok y) l rows
  | Raise e => exists x, x ∈ l /\ f x = Raise e
  end.
Proof.
  induction l as [|x l IH]; simpl; [by constructor|].
  destruct (f x) as [y|e] eqn:Hx; simpl.
  - destruct (mapM f l) as [rows|e]; simpl.
    + by constructor.
    + destruct IH as (x' & Hin & Hx'). exists x'. split; [by right|done].
  - exists x. split; [left|done].
Qed.

Lemma summarize_all_spec (ET_parse : string -> parse_outcome)
    (xml_files : list string) :
  match summarize_all ET_parse xml_files with
  | Ok rows =>
      Forall2 (fun path row => summarize_file ET_parse path = Ok row)
              xml_files rows
  | Raise e =>
      e = OverflowError
      /\ exists path,
          path ∈ xml_files
          /\ summarize_file ET_parse path = Raise OverflowError
  end.
Proof.
  unfold summarize_all.
  pose proof (mapM_result_spec (summarize_file ET_parse) xml_files) as H.
  destruct (mapM _ _) as [rows|e]; [done|].
  destruct H as (path & Hin & Hp).
  pose proof (summarize_file_raises _ _ _ Hp) as ->. eauto.
Qed.

(** X19.  The rows of a batch are the records of the files, one per file
    and in the order of the files; a document that does not parse gives its
    row like any other, while a file whose document holds a value that
    makes [summarize_file] raise [OverflowError] ends the batch with that
    exception, the only one there is. *)
Theorem batch_rows (ET_parse : string -> parse_outcome)
    (xml_files : list string) :
  match summarize_all ET_parse xml_files with
  | Ok rows =>
      Forall2 (fun path row => summarize_file ET_parse path = Ok row)
              xml_files rows
  | Raise e =>
      e = OverflowError
      /\ exists path,
          path ∈ xml_files
          /\ summarize_file ET_parse path = Raise OverflowError
  end.
Proof. apply summarize_all_spec. Qed.

(** X20.  A document that parses and has none of the four sections gives
    the identity record of the file name and nothing else: nine keys, no
    metric, no [parse_error]. *)
Theorem bare_document_record (ET_parse : string -> parse_outcome)
    (path : string) (root : Element) :
  ET_parse path = Parsed root ->
  find root "Host/Host.IO_Flow" = None ->
  find root "SSDDevice/SSDDevice.FTL" = None ->
  find root "SSDDevice/SSDDevice.TSU" = None ->
  findall root "SSDDevice/SSDDevice.FlashChips" = [] ->
  exists info,
    parse_experiment_name path = Ok info
    /\ summarize_file ET_parse path = Ok info
    /\ dom info = identity_keys.
Proof.
  intros Hparse Hh Hf Ht Hc.
  destruct (missing_section_empty root) as (Eh & Ef & Et & Ec).
  pose proof (parse_experiment_name_dom path) as Hdom.
  unfold summarize_file. rewrite Hparse, (Eh Hh), (Ef Hf), (Et Ht).
  destruct (parse_experiment_name path) as [info|]; [|done].
  exists info. split; [done|]. split; [|done].
  rewrite !bind_Ok_l, (Ec Hc), bind_Ok_l. f_equal.
  rewrite update_empty. unfold update.
  by rewrite !(left_id_L ∅ (∪)).
Qed.

Lemma bare_document_record_witness :
  exists info,
    parse_experiment_name "wl_tpcc_cache1GB_scenario_1.xml" = Ok info
    /\ summarize_file (fun _ => Parsed (Elem "Results" [] None []))
         "wl_tpcc_cache1GB_scenario_1.xml" = Ok info
    /\ dom info = identity_keys.
Proof.
  exact (bare_document_record (fun _ => Parsed (Elem "Results" [] None []))
           "wl_tpcc_cache1GB_scenario_1.xml" (Elem "Results" [] None [])
           eq_refl eq_refl eq_refl eq_refl eq_refl).
Defined.

(** *** The batch driver *)

Lemma str_compare_refl s : String.compare s s = Eq.
Proof.
  induction s as [|c s IH]; [done|]. simpl.
  unfold Ascii.compare. by rewrite N.compare_refl.
Qed.

Lemma str_le_trans : Transitive str_le.
Proof.
  unfold str_le, String.leb. intros s.
  induction s as [|a s IH]; intros [|b t] [|c u]; simpl; try done.
  unfold Ascii.compare.
  destruct (N.compare_spec (N_of_ascii a) (N_of_ascii b)) as [Hab|Hab|Hab];
    destruct (N.compare_spec (N_of_ascii b) (N_of_ascii c)) as [Hbc|Hbc|Hbc];
    try done.
  - rewrite Hab, Hbc, N.compare_refl. apply IH.
  - intros _ _. rewrite Hab. by rewrite (proj2 (N.compare_lt_iff _ _) Hbc).
  - intros _ _. rewrite <- Hbc. by rewrite (proj2 (N.compare_lt_iff _ _) Hab).
  - intros _ _.
    by rewrite (proj2 (N.compare_lt_iff _ _) (N.lt_trans _ _ _ Hab Hbc)).
Qed.

Lemma str_le_total : Total str_le.
Proof. intros s t. apply String.leb_total. Qed.

Lemma str_le_antisym s t : str_le s t -> str_le t s -> s = t.
Proof. apply String.leb_antisym. Qed.

Lemma sorted_spec l :
  StronglySorted str_le (sorted l) /\ sorted l ≡ₚ l.
Proof.
  split.
  - apply StronglySorted_merge_sort; [apply str_le_trans | apply str_le_total].
  - apply merge_sort_Permutation.
Qed.

Example sorted_example :
  sorted ["wl_b.xml"; "wl_a_1.xml"; "wl_a.xml"; "wl_B.xml"]
  = ["wl_B.xml"; "wl_a.xml"; "wl_a_1.xml"; "wl_b.xml"].
Proof. vm_compute. reflexivity. Qed.

Lemma str_take_drop n s : str_take n s +:+ str_drop n s = s.
Proof.
  revert s. induction n as [|n IH]; intros s; [done|].
  destruct s as [|c s]; [done|]. simpl. by rewrite append_cons, IH.
Qed.

Lemma str_endswith_inv p s :
  str_endswith p s = true -> exists t, s = t +:+ p.
Proof.
  unfold str_endswith, str_len. intros [_ Heq%String.eqb_eq]%andb_prop.
  exists (str_take (String.length s - String.length p) s).
  rewrite <- Heq at 2. by rewrite str_take_drop.
Qed.

Lemma str_app_assoc a b c : (a +:+ b) +:+ c = a +:+ b +:+ c.
Proof.
  induction a as [|x a IH]; [done|].
  by rewrite (append_cons x a b), !append_cons, IH.
Qed.

Lemma path_join_basename d f :
  str_contains "/" f = false -> basename (path_join d f) = f.
Proof.
  intros Hf. unfold path_join.
  assert (Hs : str_startswith "/" f = false).
  { destruct f as [|c f]; [done|]. rewrite str_contains_char_cons in Hf.
    apply orb_false_elim in Hf as [Hc _]. unfold str_startswith.
    by rewrite prefix_char. }
  rewrite Hs.
  destruct (String.eqb_spec d "") as [->|Hd]; simpl orb; cbv iota.
  { by apply basename_no_slash. }
  destruct (str_endswith "/" d) eqn:Hend.
  - apply str_endswith_inv in Hend as [t ->].
    rewrite str_app_assoc, basename_app. by apply basename_no_slash.
  - rewrite basename_app. by apply basename_no_slash.
Qed.

Lemma str_split_cons_ne sep s : str_split sep s <> [].
Proof. destruct s as [|c s]; simpl; [done|]. destruct (Ascii.eqb c sep); [done|]. by destruct (str_split sep s). Qed.

Lemma str_lower_app_inv s a b :
  str_lower s = a +:+ b -> exists s1 s2, s = s1 +:+ s2 /\ str_lower s1 = a /\ str_lower s2 = b.
Proof.
  revert s. induction a as [|c a IH]; intros s H.
  - by exists "", s.
  - destruct s as [|c' s]; [done|]. rewrite append_cons in H. simpl in H.
    injection H as Hc H. destruct (IH s H) as (s1 & s2 & -> & H1 & H2).
    exists (String c' s1), s2. simpl. by rewrite Hc, H1.
Qed.

(** A name that [main] takes is [wl_], a stem and an extension that reads
    [.xml] in lower case. *)
Lemma result_file_stem f :
  is_result_file f = true ->
  exists g ext, f = "wl_" +:+ g +:+ ext /\ str_lower ext = ".xml".
Proof.
  unfold is_result_file. intros [Hend Hstart]%andb_prop.
  apply str_endswith_inv in Hend as [t Ht].
  apply str_lower_app_inv in Ht as (s1 & ext & -> & _ & Hext).
  exists (str_drop 3 s1), ext. split; [|done].
  destruct s1 as [|a [|b [|c s1]]].
  - destruct ext as [|a [|b [|c [|d [|]]]]]; try done.
    exfalso. injection Hext as Ha _ _ _. 
    apply str_startswith_inv in Hstart as [r Hr]. injection Hr as -> _ _.
    by vm_compute in Ha.
  - destruct ext as [|a' [|b' [|c' [|d' [|]]]]]; try done.
    exfalso. injection Hext as Ha _ _ _.
    apply str_startswith_inv in Hstart as [r Hr]. injection Hr as _ -> _.
    by vm_compute in Ha.
  - destruct ext as [|a' [|b' [|c' [|d' [|]]]]]; try done.
    exfalso. injection Hext as Ha _ _ _.
    apply str_startswith_inv in Hstart as [r Hr]. injection Hr as _ _ ->.
    by vm_compute in Ha.
  - apply str_startswith_inv in Hstart as [r Hr]. 
    rewrite !append_cons in Hr. by injection Hr as -> -> -> _.
Qed.

(** X21.  A name that [main] takes from the directory is never turned away
    by the name parser: joined to the directory, it has [wl] as its first
    token and at least one token more, and [exp_name] is the name without
    its extension. *)
Theorem result_file_name (input_dir f : string) :
  str_contains "/" f = false -> is_result_file f = true ->
  exists stem ext rest info,
    f = stem +:+ ext /\ str_lower ext = ".xml"
    /\ tokens (path_join input_dir f) = "wl" :: rest /\ rest <> []
    /\ parse_experiment_name (path_join input_dir f) = Ok info
    /\ info !! "exp_name" = Some (VStr stem).
Proof.
  intros Hslash Hsel.
  destruct (result_file_stem f Hsel) as (g & ext & -> & Hext).
  destruct (xml_extension ext Hext) as [Hlen Hext_slash].
  change ("wl_" +:+ g +:+ ext) with (String "w" (String "l" (String "_" (g +:+ ext))))
    in Hslash.
  rewrite !str_contains_char_cons, str_contains_char_app in Hslash.
  simpl in Hslash. apply orb_false_elim in Hslash as [Hg _].
  assert (Hstem : str_contains "/" ("wl_" +:+ g) = false).
  { change ("wl_" +:+ g) with (String "w" (String "l" (String "_" g))).
    by rewrite !str_contains_char_cons, Hg. }
  rewrite <- (str_app_assoc "wl_" g ext).
  assert (Hf : str_contains "/" (("wl_" +:+ g) +:+ ext) = false).
  { by rewrite str_contains_char_app, Hstem, Hext_slash. }
  assert (Hbase : base_of (path_join input_dir (("wl_" +:+ g) +:+ ext))
                  = "wl_" +:+ g).
  { destruct (base_of_path "" ("wl_" +:+ g) ext Hstem Hext) as [_ H].
    unfold base_of in *. rewrite path_join_basename by done.
    by rewrite basename_no_slash in H. }
  pose proof (parse_experiment_name_exp_name
                (path_join input_dir (("wl_" +:+ g) +:+ ext))) as Hname.
  rewrite Hbase in Hname.
  destruct (parse_experiment_name _) as [info|] eqn:Hinfo; [|done].
  exists ("wl_" +:+ g), ext, (str_split "_" g), info.
  split_and!; try done.
  - unfold tokens. rewrite Hbase.
    change ("wl_" +:+ g) with (String "w" (String "l" (String "_" g))).
    simpl. by destruct (str_split "_" g) eqn:Hs.
  - apply str_split_cons_ne.
Qed.

Lemma all_keys_spec rows k :
  k ∈ all_keys rows <-> exists r, r ∈ rows /\ k ∈ dom r.
Proof.
  unfold all_keys.
  assert (H : forall keys : gset string,
            k ∈ fold_left (fun keys r => keys ∪ dom r) rows keys
            <-> k ∈ keys \/ exists r : gmap string value, r ∈ rows /\ k ∈ dom r).
  { induction rows as [|r rows IH]; intros keys; simpl.
    - split; [auto|]. intros [H|(r & Hr & _)]; [done|]. by apply elem_of_nil in Hr.
    - rewrite IH, elem_of_union. split.
      + intros [[H|H]|(r' & Hr' & H)]; [auto| |].
        * right. exists r. split; [left|done].
        * right. exists r'. split; [by right|done].
      + intros [H|(r' & [->|Hr']%elem_of_cons & H)]; [auto|auto|].
        right. eauto. }
  rewrite H. split; [|auto]. intros [Hk|Hk]; [|done]. by apply elem_of_empty in Hk.
Qed.

Lemma header_spec rows k :
  k ∈ sorted (elements (all_keys rows)) <-> exists r, r ∈ rows /\ k ∈ dom r.
Proof.
  destruct (sorted_spec (elements (all_keys rows))) as [_ Hperm].
  rewrite Hperm, elem_of_elements. apply all_keys_spec.
Qed.

Lemma dict_to_list_Ok fieldnames rowdict :
  dom rowdict ⊆ list_to_set fieldnames ->
  dict_to_list fieldnames rowdict
  = Ok (map (fun key => default (VStr "") (rowdict !! key)) fieldnames).
Proof. intros H. unfold dict_to_list. by rewrite bool_decide_eq_true_2. Qed.

Lemma mapM_Ok {A B} (f : A -> result B) (g : A -> B) l :
  (forall x, x ∈ l -> f x = Ok (g x)) -> mapM f l = Ok (map g l).
Proof.
  induction l as [|x l IH]; intros H; simpl; [done|].
  rewrite (H x) by left. simpl. rewrite IH; [done|].
  intros y Hy. apply H. by right.
Qed.


Lemma result_file_name_witness :
  exists stem ext rest info,
    "wl_ch4_chip2.XML" = stem +:+ ext /\ str_lower ext = ".xml"
    /\ tokens (path_join "results/" "wl_ch4_chip2.XML") = "wl" :: rest
    /\ rest <> []
    /\ parse_experiment_name (path_join "results/" "wl_ch4_chip2.XML")
       = Ok info
    /\ info !! "exp_name" = Some (VStr stem).
Proof. exact (result_file_name "results/" "wl_ch4_chip2.XML" eq_refl eq_refl). Defined.

Lemma summarize_file_identity (ET_parse : string -> parse_outcome)
    (path : string) (row : gmap string value) k :
  summarize_file ET_parse path = Ok row -> k ∈ identity_keys -> k ∈ dom row.
Proof.
  intros Hrow Hk. pose proof (parse_experiment_name_dom path) as Hdom.
  destruct (ET_parse path) as [root|message] eqn:Hparse.
  - pose proof (summarize_file_spec ET_parse path root Hparse) as H.
    rewrite Hrow in H.
    destruct H as (info & host & ftl & tsu & chip & Hinfo & _ & _ & _ & _ & H & _).
    rewrite Hinfo in Hdom. simpl in Hdom. rewrite <- Hdom in Hk.
    apply elem_of_dom in Hk as [v Hv]. apply elem_of_dom. exists v.
    apply H. by left.
  - unfold summarize_file in Hrow. rewrite Hparse in Hrow.
    destruct (parse_experiment_name path) as [info|]; [|done].
    simpl in Hdom, Hrow. injection Hrow as <-.
    rewrite dom_insert_L, update_empty, Hdom. by apply elem_of_union_r.
Qed.

Lemma xml_files_length input_dir listing :
  length (xml_files input_dir listing)
  = length (filter (fun f => is_result_file f = true) listing).
Proof.
  unfold xml_files.
  destruct (sorted_spec (map (path_join input_dir)
              (filter (fun f => is_result_file f = true) listing))) as [_ Hp].
  by rewrite Hp, length_map.
Qed.

(** What [main] does once the rows are there. *)
Lemma main_table (ET_parse : string -> parse_outcome) (input_dir : string)
    (listing : list string) (rows : list (gmap string value)) :
  xml_files input_dir listing <> [] ->
  summarize_all ET_parse (xml_files input_dir listing) = Ok rows ->
  exists header,
    main ET_parse input_dir listing
    = Wrote header
        (map (fun row => map (fun key => default (VStr "") (row !! key)) header)
             rows)
    /\ StronglySorted str_le header
    /\ NoDup header
    /\ (forall k, k ∈ header <-> exists row, row ∈ rows /\ k ∈ dom row)
    /\ (forall k, k ∈ identity_keys -> k ∈ header)
    /\ length rows
       = length (filter (fun f => is_result_file f = true) listing).
Proof.
  intros Hne Hrows. exists (sorted (elements (all_keys rows))).
  destruct (sorted_spec (elements (all_keys rows))) as [Hsorted Hperm].
  pose proof (summarize_all_spec ET_parse (xml_files input_dir listing)) as Hall.
  rewrite Hrows in Hall.
  split_and!.
  - unfold main. rewrite bool_decide_eq_false_2 by done. rewrite Hrows.
    cbv zeta. rewrite (mapM_Ok _
      (fun row => map (fun key => default (VStr "") (row !! key))
                      (sorted (elements (all_keys rows))))); [done|].
    intros r Hr. apply dict_to_list_Ok.
    intros k Hk. apply elem_of_list_to_set, header_spec. eauto.
  - done.
  - rewrite Hperm. apply NoDup_elements.
  - apply header_spec.
  - intros k Hk. apply header_spec.
    destruct (xml_files input_dir listing) as [|path files]; [done|].
    inversion Hall as [|? row ? rows' Hrow _]; subst.
    exists row. split; [left|]. by eapply summarize_file_identity.
  - rewrite <- (xml_files_length input_dir listing). symmetry.
    by eapply Forall2_length.
Qed.

(** X22.  When every file gives its record, [main] hands the CSV writer a
    header that is the sorted list, without repetition, of the keys that
    occur in some row, the nine identity keys among them, and one line per
    row with one cell per key of the header: the value of the row under the
    key, or the empty text when the row has no such key.  The writer never
    refuses a row for a key outside the header. *)
Theorem main_writes_table (ET_parse : string -> parse_outcome)
    (input_dir : string) (listing : list string)
    (rows : list (gmap string value)) :
  xml_files input_dir listing <> [] ->
  summarize_all ET_parse (xml_files input_dir listing) = Ok rows ->
  exists header,
    main ET_parse input_dir listing
    = Wrote header
        (map (fun row => map (fun key => default (VStr "") (row !! key)) header)
             rows)
    /\ StronglySorted str_le header
    /\ NoDup header
    /\ (forall k, k ∈ header <-> exists row, row ∈ rows /\ k ∈ dom row)
    /\ (forall k, k ∈ identity_keys -> k ∈ header).
Proof.
  intros Hne Hrows.
  destruct (main_table ET_parse input_dir listing rows Hne Hrows)
    as (header & H1 & H2 & H3 & H4 & H5 & _).
  by exists header.
Qed.

Lemma main_writes_table_witness :
  exists rows header,
    summarize_all (fun _ => ParseFailed "no element found")
      (xml_files "results" ["notes.txt"; "wl_ioqd8.xml"]) = Ok rows
    /\ main (fun _ => ParseFailed "no element found") "results"
         ["notes.txt"; "wl_ioqd8.xml"]
       = Wrote header
           (map (fun row =>
                   map (fun key => default (VStr "") (row !! key)) header)
                rows)
    /\ StronglySorted str_le header
    /\ NoDup header
    /\ (forall k, k ∈ header <-> exists row, row ∈ rows /\ k ∈ dom row)
    /\ (forall k, k ∈ identity_keys -> k ∈ header).
Proof.
  assert (Hne : xml_files "results" ["notes.txt"; "wl_ioqd8.xml"] <> [])
    by (vm_compute; discriminate).
  pose proof (summarize_all_spec (fun _ => ParseFailed "no element found")
                (xml_files "results" ["notes.txt"; "wl_ioqd8.xml"])) as Hall.
  destruct (summarize_all _ _) as [rows|e] eqn:Hrows.
  - exists rows.
    destruct (main_writes_table (fun _ => ParseFailed "no element found")
                "results" ["notes.txt"; "wl_ioqd8.xml"] rows Hne Hrows)
      as (header & H). by exists header.
  - exfalso. destruct Hall as [_ (path & _ & Hp)].
    unfold summarize_file in Hp.
    pose proof (parse_experiment_name_dom path) as Hdom.
    by destruct (parse_experiment_name path).
Defined.

(** X23.  A run of [main] ends with [SystemExit] exactly when no name of the
    directory ends in [.xml] (in any letter case) and starts with [wl_];
    otherwise it writes one line per such name, each with one cell per key
    of the header, unless a record raises [OverflowError], the only
    exception that gets out of the summariser. *)
Theorem main_outcomes (ET_parse : string -> parse_outcome)
    (input_dir : string) (listing : list string) :
  match main ET_parse input_dir listing with
  | SystemExit => forall f, f ∈ listing -> is_result_file f = false
  | Uncaught e =>
      e = OverflowError /\ exists f, f ∈ listing /\ is_result_file f = true
  | Wrote header lines =>
      length lines
      = length (filter (fun f => is_result_file f = true) listing)
      /\ Forall (fun line => length line = length header) lines
      /\ exists f, f ∈ listing /\ is_result_file f = true
  end.
Proof.
  assert (Hsome : xml_files input_dir listing <> [] ->
            exists f, f ∈ listing /\ is_result_file f = true).
  { intros Hne. pose proof (xml_files_length input_dir listing) as Hlen.
    destruct (filter (fun f => is_result_file f = true) listing)
      as [|f fs] eqn:Hf.
    - by destruct (xml_files input_dir listing).
    - exists f.
      assert (Hin : f ∈ filter (fun f => is_result_file f = true) listing)
        by (rewrite Hf; left).
      apply list_elem_of_filter in Hin as [? ?]. by split. }
  destruct (decide (xml_files input_dir listing = [])) as [Hnil|Hne].
  - unfold main. rewrite bool_decide_eq_true_2 by done.
    intros f Hf. destruct (is_result_file f) eqn:Hsel; [|done].
    pose proof (xml_files_length input_dir listing) as Hlen.
    rewrite Hnil in Hlen.
    assert (Hin : f ∈ filter (fun f => is_result_file f = true) listing).
    { by apply list_elem_of_filter. }
    destruct (filter _ listing); [by apply elem_of_nil in Hin | done].
  - pose proof (summarize_all_spec ET_parse (xml_files input_dir listing))
      as Hall.
    destruct (summarize_all ET_parse (xml_files input_dir listing))
      as [rows|e] eqn:Hrows.
    + destruct (main_table ET_parse input_dir listing rows Hne Hrows)
        as (header & -> & _ & _ & _ & _ & Hlen).
      split_and!.
      * by rewrite length_map.
      * apply Forall_forall. intros line (row & -> & _)%list_elem_of_fmap.
        by rewrite length_map.
      * by apply Hsome.
    + unfold main. rewrite bool_decide_eq_false_2 by done. rewrite Hrows.
      destruct Hall as [-> _]. split; [done|]. by apply Hsome.
Qed.

